(** * AutoGoogleForms: extraction, reconciliation and answer building

    A shallow embedding of the core of the repository:
    - [parser.py]: the nested-data navigator ([_dig], [_walk_lists]) and the
      question extraction of [GFormParser.parse];
    - [main_gemini.py] / [main_groq.py]: the option matching utilities
      ([_norm], [pick_single_option], [pick_multi_options]); the two files
      carry the same text for these three functions, so they are embedded once;
    - [form_answer_builder.py]: [FormAnswerBuilder.set_answer] and
      [FormAnswerBuilder.build_pairs];
    - [main_groq.py]: [extract_answer_from_llm] and the loop of
      [answer_form_with_groq], from the reply of the model to the stored
      answer (the requests themselves are inputs);
    - [qa_context.py]: [QACache.add] and [QACache.clear], and
      [make_section_context_map] with [extract_section_intro].

    Python strings are sequences of Unicode code points; exceptions are
    values of a result type; the builder's mutable state is threaded
    explicitly. *)

From Stdlib Require Import ZArith NArith Ascii String DecimalString.
From stdpp Require Import base option list strings gmap.

Local Open Scope Z_scope.
#[local] Set Warnings "-register-all".

(* ===================================================================== *)
(** ** Python values *)
(* ===================================================================== *)

(** A code point, and a [str]. *)
Definition char : Type := N.
Definition pystr : Type := list N.

(** An ASCII literal as a [str]. *)
Definition py (s : string) : pystr :=
  (λ a, N_of_ascii a) <$> list_ascii_of_string s.

(** What [json.loads] produces and what callers hand to the builder
    ([Any]).  A float is carried by its printed form: the code never
    computes with one. *)
Inductive pyval : Type :=
| VNone
| VBool (b : bool)
| VInt (z : Z)
| VFloat (repr : pystr)
| VStr (s : pystr)
| VList (l : list pyval)
| VDict (d : list (pystr * pyval)).

(** Exceptions, by the place that raises them. *)
Inductive exn : Type :=
| ValueError_int_literal                   (* int(s) *)
| ValueError_unknown_entry (eid : pystr)   (* set_answer: unknown entry_id *)
| ValueError_invalid_option (eid : pystr)  (* set_answer: value not among the options *)
| IndexError                               (* list index out of range *)
| RuntimeError_no_items_root.              (* _guess_items_root *)

Inductive result (A : Type) : Type :=
| Ok (a : A)
| Raise (e : exn).
Arguments Ok {A} a.
Arguments Raise {A} e.

(** An exception ends the computation it is raised in. *)
Definition bind {A B} (m : result A) (f : A → result B) : result B :=
  match m with Ok a => f a | Raise e => Raise e end.

Notation "x <- m ; k" := (bind m (λ x, k))
  (at level 20, m at level 100, k at level 200, only parsing).
Notation "' p <- m ; k" := (bind m (λ x, match x with p => k end))
  (at level 20, p pattern, m at level 100, k at level 200, only parsing).

(** [isinstance(v, int)]: [bool] is a subclass of [int]. *)
Definition as_int (v : pyval) : option Z :=
  match v with
  | VInt z => Some z
  | VBool true => Some 1
  | VBool false => Some 0
  | _ => None
  end.

(** [l[i]] on a list, with Python's negative indices. *)
Definition list_getitem {A} (l : list A) (i : Z) : result A :=
  let n := Z.of_nat (length l) in
  let j := if i <? 0 then i + n else i in
  if (0 <=? j) && (j <? n)
  then match l !! Z.to_nat j with Some x => Ok x | None => Raise IndexError end
  else Raise IndexError.

(** An insertion-ordered [dict] with [str] keys. *)
Definition pydict (V : Type) : Type := list (pystr * V).

Fixpoint dict_get {V} (d : pydict V) (k : pystr) : option V :=
  match d with
  | [] => None
  | (k', v) :: d' => if bool_decide (k' = k) then Some v else dict_get d' k
  end.

(** [d[k] = v]: an existing key keeps its place, a new one goes last. *)
Fixpoint dict_set {V} (d : pydict V) (k : pystr) (v : V) : pydict V :=
  match d with
  | [] => [(k, v)]
  | (k', v') :: d' =>
      if bool_decide (k' = k) then (k', v) :: d' else (k', v') :: dict_set d' k v
  end.

(* ===================================================================== *)
(** ** Strings *)
(* ===================================================================== *)

Definition chr_space : char := 32%N.
Definition chr_newline : char := 10%N.
Definition chr_nbsp : char := 160%N.

(** [str.isspace] on one code point; also what [\s] matches in a [str]
    pattern and what [str.strip()] removes. *)
Definition is_space (c : char) : bool :=
  ((9 <=? c) && (c <=? 13) || (28 <=? c) && (c <=? 32) ||
   (c =? 133) || (c =? 160) || (c =? 5760) ||
   (8192 <=? c) && (c <=? 8202) || (c =? 8232) || (c =? 8233) ||
   (c =? 8239) || (c =? 8287) || (c =? 12288))%N.

Fixpoint drop_while {A} (p : A → bool) (l : list A) : list A :=
  match l with
  | [] => []
  | x :: l' => if p x then drop_while p l' else l
  end.

Fixpoint take_while {A} (p : A → bool) (l : list A) : list A :=
  match l with
  | [] => []
  | x :: l' => if p x then x :: take_while p l' else []
  end.

(** [s.strip(chars)], with the set of characters as a predicate. *)
Definition strip_by (p : char → bool) (s : pystr) : pystr :=
  reverse (drop_while p (reverse (drop_while p s))).

(** [s.strip()] *)
Definition strip (s : pystr) : pystr := strip_by is_space s.

(** [isinstance(x, str) and x.strip()] as a truth value. *)
Definition nonblank (s : pystr) : bool :=
  match strip s with [] => false | _ => true end.

(** [s.replace("\xa0", " ")] *)
Definition replace_nbsp (s : pystr) : pystr :=
  (λ c, if (c =? chr_nbsp)%N then chr_space else c) <$> s.

(** [re.sub(r"\s+", " ", s)]: every maximal run of whitespace becomes one
    space ([in_run]: the previous character was whitespace). *)
Fixpoint collapse_ws_from (in_run : bool) (s : pystr) : pystr :=
  match s with
  | [] => []
  | c :: s' =>
      if is_space c then
        if in_run then collapse_ws_from true s'
        else chr_space :: collapse_ws_from true s'
      else c :: collapse_ws_from false s'
  end.

Definition collapse_ws (s : pystr) : pystr := collapse_ws_from false s.

(** [a in b] on strings, and [s.startswith(p)]. *)
Fixpoint starts_with (p s : pystr) : bool :=
  match p, s with
  | [], _ => true
  | _ :: _, [] => false
  | a :: p', b :: s' => (a =? b)%N && starts_with p' s'
  end.

Fixpoint str_in (a b : pystr) : bool :=
  starts_with a b ||
  match b with
  | [] => false
  | _ :: b' => str_in a b'
  end.

(** [sep.join(parts)] *)
Fixpoint str_join (sep : pystr) (parts : list pystr) : pystr :=
  match parts with
  | [] => []
  | [p] => p
  | p :: ps => p ++ sep ++ str_join sep ps
  end.

(** [str(n)] for an [int]. *)
Definition str_of_int (z : Z) : pystr :=
  py (NilEmpty.string_of_int (Z.to_int z)).

(* ===================================================================== *)
(** ** The interpreter and its library *)
(* ===================================================================== *)

(** What the code takes from CPython and its standard library without the
    repository defining it: the Unicode tables behind [str.lower],
    [str.isdigit] and [int], the limit on the digits [int] converts
    ([sys.get_int_max_str_digits()], 0 for none), [json.loads] ([None] when
    it raises), [str] on an arbitrary value and [html.unescape]. *)
Class Runtime : Type := {
  str_lower : pystr → pystr;
  chr_isdigit : char → bool;
  chr_decimal : char → option N;
  int_max_str_digits : nat;
  json_loads : pystr → option pyval;
  py_str : pyval → pystr;
  html_unescape : pystr → pystr;
}.

Definition is_ascii (c : char) : bool := (c <? 128)%N.

Definition ascii_lower (c : char) : char :=
  if ((65 <=? c) && (c <=? 90))%N then (c + 32)%N else c.

Definition ascii_isdigit (c : char) : bool := ((48 <=? c) && (c <=? 57))%N.

Definition ascii_decimal (c : char) : option N :=
  if ascii_isdigit c then Some (c - 48)%N else None.

(** [json.loads] skips these before the first token. *)
Definition is_json_ws (c : char) : bool :=
  ((c =? 32) || (c =? 9) || (c =? 10) || (c =? 13))%N.

(** The facts about the library the proofs rest on. *)
Class RuntimeLaws (R : Runtime) : Prop := {
  str_lower_ascii : ∀ s, forallb is_ascii s = true → str_lower s = ascii_lower <$> s;
  chr_isdigit_ascii : ∀ c, is_ascii c = true → chr_isdigit c = ascii_isdigit c;
  chr_decimal_ascii : ∀ c, is_ascii c = true → chr_decimal c = ascii_decimal c;
  int_max_str_digits_range : int_max_str_digits = 0%nat ∨ (640 ≤ int_max_str_digits)%nat;
  json_loads_list : ∀ s l, json_loads s = Some (VList l) →
    ∃ rest, drop_while is_json_ws s = 91%N :: rest;
  py_str_str : ∀ s, py_str (VStr s) = s;
  html_unescape_plain : ∀ s, 38%N ∉ s → html_unescape s = s;
}.

(* ===================================================================== *)
(** ** main_gemini.py / main_groq.py: matching an answer to the options *)
(* ===================================================================== *)

Section Reconciler.
Context `{R : Runtime}.

(** [_norm]: [s.strip().lower().replace(NBSP, SPACE)], then [_ws.sub]
    with [_ws] the pattern [\s+] (the argument is a [str], so [s or ...] is
    [s]). *)
Definition _norm (s : pystr) : pystr :=
  collapse_ws (replace_nbsp (str_lower (strip s))).

(** [s.isdigit()] *)
Definition isdigit (s : pystr) : bool :=
  match s with
  | [] => false
  | _ => forallb chr_isdigit s
  end.

(** [int(s)] for a string of digits: every character has to be a decimal
    digit, and the string no longer than the interpreter converts. *)
Definition int_of_str (s : pystr) : result Z :=
  if bool_decide (s = []) then Raise ValueError_int_literal
  else if negb (int_max_str_digits =? 0)%nat && (int_max_str_digits <? length s)%nat
  then Raise ValueError_int_literal
  else match mapM chr_decimal s with
       | Some ds => Ok (fold_left (λ acc d, 10 * acc + Z.of_N d) ds 0)
       | None => Raise ValueError_int_literal
       end.

(** The first index whose element satisfies [p]. *)
Fixpoint find_index {A} (p : A → bool) (l : list A) : option nat :=
  match l with
  | [] => None
  | x :: l' => if p x then Some 0%nat else S <$> find_index p l'
  end.

(** [[i for i, x in enumerate(l) if p x]] *)
Fixpoint indices_from {A} (p : A → bool) (i : nat) (l : list A) : list nat :=
  match l with
  | [] => []
  | x :: l' => if p x then i :: indices_from p (S i) l' else indices_from p (S i) l'
  end.

(** [for i, no in enumerate(norm_opts): if ans == no: return options[i]];
    [None] when the loop ends without returning. *)
Definition exact_match (ans : pystr) (norm_opts options : list pystr)
  : result (option pystr) :=
  match find_index (λ no, bool_decide (ans = no)) norm_opts with
  | Some i => o <- list_getitem options (Z.of_nat i); Ok (Some o)
  | None => Ok None
  end.

(** The pattern [[:\-–]\s*(.+)$] (the third separator is U+2013). *)
Definition is_label_sep (c : char) : bool :=
  ((c =? 58) || (c =? 45) || (c =? 8211))%N.

(** [$]: the end of the string, or just before a newline that ends it. *)
Definition at_eol (t : pystr) : bool :=
  match t with
  | [] => true
  | [c] => (c =? chr_newline)%N
  | _ => false
  end.

Fixpoint first_some {A B} (f : A → option B) (l : list A) : option B :=
  match l with
  | [] => None
  | x :: l' => match f x with Some y => Some y | None => first_some f l' end
  end.

(** [(.+)$] at the start of [t]: the longest run without a newline first,
    then shorter ones; the group on success. *)
Definition match_dot_plus_eol (t : pystr) : option pystr :=
  let run := length (take_while (λ c, negb (c =? chr_newline)%N) t) in
  first_some (λ j, if at_eol (drop j t) then Some (take j t) else None)
             (reverse (seq 1 run)).

(** [\s*(.+)$] at the start of [t]: the longest run of whitespace first. *)
Definition match_group_tail (t : pystr) : option pystr :=
  let w := length (take_while is_space t) in
  first_some (λ k, match_dot_plus_eol (drop k t)) (reverse (seq 0 (S w))).

(** [re.search(r"[:\-–]\s*(.+)$", s)]: the leftmost position where the
    pattern matches; [m.group(1)] on success. *)
Fixpoint re_search_label (s : pystr) : option pystr :=
  match s with
  | [] => None
  | c :: rest =>
      match (if is_label_sep c then match_group_tail rest else None) with
      | Some g => Some g
      | None => re_search_label rest
      end
  end.

(** The characters the second [strip] of [ans2] removes: the two ASCII
    quotes and the guillemets U+00AB, U+00BB. *)
Definition is_quote (c : char) : bool :=
  ((c =? 34) || (c =? 39) || (c =? 171) || (c =? 187))%N.

(** The last three lines of [pick_single_option]:
    [hits = [i for i, no in enumerate(norm_opts) if ans in no or no in ans]]. *)
Definition containment_hits (ans : pystr) (norm_opts : list pystr) : list nat :=
  indices_from (λ no, str_in ans no || str_in no ans) 0 norm_opts.

Definition containment (ans : pystr) (norm_opts options : list pystr)
  : result (option pystr) :=
  match containment_hits ans norm_opts with
  | [i] => o <- list_getitem options (Z.of_nat i); Ok (Some o)
  | _ => Ok None
  end.

(** [if ans.isdigit(): k = int(ans); if 1 <= k <= len(options): return
    options[k - 1]]; [None] when control goes on. *)
Definition ordinal (ans : pystr) (options : list pystr) : result (option pystr) :=
  if isdigit ans then
    k <- int_of_str ans;
    if (1 <=? k) && (k <=? Z.of_nat (length options))
    then o <- list_getitem options (k - 1); Ok (Some o)
    else Ok None
  else Ok None.

Definition pick_single_option (answer_text : pystr) (options : list pystr)
  : result (option pystr) :=
  match options with
  | [] => Ok None
  | _ =>
    let norm_opts := _norm <$> options in
    let ans := _norm answer_text in
    r <- ordinal ans options;
    match r with
    | Some o => Ok (Some o)
    | None =>
      r <- exact_match ans norm_opts options;
      match r with
      | Some o => Ok (Some o)
      | None =>
        match re_search_label ans with
        | Some g =>
            let ans2 := strip_by is_quote (strip g) in
            r <- exact_match ans2 norm_opts options;
            match r with
            | Some o => Ok (Some o)
            | None => containment ans2 norm_opts options
            end
        | None => containment ans norm_opts options
        end
      end
    end
  end.

(** [re.split(r"[,;/\n]+", s)] *)
Definition is_delim (c : char) : bool :=
  ((c =? 44) || (c =? 59) || (c =? 47) || (c =? 10))%N.

Fixpoint re_split_delims (in_run : bool) (s : pystr) : list pystr :=
  match s with
  | [] => [[]]
  | c :: s' =>
      if is_delim c then
        if in_run then re_split_delims true s' else [] :: re_split_delims true s'
      else
        match re_split_delims false s' with
        | p :: ps => (c :: p) :: ps
        | [] => [[c]]
        end
  end.

(** [[p.strip() for p in pieces if p.strip()]] *)
Definition parts_of (pieces : list pystr) : list pystr :=
  strip <$> List.filter nonblank pieces.

(** [[p.strip() for p in re.split(...) if p.strip()]] *)
Definition split_parts (ans : pystr) : list pystr :=
  parts_of (re_split_delims false ans).

(** The loop shared by both branches of [pick_multi_options]:
    [match = pick_single_option(p, options); if match and match not in
    picked: picked.append(match)]. *)
Fixpoint pick_loop (parts : list pystr) (options picked : list pystr)
  : result (list pystr) :=
  match parts with
  | [] => Ok picked
  | p :: parts' =>
      m <- pick_single_option p options;
      match m with
      | Some (c :: o) =>
          if bool_decide (c :: o ∈ picked) then pick_loop parts' options picked
          else pick_loop parts' options (picked ++ [c :: o])
      | _ => pick_loop parts' options picked
      end
  end.

(** [picked or None] *)
Definition or_none (picked : list pystr) : option (list pystr) :=
  match picked with [] => None | _ => Some picked end.

Definition pick_multi_split (ans : pystr) (options : list pystr)
  : result (option (list pystr)) :=
  match split_parts ans with
  | [] => Ok None
  | parts => picked <- pick_loop parts options []; Ok (or_none picked)
  end.

Definition pick_multi_options (answer_text : pystr) (options : list pystr)
  : result (option (list pystr)) :=
  match options with
  | [] => Ok None
  | _ =>
    let ans := strip answer_text in
    match json_loads ans with
    | Some (VList val) =>
        match pick_loop (py_str <$> val) options [] with
        | Ok picked => Ok (or_none picked)
        | Raise _ => pick_multi_split ans options   (* except Exception: pass *)
        end
    | _ => pick_multi_split ans options
    end
  end.

End Reconciler.

(* ===================================================================== *)
(** ** form_answer_builder.py *)
(* ===================================================================== *)

(** One element of [parsed["questions"]], with the keys [GFormParser.parse]
    writes.  An absent key is [None] ([false] for [other_allowed], which is
    only ever written as [True]). *)
Record Question : Type := {
  q_text : pystr;
  q_type : pystr;
  q_required : option bool;
  q_choices_or_rows : option (list pystr);
  q_columns : option (list pystr);
  q_entry_id : option pystr;
  q_other_allowed : bool;
  q_other_value : option pystr;
  q_other_response_key : option pystr;
}.

(** The truth value of an optional string ([if eid:]). *)
Definition truthy (s : option pystr) : bool :=
  match s with
  | Some (_ :: _) => true
  | _ => false
  end.

(** [q.get("choices_or_rows") or []] *)
Definition choices_of (q : Question) : list pystr :=
  default [] (q_choices_or_rows q).

Definition OTHER_OPTION : pystr := py "__other_option__".
Definition KEY_OTHER : pystr := py "__other__".
Definition KEY_SELECTED : pystr := py "__selected__".

(** The state of a [FormAnswerBuilder]: [strict], [action], [fbzx],
    [q_by_id] and [answers] (insertion-ordered). *)
Record Builder : Type := {
  strict : bool;
  action : pystr;
  fbzx : pystr;
  q_by_id : gmap pystr Question;
  answers : pydict pyval;
}.

Definition with_answer (b : Builder) (eid : pystr) (v : pyval) : Builder :=
  {| strict := strict b; action := action b; fbzx := fbzx b;
     q_by_id := q_by_id b; answers := dict_set (answers b) eid v |}.

(** The loop of [__init__]: [if eid: self.q_by_id[str(eid)] = q]. *)
Definition index_questions (qs : list Question) : gmap pystr Question :=
  fold_left (λ m q,
    match q_entry_id q with
    | Some (c :: e) => <[c :: e := q]> m
    | _ => m
    end) qs ∅.

(** [FormAnswerBuilder(parsed, strict)], from the fields of [parsed] it
    reads. *)
Definition new_builder (meta_action meta_fbzx : pystr) (qs : list Question)
    (strict_mode : bool) : Builder :=
  {| strict := strict_mode; action := meta_action; fbzx := meta_fbzx;
     q_by_id := index_questions qs; answers := [] |}.

Section Builder.
Context `{R : Runtime}.

(** [set_answer]: the builder after the call and what the call did
    ([Ok ()] for a return, [Raise] for an exception). *)
Definition set_answer (b : Builder) (entry_id : pystr) (value : pyval)
  : Builder * result unit :=
  match q_by_id b !! entry_id with
  | None =>
      if strict b then (b, Raise (ValueError_unknown_entry entry_id))
      else (b, Ok ())
  | Some q =>
    let qtype := str_lower (q_type q) in
    let choices := choices_of q in
    let other_allowed := q_other_allowed q in
    let other_record :=
      match value with
      | VDict d =>
          match dict_get d KEY_OTHER with
          | Some o =>
              Some (match dict_get d KEY_SELECTED with
                    | Some (VList sel) =>
                        VDict [(KEY_OTHER, VStr (py_str o));
                               (KEY_SELECTED, VList ((λ x, VStr (py_str x)) <$> sel))]
                    | _ => VDict [(KEY_OTHER, VStr (py_str o))]
                    end)
          | None => None
          end
      | _ => None
      end in
    match other_record with
    | Some rec => (with_answer b entry_id rec, Ok ())
    | None =>
      if bool_decide (qtype ∈ [py "multiple_choice"; py "dropdown"; py "choice"]) then
        match value with
        | VStr s =>
            if bool_decide (s ∈ choices) then (with_answer b entry_id (VStr s), Ok ())
            else if other_allowed
            then (with_answer b entry_id (VDict [(KEY_OTHER, VStr s)]), Ok ())
            else if strict b then (b, Raise (ValueError_invalid_option entry_id))
            else (b, Ok ())
        | _ =>
            if strict b then (b, Raise (ValueError_invalid_option entry_id))
            else (b, Ok ())
        end
      else if bool_decide (qtype = py "checkboxes") then
        let vals := match value with VList l => l | _ => [value] end in
        let vals := py_str <$> List.filter (λ v, match v with VNone => false | _ => true end) vals in
        let selected := List.filter (λ v, bool_decide (v ∈ choices)) vals in
        let others := List.filter (λ v, negb (bool_decide (v ∈ choices))) vals in
        match others with
        | [] => (with_answer b entry_id (VList (VStr <$> selected)), Ok ())
        | _ =>
            if other_allowed then
              let ans := [(KEY_OTHER, VStr (str_join (py "; ") others))] in
              let ans := match selected with
                         | [] => ans
                         | _ => ans ++ [(KEY_SELECTED, VList (VStr <$> selected))]
                         end in
              (with_answer b entry_id (VDict ans), Ok ())
            else if strict b then (b, Raise (ValueError_invalid_option entry_id))
            else (with_answer b entry_id (VList (VStr <$> selected)), Ok ())
        end
      else (with_answer b entry_id (VStr (py_str value)), Ok ())
    end
  end.

(** The pairs one pass of the loop of [build_pairs] appends, for the stored
    answer [val] of [eid]. *)
Definition entry_pairs (b : Builder) (eid : pystr) (val : pyval)
  : list (pystr * pystr) :=
  let q := q_by_id b !! eid in
  let key := py "entry." ++ eid in
  let other_key :=
    match q ≫= q_other_response_key with
    | Some (c :: k) => c :: k
    | _ => key ++ py ".other_option_response"
    end in
  let other_value_flag := default OTHER_OPTION (q ≫= q_other_value) in
  let qtype := str_lower (default [] (q_type <$> q)) in
  let plain := [(key, py_str val)] in
  match val with
  | VDict d =>
      match dict_get d KEY_OTHER with
      | Some o =>
          (key, other_value_flag) :: (other_key, py_str o) ::
          match dict_get d KEY_SELECTED with
          | Some (VList sel) => (λ s, (key, py_str s)) <$> sel
          | _ => []
          end
      | None => plain
      end
  | VList items =>
      if bool_decide (qtype = py "checkboxes")
      then (λ item, (key, py_str item)) <$> items
      else plain
  | _ => plain
  end.

Definition build_pairs (b : Builder) : pystr * list (pystr * pystr) :=
  (action b,
   (match fbzx b with [] => [] | _ => [(py "fbzx", fbzx b)] end) ++
   concat ((λ '(eid, val), entry_pairs b eid val) <$> answers b)).

End Builder.

(* ===================================================================== *)
(** ** parser.py *)
(* ===================================================================== *)

(** What [_extract_form_meta] hands to [parse]. *)
Record Meta : Type := {
  m_action : pystr;
  m_fbzx : pystr;
  m_entry_ids : list pystr;
  m_label_to_entry : pydict pystr;
}.

(** The dictionary [parse] returns ([questions_count] is the length of
    [questions]; [note] is a constant text). *)
Record FormModel : Type := {
  fm_title : option pystr;
  fm_description : option pystr;
  fm_questions : list Question;
  fm_action : pystr;
  fm_fbzx : pystr;
  fm_entry_ids : list pystr;
  fm_label_map_size : nat;
}.

Definition TYPE_MAP (t : Z) : option pystr :=
  match t with
  | 0 => Some (py "short_answer")
  | 1 => Some (py "paragraph")
  | 2 => Some (py "multiple_choice")
  | 3 => Some (py "dropdown")
  | 4 => Some (py "checkboxes")
  | 5 => Some (py "linear_scale")
  | 7 => Some (py "date")
  | 8 => Some (py "time")
  | _ => None
  end.

(** [_dig]: [cur[p]] is reached only past the guard. *)
Fixpoint _dig (x : pyval) (path : list Z) : result pyval :=
  match path with
  | [] => Ok x
  | p :: path' =>
      match x with
      | VList l =>
          if (p <? 0) || (Z.of_nat (length l) <=? p) then Ok VNone
          else cur <- list_getitem l p; _dig cur path'
      | _ => Ok VNone
      end
  end.

(** [_walk_lists]: the nodes the generator yields, in order. *)
Fixpoint _walk_lists (x : pyval) : list (list pyval) :=
  match x with
  | VList l => l :: concat (_walk_lists <$> l)
  | _ => []
  end.

Definition is_list (v : pyval) : bool :=
  match v with VList _ => true | _ => false end.

(** [isinstance(v, str) and v.strip()] *)
Definition nonblank_str (v : pyval) : option pystr :=
  match v with
  | VStr s => if nonblank s then Some s else None
  | _ => None
  end.

(** The search [parse] runs for a title and for a question text: the first
    node of the walk with a non-blank string among its elements, and the
    first such element. *)
Definition first_nonblank (x : pyval) : option pystr :=
  first_some (first_some nonblank_str) (_walk_lists x).

(** The [if] / [elif] of the two loops that read options out of a node. *)
Definition option_text (ch : pyval) : option pystr :=
  match ch with
  | VList (VStr s :: _) => Some s
  | VList (_ :: VStr s :: _) => Some s
  | _ => None
  end.

(** The list either loop builds, from the children of a node. *)
Definition option_texts (chs : list pyval) : list pystr := omap option_text chs.

(** [isinstance(n, list) and n and all(isinstance(x, list) for x in n)] *)
Definition list_of_lists (v : pyval) : option (list pyval) :=
  match v with
  | VList (x :: l) => if forallb is_list (x :: l) then Some (x :: l) else None
  | _ => None
  end.

(** [l or None] *)
Definition nonempty {A} (l : list A) : option (list A) :=
  match l with [] => None | _ => Some l end.

Section Parser.
Context `{R : Runtime}.

(** [_normalize] *)
Definition _normalize (s : pystr) : pystr :=
  str_lower (strip (collapse_ws (replace_nbsp s))).

(** [any(isinstance(x, str) and x.strip() for x in v)] for a list [v]. *)
Definition string_bearing (v : pyval) : bool :=
  match v with
  | VList l => existsb (λ x, bool_decide (is_Some (nonblank_str x))) l
  | _ => false
  end.

(** [sum(1 for v in node if isinstance(v, list) and any(...))] *)
Definition str_count (node : list pyval) : nat :=
  length (List.filter string_bearing node).

(** [str_count >= max(2, len(node)//3)] *)
Definition qualifies (node : list pyval) : bool :=
  (Nat.max 2 (length node / 3) <=? str_count node)%nat.

(** One pass of the loop of [_guess_items_root]. *)
Definition better_root (best node : list pyval) : list pyval :=
  match node with
  | [] => best
  | _ => if qualifies node && (length best <? length node)%nat then node else best
  end.

Definition _guess_items_root (data : pyval) : result (list pyval) :=
  candidate <- _dig data [1; 1];
  match candidate with
  | VList (x :: l) => Ok (x :: l)
  | _ =>
      match fold_left better_root (_walk_lists data) [] with
      | [] => Raise RuntimeError_no_items_root
      | best => Ok best
      end
  end.

(** One pass of the fallback loop of [_extract_choices]. *)
Definition better_choices (best : option (list pyval)) (node : list pyval)
  : option (list pyval) :=
  match list_of_lists (VList node) with
  | Some (sample :: _) =>
      if string_bearing sample then
        match best with
        | None => Some node
        | Some b => if (length b <? length node)%nat then Some node else best
        end
      else best
  | _ => best
  end.

Definition _extract_choices (item : pyval)
  : result (option (list pystr) * option (list pystr)) :=
  node <- _dig item [4; 0; 1];
  match list_of_lists node with
  | Some chs =>
      let choices := option_texts chs in
      cols_node <- _dig item [4; 0; 2];
      let cols : option (list pystr) := option_texts <$> list_of_lists cols_node in
      Ok (nonempty choices, cols)
  | None =>
      match fold_left better_choices (_walk_lists item) None with
      | Some best_list => Ok (nonempty (option_texts best_list), None)
      | None => Ok (None, None)
      end
  end.

Definition as_bool (v : pyval) : option bool :=
  match v with VBool b => Some b | _ => None end.

Definition _is_required (item : pyval) : result (option bool) :=
  node <- _dig item [4; 0];
  let shallow :=
    match node with
    | VList l =>
        first_some (λ v,
          match v with
          | VBool b => Some b
          | VList l2 => first_some as_bool (reverse l2)
          | _ => None
          end) (reverse l)
    | _ => None
    end in
  match shallow with
  | Some b => Ok (Some b)
  | None => Ok (first_some (first_some as_bool) (_walk_lists item))
  end.

Definition _question_type (item : pyval) : result pystr :=
  t <- _dig item [3];
  match as_int t ≫= TYPE_MAP with
  | Some name => Ok name
  | None =>
      '(choices, cols) <- _extract_choices item;
      match choices, cols with
      | Some _, Some (_ :: _) => Ok (py "grid")
      | Some _, _ => Ok (py "choice")
      | None, _ => Ok (py "text")
      end
  end.

(** [isinstance(v, int) and v >= 10_000], then [str(v)]. *)
Definition as_entry_id (v : pyval) : option pystr :=
  match as_int v with
  | Some z => if 10000 <=? z then Some (str_of_int z) else None
  | None => None
  end.

Fixpoint entry_id_at_paths (item : pyval) (paths : list (list Z))
  : result (option pystr) :=
  match paths with
  | [] => Ok None
  | path :: paths' =>
      v <- _dig item path;
      match as_entry_id v with
      | Some s => Ok (Some s)
      | None =>
          match (match v with VList l => first_some as_entry_id l | _ => None end) with
          | Some s => Ok (Some s)
          | None => entry_id_at_paths item paths'
          end
      end
  end.

(** One pass of the last loop of [_extract_entry_id_from_item_fb]. *)
Definition longer_id (best : option pystr) (val : pyval) : option pystr :=
  match as_entry_id val with
  | Some s =>
      match best with
      | None => Some s
      | Some b => if (length b <? length s)%nat then Some s else best
      end
  | None => best
  end.

Definition _extract_entry_id_from_item_fb (item : pyval) : result (option pystr) :=
  r <- entry_id_at_paths item [[4; 0; 0]; [4; 0; 3; 0]; [4; 0; 0; 0]; [0]];
  match r with
  | Some s => Ok (Some s)
  | None => Ok (fold_left longer_id (concat (_walk_lists item)) None)
  end.

(** [match_entry_by_label], the closure of [parse]. *)
Definition match_entry_by_label (label_map : pydict pystr) (qtext : pystr)
  : option pystr :=
  let key := _normalize qtext in
  match dict_get label_map key with
  | Some eid => Some eid
  | None =>
      snd <$> List.find (λ '(k, _),
        starts_with k key || starts_with key k || str_in key k || str_in k key)
        label_map
  end.

(** The text of an item: the two fixed places, then the search. *)
Definition item_text (it : pyval) : result (option pystr) :=
  a <- _dig it [1];
  match nonblank_str a with
  | Some s => Ok (Some (strip s))
  | None =>
      b <- _dig it [0; 1];
      match nonblank_str b with
      | Some s => Ok (Some (strip s))
      | None => Ok (strip <$> first_nonblank it)
      end
  end.

Definition is_blank_option (c : pystr) : bool := negb (nonblank c).

Definition choice_like (t : pystr) : bool :=
  bool_decide (t ∈ [py "multiple_choice"; py "dropdown"; py "checkboxes"; py "choice"]).

(** The block of [parse] that turns a blank option into the free answer,
    for the question [q] built so far and its entry id [eid]. *)
Definition mark_other (q : Question) (eid : option pystr) : Question :=
  let choices := choices_of q in
  if choice_like (q_type q) && existsb is_blank_option choices then
    {| q_text := q_text q; q_type := q_type q; q_required := q_required q;
       q_choices_or_rows := Some (List.filter (λ c, negb (is_blank_option c)) choices);
       q_columns := q_columns q;
       q_entry_id := q_entry_id q;
       q_other_allowed := true;
       q_other_value := Some OTHER_OPTION;
       q_other_response_key :=
         if truthy eid
         then Some (py "entry." ++ default [] eid ++ py ".other_option_response")
         else q_other_response_key q |}
  else q.

(** The body of the loop of [parse] for one item: the next value of
    [eid_idx], and the question the pass appends, if any. *)
Definition parse_item (meta : Meta) (eid_idx : nat) (it : pyval)
  : result (nat * option Question) :=
  if negb (is_list it) then Ok (eid_idx, None) else
  text <- item_text it;
  match text with
  | None | Some [] => Ok (eid_idx, None)
  | Some text =>
      qtype <- _question_type it;
      required <- _is_required it;
      '(choices, cols) <- _extract_choices it;
      let qtext := html_unescape text in
      let '(eid, eid_idx') :=
        match m_entry_ids meta !! eid_idx with
        | Some e => (Some e, S eid_idx)
        | None => (None, eid_idx)
        end in
      let eid := if truthy eid then eid else match_entry_by_label (m_label_to_entry meta) qtext in
      eid <- (if truthy eid then Ok eid else _extract_entry_id_from_item_fb it);
      let q := {| q_text := qtext; q_type := qtype; q_required := required;
                  q_choices_or_rows := choices;
                  q_columns := match cols with Some (c :: l) => Some (c :: l) | _ => None end;
                  q_entry_id := eid;
                  q_other_allowed := false;
                  q_other_value := None;
                  q_other_response_key := None |} in
      Ok (eid_idx', Some (mark_other q eid))
  end.

Fixpoint parse_items (meta : Meta) (eid_idx : nat) (items : list pyval)
  : result (list Question) :=
  match items with
  | [] => Ok []
  | it :: items' =>
      '(eid_idx', q) <- parse_item meta eid_idx it;
      qs <- parse_items meta eid_idx' items';
      Ok (match q with Some q => q :: qs | None => qs end)
  end.

Definition as_str (v : pyval) : option pystr :=
  match v with VStr s => Some s | _ => None end.

(** [parse], from the values its first three lines obtain from the page:
    [meta] and [data]. *)
Definition parse (meta : Meta) (data : pyval) : result FormModel :=
  t <- _dig data [1; 8];
  let title :=
    match as_str t with
    | Some (c :: s) => Some (c :: s)
    | other =>
        match first_nonblank data with
        | Some s => Some s
        | None => other
        end
    end in
  d <- _dig data [1; 0];
  let description := as_str d in
  items_raw <- _guess_items_root data;
  questions <- parse_items meta 0 items_raw;
  Ok {| fm_title := title; fm_description := description;
        fm_questions := questions;
        fm_action := m_action meta; fm_fbzx := m_fbzx meta;
        fm_entry_ids := m_entry_ids meta;
        fm_label_map_size := length (m_label_to_entry meta) |}.

End Parser.

(* ===================================================================== *)
(** ** The library on ASCII text *)
(* ===================================================================== *)

(** [repr] and [str] for values whose strings are printable ASCII without
    quotes or backslashes (the quoting rules of [repr] are left out). *)
Fixpoint ascii_repr (v : pyval) : pystr :=
  match v with
  | VNone => py "None"
  | VBool true => py "True"
  | VBool false => py "False"
  | VInt z => str_of_int z
  | VFloat r => r
  | VStr s => py "'" ++ s ++ py "'"
  | VList l => py "[" ++ str_join (py ", ") (ascii_repr <$> l) ++ py "]"
  | VDict d =>
      py "{" ++
      str_join (py ", ")
        ((λ kv, match kv with (k, x) => py "'" ++ k ++ py "': " ++ ascii_repr x end) <$> d)
      ++ py "}"
  end.

Definition ascii_str (v : pyval) : pystr :=
  match v with
  | VStr s => s
  | _ => ascii_repr v
  end.

(** The library as it behaves on ASCII text that is neither a JSON document
    nor carries a character reference: the instance the concrete runs
    below are evaluated with. *)
Definition ascii_runtime : Runtime := {|
  str_lower := fmap ascii_lower;
  chr_isdigit := ascii_isdigit;
  chr_decimal := ascii_decimal;
  int_max_str_digits := 4300;
  json_loads := λ _, None;
  py_str := ascii_str;
  html_unescape := λ s, s;
|}.

(** A piece of text short enough for [int] and all ASCII: the laws decide
    what the reconciler does with it. *)
Definition plain_piece (p : pystr) : bool :=
  forallb is_ascii p && (length (_norm (R:=ascii_runtime) p) <=? 640)%nat.

(* ===================================================================== *)
(** ** Notions the statements use *)
(* ===================================================================== *)

(** A question as the loop of [parse] has it before the block on the free
    answer: none of the three keys of that block is set. *)
Definition unmarked (q : Question) : Prop :=
  q_other_allowed q = false ∧ q_other_value q = None ∧ q_other_response_key q = None.

(** [raw] is such a question for the item [it]: its type and its options
    are those [_question_type] and [_extract_choices] read from the item. *)
Definition built_from (it : pyval) (raw : Question) : Prop :=
  unmarked raw ∧
  _question_type it = Ok (q_type raw) ∧
  ∃ cols, _extract_choices it = Ok (q_choices_or_rows raw, cols).

(** The number a string of ASCII digits writes in base ten. *)
Definition decimal_value (s : pystr) : Z :=
  fold_left (λ acc c, 10 * acc + (Z.of_N c - 48)) s 0.

Section Notions.
Context `{R : Runtime}.

(** Whether the option at index [i] is a candidate of the containment
    step for the text [ans]. *)
Definition candidate (ans : pystr) (options : list pystr) (i : nat) : Prop :=
  ∃ o, options !! i = Some o ∧
       (str_in ans (_norm o) || str_in (_norm o) ans) = true.

(** The text the containment step works on: the remainder after the
    label when the pattern matched, the normalized answer otherwise. *)
Definition fallback_text (ans : pystr) : pystr :=
  match re_search_label ans with
  | Some g => strip_by is_quote (strip g)
  | None => ans
  end.

(** The specification's step (e) of resolveSingle, in its words: the
    separators are the colon, the hyphen and the dash U+2014, and the text
    is split at the last of them. *)
Definition spec_is_separator (c : char) : bool :=
  ((c =? 58) || (c =? 45) || (c =? 8212))%N.

Fixpoint spec_after_last_separator (s : pystr) : option pystr :=
  match s with
  | [] => None
  | c :: rest =>
      match spec_after_last_separator rest with
      | Some r => Some r
      | None => if spec_is_separator c then Some rest else None
      end
  end.

(** resolveSingle as the specification words it: steps (a) to (d) and (f)
    as in the code, step (e) with the split above. *)
Definition spec_resolveSingle (text : pystr) (options : list pystr)
  : result (option pystr) :=
  match options with
  | [] => Ok None
  | _ =>
    let norm_opts := _norm <$> options in
    let ans := _norm text in
    r <- ordinal ans options;
    match r with
    | Some o => Ok (Some o)
    | None =>
      r <- exact_match ans norm_opts options;
      match r with
      | Some o => Ok (Some o)
      | None =>
        match spec_after_last_separator ans with
        | Some rest =>
            let ans2 := strip_by is_quote (strip rest) in
            r <- exact_match ans2 norm_opts options;
            match r with
            | Some o => Ok (Some o)
            | None => containment ans2 norm_opts options
            end
        | None => containment ans norm_opts options
        end
      end
    end
  end.

End Notions.

(* ===================================================================== *)
(** ** resolveMultiple on text that is not a JSON array, in words *)
(* ===================================================================== *)

(** The pieces between the delimiters, every delimiter ending a piece. *)
Fixpoint split_on (p : char → bool) (s : pystr) : list pystr :=
  match s with
  | [] => [[]]
  | c :: s' =>
      if p c then [] :: split_on p s'
      else match split_on p s' with
           | q :: qs => (c :: q) :: qs
           | [] => [[c]]
           end
  end.

(** Split on comma, semicolon, slash and newline; trim each piece; drop
    the blank ones. *)
Definition spec_pieces (text : pystr) : list pystr :=
  List.filter (λ p, negb (bool_decide (p = []))) (strip <$> split_on is_delim text).

(** The first occurrence of every element, in order ([seen]: already
    listed). *)
Fixpoint dedup_seen (seen l : list pystr) : list pystr :=
  match l with
  | [] => []
  | x :: l' =>
      if bool_decide (x ∈ seen) then dedup_seen seen l'
      else x :: dedup_seen (seen ++ [x]) l'
  end.

Definition first_seen (l : list pystr) : list pystr := dedup_seen [] l.

(** A match that is kept: an option that is not the empty string. *)
Definition kept (r : option pystr) : option pystr :=
  match r with
  | Some (c :: o) => Some (c :: o)
  | _ => None
  end.

Section MultipleInWords.
Context `{R : Runtime}.

(** Resolve each piece on its own. *)
Fixpoint resolve_each (pieces options : list pystr) : result (list (option pystr)) :=
  match pieces with
  | [] => Ok []
  | p :: ps =>
      r <- pick_single_option p options;
      rs <- resolve_each ps options;
      Ok (r :: rs)
  end.

(** As the specification words it: unmatched pieces are dropped, the
    matches de-duplicated in first-seen order. *)
Definition spec_resolveMultiple_split (text : pystr) (options : list pystr)
  : result (option (list pystr)) :=
  match options with
  | [] => Ok None
  | _ =>
      rs <- resolve_each (spec_pieces text) options;
      Ok (or_none (first_seen (omap (λ r : option pystr, r) rs)))
  end.

(** As the code does it: a piece matched to the empty string is dropped
    like an unmatched one. *)
Definition resolveMultiple_split (text : pystr) (options : list pystr)
  : result (option (list pystr)) :=
  match options with
  | [] => Ok None
  | _ =>
      rs <- resolve_each (spec_pieces text) options;
      Ok (or_none (first_seen (omap kept rs)))
  end.

End MultipleInWords.

(* ===================================================================== *)
(** ** Sample data for the concrete runs *)
(* ===================================================================== *)

(** A checkboxes question with the options A and B and the free answer. *)
Definition sample_checkboxes : Question := {|
  q_text := py "Pick some";
  q_type := py "checkboxes";
  q_required := Some true;
  q_choices_or_rows := Some [py "A"; py "B"];
  q_columns := None;
  q_entry_id := Some (py "555");
  q_other_allowed := true;
  q_other_value := Some OTHER_OPTION;
  q_other_response_key := Some (py "entry.555.other_option_response");
|}.

(** A dropdown question with the options Yes and No, no free answer. *)
Definition sample_dropdown : Question := {|
  q_text := py "Agree?";
  q_type := py "dropdown";
  q_required := None;
  q_choices_or_rows := Some [py "Yes"; py "No"];
  q_columns := None;
  q_entry_id := Some (py "777");
  q_other_allowed := false;
  q_other_value := None;
  q_other_response_key := None;
|}.

Definition sample_builder (strict_mode : bool) : Builder :=
  new_builder (py "https://example.org/formResponse") (py "tok")
              [sample_checkboxes; sample_dropdown] strict_mode.

(** A document whose fixed path [1][1] holds two items: a linear scale
    (type code 5) and a multiple choice (type code 2), each with one blank
    option among its options. *)
Definition sample_scale_item : pyval :=
  VList [VInt 1001; VStr (py "Rate it"); VNone; VInt 5;
         VList [VList [VInt 12345;
                       VList [VList [VStr (py "")]; VList [VStr (py "1")];
                              VList [VStr (py "2")]];
                       VBool true]]].

Definition sample_choice_item : pyval :=
  VList [VInt 1002; VStr (py "Colour"); VNone; VInt 2;
         VList [VList [VInt 67890;
                       VList [VList [VStr (py "Red")]; VList [VStr (py "Green")];
                              VList [VStr (py " ")]];
                       VBool false]]].

Definition sample_document : pyval :=
  VList [VNone;
         VList [VStr (py "About"); VList [sample_scale_item; sample_choice_item]]].

Definition sample_meta : Meta := {|
  m_action := py "https://example.org/formResponse";
  m_fbzx := py "tok";
  m_entry_ids := [py "555"];
  m_label_to_entry := [];
|}.

(** A document without the fixed path: the items are found by the scan. *)
Definition sample_scan_items : list pyval :=
  [VList [VStr (py "Q1")]; VList [VStr (py "Q2")]; VList [VInt 3];
   VInt 4; VNone; VNone; VNone; VNone].

Definition sample_scan_document : pyval :=
  VList [VStr (py "form");
         VList [VList [VStr (py "a")]; VStr (py "x"); VList [VStr (py "b")]];
         VList sample_scan_items].

(** The two questions [parse] makes of the sample document. *)
Definition sample_unmarked_question : Question := {|
  q_text := py "Rate it";
  q_type := py "linear_scale";
  q_required := Some true;
  q_choices_or_rows := Some [py ""; py "1"; py "2"];
  q_columns := None;
  q_entry_id := Some (py "555");
  q_other_allowed := false;
  q_other_value := None;
  q_other_response_key := None;
|}.

Definition sample_marked_question : Question := {|
  q_text := py "Colour";
  q_type := py "multiple_choice";
  q_required := Some false;
  q_choices_or_rows := Some [py "Red"; py "Green"];
  q_columns := None;
  q_entry_id := Some (py "67890");
  q_other_allowed := true;
  q_other_value := Some OTHER_OPTION;
  q_other_response_key := Some (py "entry.67890.other_option_response");
|}.

(* ===================================================================== *)
(** ** Two more readings of the library, for concrete runs *)
(* ===================================================================== *)

(** The ASCII reading with one more entry of the Unicode tables:
    SUPERSCRIPT TWO (U+00B2) is a digit for [str.isdigit] and no decimal
    digit for [int]. *)
Definition superscript_runtime : Runtime := {|
  str_lower := fmap ascii_lower;
  chr_isdigit := λ c, ascii_isdigit c || (c =? 178)%N;
  chr_decimal := ascii_decimal;
  int_max_str_digits := 4300;
  json_loads := λ _, None;
  py_str := ascii_str;
  html_unescape := λ s, s;
|}.

(** The text of the JSON array of the strings C, x, A and C, a reply that
    wraps the JSON object with the answer B in a code fence, and the ASCII
    reading with what [json.loads] makes of the array and of the object. *)
Definition sample_json_text : pystr :=
  py "[" ++ [34%N] ++ py "C" ++ [34%N] ++ py ", " ++ [34%N] ++ py "x" ++ [34%N] ++
  py ", " ++ [34%N] ++ py "A" ++ [34%N] ++ py ", " ++ [34%N] ++ py "C" ++ [34%N] ++ py "]".

Definition sample_reply_object : pystr :=
  py "{" ++ [34%N] ++ py "answer" ++ [34%N] ++ py ": " ++ [34%N] ++ py "B" ++ [34%N] ++ py "}".

Definition sample_reply : pystr :=
  py "```json" ++ [10%N] ++ sample_reply_object ++ [10%N] ++ py "```".

Definition sample_json_runtime : Runtime := {|
  str_lower := fmap ascii_lower;
  chr_isdigit := ascii_isdigit;
  chr_decimal := ascii_decimal;
  int_max_str_digits := 4300;
  json_loads := λ s,
    if bool_decide (s = sample_json_text)
    then Some (VList [VStr (py "C"); VStr (py "x"); VStr (py "A"); VStr (py "C")])
    else if bool_decide (s = sample_reply_object)
    then Some (VDict [(py "answer", VStr (py "B"))])
    else None;
  py_str := ascii_str;
  html_unescape := λ s, s;
|}.

(* ===================================================================== *)
(** ** form_answer_builder.py: the shapes of a stored answer *)
(* ===================================================================== *)

(** The four shapes the comment in [__init__] lists for a value of
    [answers]: a [str], a list of [str], the record of a free answer, and
    that record with the options chosen beside it. *)
Inductive stored_answer : pyval → Prop :=
| stored_str (s : pystr) : stored_answer (VStr s)
| stored_list (ss : list pystr) : stored_answer (VList (VStr <$> ss))
| stored_other (s : pystr) : stored_answer (VDict [(KEY_OTHER, VStr s)])
| stored_other_selected (s : pystr) (ss : list pystr) :
    stored_answer (VDict [(KEY_OTHER, VStr s); (KEY_SELECTED, VList (VStr <$> ss))]).

(* ===================================================================== *)
(** ** qa_context.py: the cache of earlier questions and answers *)
(* ===================================================================== *)

(** [\s*] followed by [k], with the backtracking of the matcher. *)
Fixpoint re_ws_star (k : pystr → bool) (t : pystr) : bool :=
  match t with
  | c :: t' => (is_space c && re_ws_star k t') || k t
  | [] => k []
  end.

Module QACache.

(** The state of a [QACache]: the two limits read from the environment and
    [pairs], each pair with its keys [q] and [a].  The file behind
    [QA_CACHE_PATH] is left out: [_save] changes nothing of the state. *)
Record t : Type := {
  max_pairs : Z;
  max_chars : Z;
  pairs : list (pystr * pystr);
}.

Definition with_pairs (c : t) (ps : list (pystr * pystr)) : t :=
  {| max_pairs := max_pairs c; max_chars := max_chars c; pairs := ps |}.

(** [clear] *)
Definition clear (c : t) : t := with_pairs c [].

(** [_len_chars], of a list of pairs. *)
Definition _len_chars (ps : list (pystr * pystr)) : Z :=
  foldr (λ p acc, Z.of_nat (length p.1) + Z.of_nat (length p.2) + 6 + acc) 0 ps.

(** [while len(self.pairs) > self.max_pairs: self.pairs.pop(0)]: [pop] on
    the empty list raises. *)
Fixpoint trim_pairs (limit : Z) (ps : list (pystr * pystr))
  : list (pystr * pystr) * result unit :=
  if Z.of_nat (length ps) >? limit then
    match ps with
    | [] => ([], Raise IndexError)
    | _ :: ps' => trim_pairs limit ps'
    end
  else (ps, Ok ()).

(** [while self._len_chars() > self.max_chars and self.pairs:
    self.pairs.pop(0)] *)
Fixpoint trim_chars (limit : Z) (ps : list (pystr * pystr)) : list (pystr * pystr) :=
  match ps with
  | [] => []
  | _ :: ps' => if _len_chars ps >? limit then trim_chars limit ps' else ps
  end.

(** [s.replace(NEWLINE, SPACE)] *)
Definition replace_newline (s : pystr) : pystr :=
  (λ c, if (c =? 10)%N then chr_space else c) <$> s.

Section Add.
Context `{R : Runtime}.

(** The text kept for an answer: the items joined for a list, [str]
    otherwise; then [strip] and the replacement of newlines. *)
Definition answer_text (answer : pyval) : pystr :=
  replace_newline (strip
    match answer with
    | VList l => str_join (py ", ") (py_str <$> l)
    | _ => py_str answer
    end).

(** [add]: the cache after the call, and what the call did. *)
Definition add (c : t) (q_text : pystr) (answer : pyval) : t * result unit :=
  let q := replace_newline (strip q_text) in
  let a := answer_text answer in
  let ps := pairs c ++ [(take 200 q, take 200 a)] in
  match trim_pairs (max_pairs c) ps with
  | (ps', Raise e) => (with_pairs c ps', Raise e)
  | (ps', Ok _) => (with_pairs c (trim_chars (max_chars c) ps'), Ok ())
  end.

End Add.

End QACache.

(* ===================================================================== *)
(** ** main_gemini.py / main_groq.py: from the reply to the stored answer *)
(* ===================================================================== *)

(** The longest prefix of [s] that ends in a character with [p]. *)
Fixpoint upto_last (p : char → bool) (s : pystr) : option pystr :=
  match s with
  | [] => None
  | c :: s' =>
      match upto_last p s' with
      | Some r => Some (c :: r)
      | None => if p c then Some [c] else None
      end
  end.

(** [re.search] with the pattern of an opening brace, [.*] and a closing
    brace under [re.S]: at the first opening brace that has a closing brace
    after it, up to the last closing brace. *)
Fixpoint re_search_braces (s : pystr) : option pystr :=
  match s with
  | [] => None
  | c :: s' =>
      if (c =? 123)%N then
        match upto_last (λ d, (d =? 125)%N) s' with
        | Some r => Some (c :: r)
        | None => re_search_braces s'
        end
      else re_search_braces s'
  end.

(** [data.get("answer")]: [None] of the option when it raises, which it
    does unless [data] is a [dict]. *)
Definition get_answer (data : pyval) : option pyval :=
  match data with
  | VDict d => Some (default VNone (dict_get d (py "answer")))
  | _ => None
  end.

(** [not value] *)
Definition value_falsy (v : pyval) : bool :=
  match v with
  | VNone => true
  | VBool b => negb b
  | VInt z => z =? 0
  | VFloat r => bool_decide (r = py "0.0" ∨ r = py "-0.0")
  | VStr s => bool_decide (s = [])
  | VList l => bool_decide (l = [])
  | VDict d => bool_decide (d = [])
  end.

(** What one pass of the loop of [answer_form_with_groq] comes to. *)
Inductive outcome : Type :=
| NoEntryId                  (* if not eid: continue *)
| NoReply                    (* the request raised *)
| NoAnswer                   (* ans is None *)
| Unmapped                   (* the value is empty *)
| Rejected (e : exn)         (* except ValueError *)
| Stored (value : pyval).

Section Driver.
Context `{R : Runtime}.

(** [\d+] followed by [k]. *)
Fixpoint re_digits_plus (k : pystr → bool) (t : pystr) : bool :=
  match t with
  | c :: t' => bool_decide (is_Some (chr_decimal c)) && (re_digits_plus k t' || k t')
  | [] => false
  end.

(** [RE_SECTION.match(t)]: whitespace, digits, then a full stop or a
    closing parenthesis. *)
Definition re_section_match (t : pystr) : bool :=
  re_ws_star (re_digits_plus (λ r,
    match r with
    | c :: _ => ((c =? 46) || (c =? 41))%N
    | [] => false
    end)) t.

(** [extract_answer_from_llm]; [VNone] is [None]. *)
Definition extract_answer_from_llm (raw_content : pystr) : pyval :=
  match json_loads raw_content ≫= get_answer with
  | Some v => v
  | None =>
      match re_search_braces raw_content with
      | Some m => default VNone (json_loads m ≫= get_answer)
      | None => VNone
      end
  end.

Definition opt_str (r : option pystr) : pyval :=
  match r with Some s => VStr s | None => VNone end.

Definition opt_list (r : option (list pystr)) : pyval :=
  match r with Some l => VList (VStr <$> l) | None => VNone end.

(** The [if] / [elif] / [else] that computes [value] from [ans]. *)
Definition derive_value (q : Question) (ans : pyval) : result pyval :=
  let qtype := str_lower (q_type q) in
  let opts := choices_of q in
  if bool_decide (qtype = py "checkboxes") && negb (bool_decide (opts = [])) then
    match ans with
    | VStr s => r <- pick_multi_options s opts; Ok (opt_list r)
    | _ =>
        let items := match ans with VList l => l | _ => [] end in
        rs <- resolve_each (py_str <$> items) opts;
        Ok (VList (VStr <$> omap kept rs))
    end
  else if bool_decide (qtype ∈ [py "multiple_choice"; py "dropdown"])
          && negb (bool_decide (opts = [])) then
    match ans with
    | VList (x :: _) => r <- pick_single_option (py_str x) opts; Ok (opt_str r)
    | _ => r <- pick_single_option (py_str ans) opts; Ok (opt_str r)
    end
  else Ok (VStr (py_str ans)).

(** The block on the free answer: an empty value of a question that allows
    it becomes the record of the answer's own text. *)
Definition other_fallback (q : Question) (ans value : pyval) : pyval :=
  if value_falsy value && q_other_allowed q then
    let other_text :=
      match ans with
      | VStr s => Some (strip s)
      | VList (x :: _) => Some (strip (py_str x))
      | _ => None
      end in
    match other_text with
    | Some (c :: t) => VDict [(KEY_OTHER, VStr (c :: t))]
    | _ => value
    end
  else value.

(** One pass of the loop of [answer_form_with_groq], for the question [q]
    and the reply of the model ([None] when the request raised): the
    builder and the cache after the pass, and how it ended.  [Raise] is an
    exception that leaves the loop: that of [int] from the resolvers, that
    of [pop] from the cache, and that of [q_text.splitlines()[0]], which is
    out of range for the empty text alone. *)
Definition groq_step (b : Builder) (c : QACache.t) (q : Question) (reply : option pystr)
  : Builder * QACache.t * result outcome :=
  match q_entry_id q with
  | Some (e0 :: e) =>
    let eid := e0 :: e in
    let c := if re_section_match (q_text q) then QACache.clear c else c in
    match reply with
    | None => (b, c, Ok NoReply)
    | Some content =>
      let ans := extract_answer_from_llm content in
      match ans with
      | VNone => (b, c, Ok NoAnswer)
      | _ =>
        match derive_value q ans with
        | Raise e => (b, c, Raise e)
        | Ok value =>
          let value := other_fallback q ans value in
          if value_falsy value then (b, c, Ok Unmapped) else
          match set_answer b eid value with
          | (b', Raise e) => (b', c, Ok (Rejected e))
          | (b', Ok _) =>
              match QACache.add c (q_text q) value with
              | (c', Raise e) => (b', c', Raise e)
              | (c', Ok _) =>
                  match q_text q with
                  | [] => (b', c', Raise IndexError)
                  | _ => (b', c', Ok (Stored value))
                  end
              end
          end
        end
      end
    end
  | _ => (b, c, Ok NoEntryId)
  end.

(** The loop over the questions, each with the reply to it. *)
Fixpoint groq_loop (b : Builder) (c : QACache.t) (qs : list (Question * option pystr))
  : Builder * QACache.t * result (list outcome) :=
  match qs with
  | [] => (b, c, Ok [])
  | (q, reply) :: qs' =>
      match groq_step b c q reply with
      | (b', c', Raise e) => (b', c', Raise e)
      | (b', c', Ok o) =>
          match groq_loop b' c' qs' with
          | (b'', c'', Raise e) => (b'', c'', Raise e)
          | (b'', c'', Ok os) => (b'', c'', Ok (o :: os))
          end
      end
  end.

End Driver.


(** The builders a program can hold: a new one, and what [set_answer]
    leaves, whether it returned or raised. *)
Inductive reachable `{R : Runtime} (qs : list Question) : Builder → Prop :=
| reachable_new (meta_action meta_fbzx : pystr) (strict_mode : bool) :
    reachable qs (new_builder meta_action meta_fbzx qs strict_mode)
| reachable_set (b : Builder) (entry_id : pystr) (value : pyval) :
    reachable qs b → reachable qs (set_answer b entry_id value).1.


(** A value made of the options of [q]: one of them, a list of them that
    is not empty, or the record of a free answer with a text, for a
    question that allows the free answer. *)
Definition declared_value (q : Question) (value : pyval) : Prop :=
  (∃ t, value = VDict [(KEY_OTHER, VStr t)] ∧ t ≠ [] ∧ q_other_allowed q = true) ∨
  (∃ l, value = VList (VStr <$> l) ∧ l ≠ [] ∧ ∀ o, o ∈ l → o ∈ choices_of q) ∨
  (∃ o, value = VStr o ∧ o ∈ choices_of q).

(** The entry ids [__init__] indexes, in the order of the questions. *)
Definition indexed_ids (qs : list Question) : list pystr :=
  omap (λ q, match q_entry_id q with
             | Some (c :: e) => Some (c :: e)
             | _ => None
             end) qs.


(** What holds of the builder all along the loop over the questions [qs]:
    its index is theirs, and every answer belongs to one of them and, for a
    question with options of one of the three choice types, is made of its
    options. *)
Definition loop_invariant `{R : Runtime} (qs : list Question) (b : Builder) : Prop :=
  q_by_id b = index_questions qs ∧
  ∀ eid value, dict_get (answers b) eid = Some value →
    ∃ q, q ∈ qs ∧ q_entry_id q = Some eid ∧
         (choices_of q ≠ [] →
          str_lower (q_type q) ∈ [py "checkboxes"; py "multiple_choice"; py "dropdown"] →
          declared_value q value).


(* ===================================================================== *)
(** ** qa_context.py: the context of a section *)
(* ===================================================================== *)

(** [[\.\)]] *)
Definition is_dot_paren (c : char) : bool := ((c =? 46) || (c =? 41))%N.

Section SectionContext.
Context `{R : Runtime}.

(** The characters the class of the two ranges, a to z and the Cyrillic
    а to я, matches under [re.I]: a table of the [re] module. *)
Variable letter_ci : char → bool.

(** [RE_SUBPART.match(t)], and [RE_SUBPART.search(t)], which is the same
    for a pattern that starts with [^]: whitespace, a letter, then a full
    stop or a closing parenthesis. *)
Definition re_subpart_match (t : pystr) : bool :=
  re_ws_star (λ r,
    match r with
    | c :: d :: _ => letter_ci c && is_dot_paren d
    | _ => false
    end) t.

(** What [RE_SPLIT_FIRST_SUB] asks for after the newline: whitespace, a
    letter, a full stop or a closing parenthesis, and a whitespace
    character. *)
Definition sub_marker (r : pystr) : bool :=
  re_ws_star (λ r,
    match r with
    | c :: d :: w :: _ => letter_ci c && is_dot_paren d && is_space w
    | _ => false
    end) r.

(** [RE_SPLIT_FIRST_SUB.split(text, maxsplit=1)[0]] when the pattern
    matches somewhere: the text before the first newline that starts a
    match. *)
Fixpoint before_first_sub (t : pystr) : option pystr :=
  match t with
  | [] => None
  | c :: t' =>
      if (c =? 10)%N && sub_marker t' then Some []
      else cons c <$> before_first_sub t'
  end.

Definition extract_section_intro (text : pystr) : pystr :=
  if re_section_match text then
    match before_first_sub text with
    | Some part => strip part
    | None => strip text
    end
  else [].

(** [extract_section_intro(t) or t] *)
Definition section_stem (t : pystr) : pystr :=
  match extract_section_intro t with
  | [] => t
  | intro => intro
  end.

(** One pass of the loop of [make_section_context_map], on [ctx_map] and
    [current]. *)
Definition section_step (st : pydict pystr * pystr) (q : Question)
  : pydict pystr * pystr :=
  let '(ctx_map, current) := st in
  let t := strip (q_text q) in
  match t with
  | [] => (ctx_map, current)
  | _ =>
      if re_section_match t then
        let current := section_stem t in
        (if truthy (q_entry_id q) && re_subpart_match t
         then dict_set ctx_map (default [] (q_entry_id q)) current
         else ctx_map,
         current)
      else if re_subpart_match t && negb (bool_decide (current = []))
              && truthy (q_entry_id q)
      then (dict_set ctx_map (default [] (q_entry_id q)) current, current)
      else (ctx_map, current)
  end.

Definition make_section_context_map (questions : list Question) : pydict pystr :=
  (fold_left section_step questions ([], [])).1.

(** A question that opens a section, and the stem of the last one of a
    list of questions: the empty string when there is none. *)
Definition opens_section (q : Question) : bool := re_section_match (strip (q_text q)).

Definition current_section (qs : list Question) : pystr :=
  match List.find opens_section (reverse qs) with
  | Some h => section_stem (strip (q_text h))
  | None => []
  end.

End SectionContext.

(** What the class of the two ranges matches under [re.I] in CPython 3.11
    (Unicode 14): the letters A to Z and a to z, the Cyrillic letters
    U+0410 to U+044F, and the characters that the case mappings send into
    the ranges: U+0130, U+0131, U+017F, U+1C80 to U+1C86 and U+212A. *)
Definition two_ranges_letter (c : char) : bool :=
  ((65 <=? c) && (c <=? 90) || (97 <=? c) && (c <=? 122) ||
   (304 <=? c) && (c <=? 305) || (c =? 383) ||
   (1040 <=? c) && (c <=? 1103) ||
   (7296 <=? c) && (c <=? 7302) || (c =? 8490))%N.

Definition sample_third_subpart : Question :=
  {| q_text := py "c. Third?";
     q_type := py "short_answer"; q_required := None; q_choices_or_rows := None;
     q_columns := None; q_entry_id := Some (py "13"); q_other_allowed := false;
     q_other_value := None; q_other_response_key := None |}.

(** Three questions: a section with its stem and a first sub-part in one
    text, then two sub-parts of their own. *)
Definition sample_section_questions : list Question :=
  [ {| q_text := py "1. Read the text." ++ [10%N] ++ py "a) First?";
       q_type := py "short_answer"; q_required := None; q_choices_or_rows := None;
       q_columns := None; q_entry_id := Some (py "11"); q_other_allowed := false;
       q_other_value := None; q_other_response_key := None |};
    {| q_text := py "b) Second?";
       q_type := py "short_answer"; q_required := None; q_choices_or_rows := None;
       q_columns := None; q_entry_id := Some (py "12"); q_other_allowed := false;
       q_other_value := None; q_other_response_key := None |};
    sample_third_subpart ].


(** What holds of [ctx_map] and [current] after the questions [pre]. *)
Definition section_invariant `{R : Runtime} (letter_ci : char → bool)
    (pre : list Question) (st : pydict pystr * pystr) : Prop :=
  st.2 = current_section letter_ci pre ∧
  ∀ eid ctx, dict_get st.1 eid = Some ctx →
    ctx ≠ [] ∧ eid ≠ [] ∧
    ∃ i q, pre !! i = Some q ∧ q_entry_id q = Some eid ∧
           opens_section q = false ∧
           re_subpart_match letter_ci (strip (q_text q)) = true ∧
           ctx = current_section letter_ci (take i pre).


(** The sample page with an entry id for each of the two questions. *)
Definition sample_meta_two_ids : Meta := {|
  m_action := py "https://example.org/formResponse";
  m_fbzx := py "tok";
  m_entry_ids := [py "555"; py "67890"];
  m_label_to_entry := [];
|}.


(** The threshold of the scan as the specification words it: the count is
    at least 2 and at least one third of the entries, the third taken as
    it is and not rounded down. *)
Definition spec_qualifies (node : list pyval) : bool :=
  (2 <=? str_count node)%nat && (length node <=? 3 * str_count node)%nat.

(** The node of three entries in the sample document for the scan. *)
Definition sample_scan_small : list pyval :=
  [VList [VStr (py "a")]; VStr (py "x"); VList [VStr (py "b")]].


(** A short answer question with the entry id of [sample_checkboxes]. *)
Definition sample_same_id_text : Question := {|
  q_text := py "Why?";
  q_type := py "short_answer";
  q_required := None;
  q_choices_or_rows := None;
  q_columns := None;
  q_entry_id := Some (py "555");
  q_other_allowed := false;
  q_other_value := None;
  q_other_response_key := None;
|}.


(* ===================================================================== *)
(** * Properties *)
(* ===================================================================== *)

(** ** Strings *)

Lemma drop_while_subseteq {A} (p : A → bool) (l : list A) : drop_while p l ⊆ l.
Proof.
  induction l as [|x l IH]; simpl; [done|].
  destruct (p x); [|done]. by apply list_subseteq_cons.
Qed.

Lemma take_while_subseteq {A} (p : A → bool) (l : list A) : take_while p l ⊆ l.
Proof.
  induction l as [|x l IH]; simpl; [done|].
  destruct (p x); [|apply list_subseteq_nil].
  intros y [->|Hy]%elem_of_cons; [left|right; auto].
Qed.

Lemma strip_by_subseteq (p : char → bool) (s : pystr) : strip_by p s ⊆ s.
Proof.
  unfold strip_by. intros c Hc.
  rewrite elem_of_reverse in Hc. apply drop_while_subseteq in Hc.
  rewrite elem_of_reverse in Hc. by apply drop_while_subseteq in Hc.
Qed.

Lemma forallb_subseteq {A} (p : A → bool) (l k : list A) :
  l ⊆ k → forallb p k = true → forallb p l = true.
Proof.
  rewrite !forallb_forall. intros Hs Hk x Hx%list_elem_of_In.
  apply Hk, list_elem_of_In, Hs, Hx.
Qed.

Lemma strip_all (p : char → bool) (s : pystr) :
  forallb p s = true → forallb p (strip s) = true.
Proof. apply forallb_subseteq, strip_by_subseteq. Qed.

Lemma collapse_ws_from_all (p : char → bool) (b : bool) (s : pystr) :
  p chr_space = true → forallb p s = true → forallb p (collapse_ws_from b s) = true.
Proof.
  intros Hsp. revert b. induction s as [|c s IH]; intros b; simpl; [done|].
  intros [Hc Hs]%andb_prop.
  destruct (is_space c), b; simpl; rewrite ?Hsp, ?Hc; simpl; auto.
Qed.

Lemma replace_nbsp_all (p : char → bool) (s : pystr) :
  p chr_space = true → forallb p s = true → forallb p (replace_nbsp s) = true.
Proof.
  intros Hsp. induction s as [|c s IH]; simpl; [done|].
  intros [Hc Hs]%andb_prop. rewrite IH by done.
  destruct (c =? chr_nbsp)%N; by rewrite ?Hsp, ?Hc.
Qed.

Lemma ascii_lower_is_ascii (c : char) : is_ascii c = true → is_ascii (ascii_lower c) = true.
Proof.
  unfold is_ascii, ascii_lower. intros Hc%N.ltb_lt.
  destruct ((65 <=? c) && (c <=? 90))%N eqn:E; apply N.ltb_lt; [|done].
  apply andb_prop in E as [_ E%N.leb_le]. lia.
Qed.

Lemma ascii_lower_all (s : pystr) :
  forallb is_ascii s = true → forallb is_ascii (ascii_lower <$> s) = true.
Proof.
  induction s as [|c s IH]; simpl; [done|].
  intros [Hc Hs]%andb_prop. apply andb_true_intro.
  split; [by apply ascii_lower_is_ascii|by apply IH].
Qed.

(** ** The library on ASCII text satisfies the laws *)

#[global] Instance ascii_runtime_laws : RuntimeLaws ascii_runtime.
Proof.
  split; simpl; try done.
  right. lia.
Qed.

(** The functions of the library that the reconciler calls are determined
    by the laws on ASCII text. *)
Section Agreement.
Context (R : Runtime) {L : RuntimeLaws R}.

Lemma norm_agrees (s : pystr) :
  forallb is_ascii s = true → _norm (R:=R) s = _norm (R:=ascii_runtime) s.
Proof.
  intros Hs. unfold _norm. by rewrite str_lower_ascii by by apply strip_all.
Qed.

Lemma norm_ascii_is_ascii (s : pystr) :
  forallb is_ascii s = true → forallb is_ascii (_norm (R:=ascii_runtime) s) = true.
Proof.
  intros Hs. unfold _norm, collapse_ws.
  apply collapse_ws_from_all, replace_nbsp_all, ascii_lower_all, strip_all; done.
Qed.

Lemma isdigit_agrees (s : pystr) :
  forallb is_ascii s = true → isdigit (R:=R) s = isdigit (R:=ascii_runtime) s.
Proof.
  intros Hs. unfold isdigit. destruct s as [|c s]; [done|].
  induction (c :: s) as [|d t IH]; simpl in *; [done|].
  apply andb_prop in Hs as [Hd Ht]. by rewrite chr_isdigit_ascii, IH.
Qed.

Lemma mapM_decimal_agrees (s : pystr) :
  forallb is_ascii s = true →
  mapM (chr_decimal (Runtime:=R)) s = mapM ascii_decimal s.
Proof.
  induction s as [|d t IH]; simpl; [done|].
  intros [Hd Ht]%andb_prop. by rewrite chr_decimal_ascii, IH.
Qed.

Lemma int_of_str_agrees (s : pystr) :
  forallb is_ascii s = true → (length s ≤ 640)%nat →
  int_of_str (R:=R) s = int_of_str (R:=ascii_runtime) s.
Proof.
  intros Hs Hlen. unfold int_of_str.
  destruct (bool_decide (s = [])); [done|].
  rewrite mapM_decimal_agrees by done. simpl.
  assert (negb (int_max_str_digits =? 0)%nat && (int_max_str_digits <? length s)%nat = false) as ->.
  { destruct (int_max_str_digits_range (R:=R)) as [->|H]; [done|].
    apply andb_false_iff. right. apply Nat.ltb_ge. lia. }
  assert ((4300 <? length s)%nat = false) as ->; [apply Nat.ltb_ge; lia|done].
Qed.

Lemma norm_map_agrees (options : list pystr) :
  forallb (forallb is_ascii) options = true →
  _norm (R:=R) <$> options = _norm (R:=ascii_runtime) <$> options.
Proof.
  induction options as [|o l IH]; [done|].
  intros [Ho Hl]%andb_prop. rewrite !fmap_cons. f_equal; auto using norm_agrees.
Qed.

Lemma pick_single_option_agrees (text : pystr) (options : list pystr) :
  forallb is_ascii text = true →
  forallb (forallb is_ascii) options = true →
  (length (_norm (R:=ascii_runtime) text) ≤ 640)%nat →
  pick_single_option (R:=R) text options = pick_single_option (R:=ascii_runtime) text options.
Proof.
  intros Ht Ho Hlen. unfold pick_single_option.
  destruct options as [|o options]; [done|].
  rewrite norm_map_agrees, norm_agrees by done.
  unfold ordinal.
  rewrite isdigit_agrees, int_of_str_agrees by (done || by apply norm_ascii_is_ascii).
  done.
Qed.

End Agreement.

(** ** The navigator *)

Lemma list_getitem_in_range {A} (l : list A) (i : Z) :
  0 ≤ i < Z.of_nat (length l) →
  ∃ x, l !! Z.to_nat i = Some x ∧ list_getitem l i = Ok x.
Proof.
  intros [H0 H1]. unfold list_getitem.
  destruct (i <? 0) eqn:E; [apply Z.ltb_lt in E; lia|].
  assert ((0 <=? i) && (i <? Z.of_nat (length l)) = true) as ->.
  { apply andb_true_intro. split; [by apply Z.leb_le|by apply Z.ltb_lt]. }
  destruct (lookup_lt_is_Some_2 l (Z.to_nat i)) as [x Hx]; [lia|].
  exists x. by rewrite Hx.
Qed.

Lemma dig_ok (x : pyval) (path : list Z) : ∃ v, _dig x path = Ok v.
Proof.
  revert x. induction path as [|p path IH]; intros x; simpl; [by eexists|].
  destruct x; try by eexists.
  destruct ((p <? 0) || (Z.of_nat (length l) <=? p)) eqn:E; [by eexists|].
  apply orb_false_elim in E as [E1%Z.ltb_ge E2%Z.leb_gt].
  destruct (list_getitem_in_range l p) as (cur & _ & ->); [lia|]. apply IH.
Qed.

(** C8: [_dig] returns a value for every node and every path: [None] as
    soon as the current node is not a list or the index is negative or past
    the end, the node itself on the empty path, and otherwise what the rest
    of the path gives from the indexed element.  It never raises. *)
Theorem dig_never_raises (x : pyval) (path : list Z) :
  (∃ v, _dig x path = Ok v) ∧
  (path = [] → _dig x path = Ok x) ∧
  (∀ p path', path = p :: path' →
     match x with
     | VList l =>
         if decide (0 ≤ p < Z.of_nat (length l))
         then ∃ cur, l !! Z.to_nat p = Some cur ∧ _dig x path = _dig cur path'
         else _dig x path = Ok VNone
     | _ => _dig x path = Ok VNone
     end).
Proof.
  split; [apply dig_ok|split].
  - by intros ->.
  - intros p path' ->. destruct x; try done. simpl.
    case_decide as Hp.
    + assert ((p <? 0) || (Z.of_nat (length l) <=? p) = false) as ->.
      { apply orb_false_intro; [apply Z.ltb_ge|apply Z.leb_gt]; lia. }
      destruct (list_getitem_in_range l p) as (cur & Hcur & ->); [lia|]. by exists cur.
    + assert ((p <? 0) || (Z.of_nat (length l) <=? p) = true) as ->; [|done].
      apply orb_true_intro.
      destruct (Z.ltb_spec p 0); [by left|right]. apply Z.leb_le. lia.
Qed.

(** ** The reconciler: one option *)

Section ReconcilerFacts.
Context {R : Runtime}.

Lemma drop_while_all {A} (p : A → bool) (l : list A) :
  forallb p l = true → drop_while p l = [].
Proof.
  induction l as [|x l IH]; simpl; [done|].
  intros [-> Hl]%andb_prop. auto.
Qed.

Lemma strip_blank (s : pystr) : forallb is_space s = true → strip s = [].
Proof. intros Hs. unfold strip, strip_by. rewrite (drop_while_all _ s); done. Qed.

Lemma starts_with_nil (s : pystr) : starts_with [] s = true.
Proof. by destruct s. Qed.

Lemma str_in_nil (s : pystr) : str_in [] s = true.
Proof. destruct s; simpl; by rewrite ?starts_with_nil. Qed.

(** The indices [indices_from] lists are exactly those of the elements
    that satisfy the test, in increasing order. *)
Lemma elem_of_indices_from {A} (p : A → bool) (k : nat) (l : list A) (i : nat) :
  i ∈ indices_from p k l ↔ ∃ x, (k ≤ i)%nat ∧ l !! (i - k)%nat = Some x ∧ p x = true.
Proof.
  revert k. induction l as [|y l IH]; intros k; simpl.
  - split; [by intros ?%elem_of_nil|by intros (x & _ & ? & _)].
  - assert (i ∈ indices_from p (S k) l ↔
            ∃ x, (k < i)%nat ∧ l !! (i - S k)%nat = Some x ∧ p x = true) as IH'.
    { rewrite IH. split; intros (x & ? & ? & ?); exists x; split_and!; auto; lia. }
    assert ((∃ x, (k ≤ i)%nat ∧ (y :: l) !! (i - k)%nat = Some x ∧ p x = true) ↔
            (i = k ∧ p y = true) ∨
            ∃ x, (k < i)%nat ∧ l !! (i - S k)%nat = Some x ∧ p x = true) as ->.
    { split.
      - intros (x & Hk & Hx & Hp). destruct (decide (i = k)) as [->|Hne].
        + left. rewrite Nat.sub_diag in Hx. by simplify_eq/=.
        + right. exists x. split_and!; [lia| |done].
          replace (i - k)%nat with (S (i - S k)) in Hx by lia. done.
      - intros [[-> Hp]|(x & Hk & Hx & Hp)].
        + exists y. rewrite Nat.sub_diag. done.
        + exists x. split_and!; [lia| |done].
          replace (i - k)%nat with (S (i - S k)) by lia. done. }
    destruct (p y) eqn:Hy; rewrite ?elem_of_cons, IH'.
    + split; [intros [->|?]; auto|intros [[? _]|?]; auto].
    + split; [auto|intros [[_ ?]|?]; [done|auto]].
Qed.

Lemma indices_from_lower {A} (p : A → bool) (k : nat) (l : list A) (i : nat) :
  i ∈ indices_from p k l → (k ≤ i)%nat.
Proof. rewrite elem_of_indices_from. by intros (? & ? & _). Qed.

Lemma NoDup_indices_from {A} (p : A → bool) (k : nat) (l : list A) :
  NoDup (indices_from p k l).
Proof.
  revert k. induction l as [|y l IH]; intros k; simpl; [constructor|].
  destruct (p y); [|apply IH].
  constructor; [|apply IH]. intros H%indices_from_lower. lia.
Qed.

(** A duplicate-free list whose elements all equal [i] and which holds
    [i] is [[i]]. *)
Lemma NoDup_singleton_all {A} (l : list A) (i : A) :
  NoDup l → i ∈ l → (∀ j, j ∈ l → j = i) → l = [i].
Proof.
  intros Hnd Hi Hall. destruct l as [|a [|b l]].
  - by apply elem_of_nil in Hi.
  - f_equal. apply Hall. left.
  - exfalso. apply NoDup_cons in Hnd as [Ha _].
    apply Ha. rewrite (Hall a), (Hall b); [left|right; left|left].
Qed.

Lemma elem_of_containment_hits (ans : pystr) (options : list pystr) (i : nat) :
  i ∈ containment_hits ans (_norm <$> options) ↔ candidate ans options i.
Proof.
  unfold containment_hits, candidate. rewrite elem_of_indices_from.
  rewrite Nat.sub_0_r. setoid_rewrite list_lookup_fmap. split.
  - intros (no & _ & Hno & Hp).
    destruct (options !! i) as [o|] eqn:Ho; [|done]. simplify_eq/=. by exists o.
  - intros (o & Ho & Hp). exists (_norm o). rewrite Ho. split_and!; [lia|done|done].
Qed.

Lemma containment_one (ans : pystr) (options : list pystr) (i : nat) :
  candidate ans options i → (∀ j, candidate ans options j → j = i) →
  ∃ o, options !! i = Some o ∧
       containment ans (_norm <$> options) options = Ok (Some o).
Proof.
  intros Hi Huniq. unfold containment.
  rewrite (NoDup_singleton_all (containment_hits ans (_norm <$> options)) i).
  - destruct Hi as (o & Ho & _).
    destruct (list_getitem_in_range options (Z.of_nat i)) as (x & Hx & ->).
    { apply lookup_lt_Some in Ho. lia. }
    rewrite Nat2Z.id in Hx. exists o. by simplify_eq.
  - apply NoDup_indices_from.
  - by apply elem_of_containment_hits.
  - intros j Hj. by apply Huniq, elem_of_containment_hits.
Qed.

Lemma containment_zero (ans : pystr) (options : list pystr) :
  (∀ i, ¬ candidate ans options i) →
  containment ans (_norm <$> options) options = Ok None.
Proof.
  intros Hnone. unfold containment.
  destruct (containment_hits ans (_norm <$> options)) as [|i hits] eqn:E; [done|].
  destruct (Hnone i). apply elem_of_containment_hits. rewrite E. left.
Qed.

Lemma containment_many (ans : pystr) (options : list pystr) (i j : nat) :
  candidate ans options i → candidate ans options j → i ≠ j →
  containment ans (_norm <$> options) options = Ok None.
Proof.
  intros Hi%elem_of_containment_hits Hj%elem_of_containment_hits Hne.
  unfold containment.
  destruct (containment_hits ans (_norm <$> options)) as [|a [|b hits]]; [done| |done].
  apply list_elem_of_singleton in Hi, Hj. congruence.
Qed.

Lemma pick_single_option_falls_back (text : pystr) (options : list pystr) :
  options ≠ [] →
  ordinal (_norm text) options = Ok None →
  exact_match (_norm text) (_norm <$> options) options = Ok None →
  exact_match (fallback_text (_norm text)) (_norm <$> options) options = Ok None →
  pick_single_option text options =
    containment (fallback_text (_norm text)) (_norm <$> options) options.
Proof.
  intros Hne Hord Hex Hex2. unfold pick_single_option.
  destruct options as [|o l]; [done|].
  rewrite Hord. cbn [bind]. rewrite Hex. cbn [bind].
  unfold fallback_text in *. destruct (re_search_label (_norm text)); [|done].
  by rewrite Hex2.
Qed.

End ReconcilerFacts.

Lemma ascii_isdigit_is_ascii (s : pystr) :
  forallb ascii_isdigit s = true → forallb is_ascii s = true.
Proof.
  rewrite !forallb_forall. intros H c Hc. specialize (H c Hc).
  unfold ascii_isdigit, is_ascii in *. apply andb_prop in H as [_ H%N.leb_le].
  apply N.ltb_lt. lia.
Qed.

Lemma mapM_ascii_decimal (s : pystr) :
  forallb ascii_isdigit s = true →
  mapM ascii_decimal s = Some ((λ c, c - 48)%N <$> s).
Proof.
  induction s as [|c s IH]; [done|]. cbn [forallb].
  intros [Hc Hs]%andb_prop. cbn. rewrite (IH Hs).
  unfold ascii_decimal. by rewrite Hc.
Qed.

Lemma fold_decimal (s : pystr) (acc : Z) :
  forallb ascii_isdigit s = true →
  fold_left (λ acc d, 10 * acc + Z.of_N d) ((λ c, c - 48)%N <$> s) acc =
  fold_left (λ acc c, 10 * acc + (Z.of_N c - 48)) s acc.
Proof.
  revert acc. induction s as [|c s IH]; intros acc; [done|]. cbn [forallb].
  intros [Hc Hs]%andb_prop. cbn. rewrite <- (IH _ Hs). f_equal.
  unfold ascii_isdigit in Hc. apply andb_prop in Hc as [Hc%N.leb_le _]. lia.
Qed.

(** On a string of ASCII digits, [isdigit] holds and [int] reads the
    number in base ten, on every runtime. *)
Lemma int_of_ascii_digits (R : Runtime) (L : RuntimeLaws R) (s : pystr) :
  s ≠ [] → forallb ascii_isdigit s = true → (length s ≤ 640)%nat →
  isdigit s = true ∧ int_of_str s = Ok (decimal_value s).
Proof.
  intros Hne Hd Hlen. pose proof (ascii_isdigit_is_ascii s Hd) as Ha.
  rewrite (isdigit_agrees R), (int_of_str_agrees R) by done. split.
  - unfold isdigit. by destruct s.
  - unfold int_of_str. rewrite bool_decide_eq_false_2 by done.
    cbn [int_max_str_digits chr_decimal ascii_runtime].
    assert ((4300 <? length s)%nat = false) as ->; [apply Nat.ltb_ge; lia|].
    cbn [negb andb Nat.eqb]. rewrite mapM_ascii_decimal by done.
    by rewrite fold_decimal.
Qed.

(** On a string of ASCII digits [isdigit] holds, on every runtime, and
    [int] reads the number in base ten when the string has no more digits
    than the limit of the interpreter, and raises when it has more. *)
Lemma int_of_ascii_digits_limit (R : Runtime) (L : RuntimeLaws R) (s : pystr) :
  s ≠ [] → forallb ascii_isdigit s = true →
  isdigit s = true ∧
  int_of_str s =
    if negb (int_max_str_digits =? 0)%nat && (int_max_str_digits <? length s)%nat
    then Raise ValueError_int_literal
    else Ok (decimal_value s).
Proof.
  intros Hne Hd. pose proof (ascii_isdigit_is_ascii s Hd) as Ha. split.
  - rewrite (isdigit_agrees R) by done. unfold isdigit. by destruct s.
  - unfold int_of_str. rewrite bool_decide_eq_false_2 by done.
    destruct (_ && _); [done|].
    rewrite (mapM_decimal_agrees R) by done.
    rewrite mapM_ascii_decimal by done. by rewrite fold_decimal.
Qed.

(** The text of 4300 zeros and a one is made of digits and writes the
    number 1, and the call raises: the limit of the interpreter counts the
    leading zeros.  C1 as the specification words it fails there. *)
Lemma ordinal_digit_limit_counterexample :
  [py "A"; py "B"] ≠ [] ∧
  forallb ascii_isdigit (_norm (R:=ascii_runtime) (replicate 4300 48%N ++ [49%N])) = true ∧
  decimal_value (_norm (R:=ascii_runtime) (replicate 4300 48%N ++ [49%N])) = 1 ∧
  1 ≤ 1 ≤ Z.of_nat (length [py "A"; py "B"]) ∧
  pick_single_option (R:=ascii_runtime) (replicate 4300 48%N ++ [49%N]) [py "A"; py "B"]
  = Raise ValueError_int_literal.
Proof.
  split_and!; [done|by vm_compute|by vm_compute|cbn; lia|cbn; lia|by vm_compute].
Qed.

(** C1, amended: when the normalized text passes [isdigit] and [int] gives
    it the value [k] with [1 <= k <= len(options)], [pick_single_option]
    returns the k-th option, counting from one.  [int] gives a normalized
    text made of the digits 0 to 9 the number it writes in base ten when
    the text has no more digits than the limit of the interpreter
    ([sys.get_int_max_str_digits()], 0 for no limit; leading zeros count);
    with more digits than the limit, and whenever [int] refuses a text that
    passes [isdigit], the call raises [ValueError] instead of returning.
    The text 2 picks B out of A, B, C. *)
Theorem pick_single_option_ordinal (R : Runtime) (L : RuntimeLaws R) :
  (∀ (text : pystr) (options : list pystr) (k : Z),
     options ≠ [] →
     isdigit (_norm text) = true →
     int_of_str (_norm text) = Ok k →
     1 ≤ k ≤ Z.of_nat (length options) →
     ∃ o, options !! Z.to_nat (k - 1) = Some o ∧
          pick_single_option text options = Ok (Some o)) ∧
  (∀ (text : pystr) (options : list pystr) (k : Z),
     options ≠ [] →
     _norm text ≠ [] →
     forallb ascii_isdigit (_norm text) = true →
     (int_max_str_digits = 0 ∨ length (_norm text) ≤ int_max_str_digits)%nat →
     decimal_value (_norm text) = k →
     1 ≤ k ≤ Z.of_nat (length options) →
     ∃ o, options !! Z.to_nat (k - 1) = Some o ∧
          pick_single_option text options = Ok (Some o)) ∧
  (∀ (text : pystr) (options : list pystr),
     options ≠ [] →
     _norm text ≠ [] →
     forallb ascii_isdigit (_norm text) = true →
     int_max_str_digits ≠ 0%nat →
     (int_max_str_digits < length (_norm text))%nat →
     pick_single_option text options = Raise ValueError_int_literal) ∧
  (∀ (text : pystr) (options : list pystr) (e : exn),
     options ≠ [] →
     isdigit (_norm text) = true →
     int_of_str (_norm text) = Raise e →
     pick_single_option text options = Raise e) ∧
  pick_single_option (py "2") [py "A"; py "B"; py "C"] = Ok (Some (py "B")).
Proof.
  assert (∀ (text : pystr) (options : list pystr) (k : Z),
     options ≠ [] →
     isdigit (_norm text) = true →
     int_of_str (_norm text) = Ok k →
     1 ≤ k ≤ Z.of_nat (length options) →
     ∃ o, options !! Z.to_nat (k - 1) = Some o ∧
          pick_single_option text options = Ok (Some o)) as Hgen.
  { intros text options k Hne Hdig Hint Hk.
    destruct (list_getitem_in_range options (k - 1)) as (o & Ho & Hget); [lia|].
    exists o. split; [done|].
    unfold pick_single_option. destruct options as [|o' l]; [done|].
    unfold ordinal. rewrite Hdig, Hint. cbn [bind].
    assert ((1 <=? k) && (k <=? Z.of_nat (length (o' :: l))) = true) as ->.
    { apply andb_true_intro. split; apply Z.leb_le; lia. }
    by rewrite Hget. }
  assert (∀ (text : pystr) (options : list pystr) (e : exn),
     options ≠ [] →
     isdigit (_norm text) = true →
     int_of_str (_norm text) = Raise e →
     pick_single_option text options = Raise e) as Hraise.
  { intros text options e Hne Hdig Hint.
    unfold pick_single_option. destruct options as [|o' l]; [done|].
    unfold ordinal. by rewrite Hdig, Hint. }
  split_and!; [done| | |done|].
  - intros text options k Hne Hn Hd Hlim <- Hk.
    destruct (int_of_ascii_digits_limit R L (_norm text) Hn Hd) as [Hdig Hint].
    apply Hgen; [done|done| |done]. rewrite Hint.
    assert (negb (int_max_str_digits =? 0)%nat
            && (int_max_str_digits <? length (_norm text))%nat = false) as ->; [|done].
    destruct Hlim as [-> |Hlim]; [done|].
    apply andb_false_iff. right. apply Nat.ltb_ge. lia.
  - intros text options Hne Hn Hd Hz Hlen.
    destruct (int_of_ascii_digits_limit R L (_norm text) Hn Hd) as [Hdig Hint].
    apply Hraise; [done|done|]. rewrite Hint.
    apply Nat.eqb_neq in Hz as ->. by apply Nat.ltb_lt in Hlen as ->.
  - rewrite (pick_single_option_agrees R) by (reflexivity || (vm_compute; lia)).
    reflexivity.
Qed.

Lemma pick_single_option_ordinal_witness :
  pick_single_option (R:=ascii_runtime) (py " 3 ") [py "A"; py "B"; py "C"]
  = Ok (Some (py "C")).
Proof.
  destruct (pick_single_option_ordinal ascii_runtime ascii_runtime_laws) as [H _].
  destruct (H (py " 3 ") [py "A"; py "B"; py "C"] 3) as (o & Ho & ->);
    [done|reflexivity|reflexivity|simpl; lia|].
  vm_compute in Ho. by simplify_eq.
Defined.

(** C6: the last step of [pick_single_option].  Among the options whose
    normalized form contains the text or is contained in it, a single
    candidate is the result; no candidate, or two or more, give [None].  The
    step runs on the text after the label when the pattern matched, on the
    normalized answer otherwise, once the earlier steps returned nothing. *)
Theorem containment_fallback_unique (R : Runtime) (ans : pystr) (options : list pystr) :
  let step := containment ans (_norm <$> options) options in
  (∀ i, candidate ans options i → (∀ j, candidate ans options j → j = i) →
        ∃ o, options !! i = Some o ∧ step = Ok (Some o)) ∧
  ((∀ i, ¬ candidate ans options i) → step = Ok None) ∧
  (∀ i j, candidate ans options i → candidate ans options j → i ≠ j →
          step = Ok None) ∧
  (∀ text,
     ans = fallback_text (_norm text) →
     options ≠ [] →
     ordinal (_norm text) options = Ok None →
     exact_match (_norm text) (_norm <$> options) options = Ok None →
     exact_match ans (_norm <$> options) options = Ok None →
     pick_single_option text options = step).
Proof.
  intros step. split_and!.
  - apply containment_one.
  - apply containment_zero.
  - apply containment_many.
  - intros text -> ????. by apply pick_single_option_falls_back.
Qed.

(** The three outcomes of the step on concrete options. *)
Example containment_one_hit :
  pick_single_option (R:=ascii_runtime) (py "app") [py "Apple pie"; py "Banana"]
  = Ok (Some (py "Apple pie")).
Proof. reflexivity. Qed.

Example containment_no_hit :
  pick_single_option (R:=ascii_runtime) (py "xyz") [py "A"; py "B"; py "C"] = Ok None.
Proof. reflexivity. Qed.

Example containment_two_hits :
  pick_single_option (R:=ascii_runtime) (py "an") [py "Banana"; py "Mango"] = Ok None.
Proof. reflexivity. Qed.

Example containment_after_label :
  pick_single_option (R:=ascii_runtime) (py "answer: ban") [py "Banana"; py "Mango"]
  = Ok (Some (py "Banana")).
Proof. reflexivity. Qed.

(** C10: with a single option whose normalized form is not empty, an empty
    or whitespace-only text is answered with that option: the text
    normalizes to the empty string, which every option contains. *)
Theorem pick_single_option_blank_singleton (R : Runtime) (L : RuntimeLaws R)
    (text o : pystr) :
  forallb is_space text = true →
  _norm o ≠ [] →
  _norm text = [] ∧ pick_single_option text [o] = Ok (Some o).
Proof.
  intros Hblank Ho.
  assert (_norm text = []) as Hn.
  { unfold _norm. rewrite strip_blank by done. by rewrite str_lower_ascii. }
  split; [done|].
  unfold pick_single_option. rewrite Hn. cbn [ordinal isdigit bind].
  unfold exact_match. rewrite fmap_cons. cbn [find_index fmap list_fmap].
  rewrite bool_decide_eq_false_2 by done. cbn [bind re_search_label].
  unfold containment, containment_hits. cbn [indices_from].
  rewrite str_in_nil. reflexivity.
Qed.

Lemma pick_single_option_blank_singleton_witness :
  pick_single_option (R:=ascii_runtime) (py "   ") [py "Only"] = Ok (Some (py "Only")).
Proof.
  apply (pick_single_option_blank_singleton ascii_runtime ascii_runtime_laws
           (py "   ") (py "Only")); [reflexivity|done].
Defined.

(** ** The reconciler: the label prefix *)

Section LabelPrefix.
Context {R : Runtime}.

Lemma collapse_ws_from_no_newline (b : bool) (s : pystr) :
  chr_newline ∉ collapse_ws_from b s.
Proof.
  revert b. induction s as [|c s IH]; intros b; simpl; [apply not_elem_of_nil|].
  destruct (is_space c) eqn:Hc.
  - destruct b; [apply IH|]. apply not_elem_of_cons. split; [done|apply IH].
  - apply not_elem_of_cons. split; [|apply IH]. by intros <-.
Qed.

Lemma norm_no_newline (s : pystr) : chr_newline ∉ _norm s.
Proof. apply collapse_ws_from_no_newline. Qed.

Lemma take_while_all {A} (p : A → bool) (l : list A) :
  (∀ x, x ∈ l → p x = true) → take_while p l = l.
Proof.
  induction l as [|x l IH]; intros H; simpl; [done|].
  rewrite (H x) by left. f_equal. apply IH. intros y Hy. apply H. by right.
Qed.

Lemma drop_take_while {A} (p : A → bool) (l : list A) :
  drop (length (take_while p l)) l = drop_while p l.
Proof. induction l as [|x l IH]; simpl; [done|]. by destruct (p x). Qed.

Lemma drop_while_idemp {A} (p : A → bool) (l : list A) :
  drop_while p (drop_while p l) = drop_while p l.
Proof.
  induction l as [|x l IH]; simpl; [done|].
  destruct (p x) eqn:E; [done|]. simpl. by rewrite E.
Qed.

Lemma strip_drop_while (s : pystr) : strip (drop_while is_space s) = strip s.
Proof. unfold strip, strip_by. by rewrite drop_while_idemp. Qed.

Lemma reverse_seq_S (a n : nat) :
  reverse (seq a (S n)) = (a + n)%nat :: reverse (seq a n).
Proof. by rewrite seq_S, reverse_app. Qed.

(** On text without a newline, [(.+)$] takes all of it. *)
Lemma match_dot_plus_eol_all (t : pystr) :
  t ≠ [] → chr_newline ∉ t → match_dot_plus_eol t = Some t.
Proof.
  intros Hne Hnl. unfold match_dot_plus_eol.
  rewrite take_while_all.
  - destruct t as [|c t]; [done|]. cbn [length].
    rewrite reverse_seq_S. cbn [first_some].
    replace (1 + length t)%nat with (length (c :: t)) by done.
    by rewrite drop_all, take_ge.
  - intros x Hx. apply negb_true_iff, N.eqb_neq. by intros ->.
Qed.

(** [\s*(.+)$] on text without a newline: the group is the text without its
    leading whitespace, or its last character when it is all whitespace;
    either way it strips to what the text strips to. *)
Lemma match_group_tail_strip (rest : pystr) :
  rest ≠ [] → chr_newline ∉ rest →
  ∃ g, match_group_tail rest = Some g ∧ strip g = strip rest.
Proof.
  intros Hne Hnl. unfold match_group_tail.
  set (w := length (take_while is_space rest)).
  rewrite reverse_seq_S. cbn [first_some]. rewrite Nat.add_0_l.
  destruct (drop w rest) as [|d t] eqn:Hd.
  - (* all of [rest] is whitespace *)
    assert (drop_while is_space rest = []) as Hall.
    { by rewrite <- drop_take_while. }
    assert (w = length rest) as Hw.
    { apply drop_nil_inv in Hd. pose proof (take_while_subseteq is_space rest).
      assert (length (take_while is_space rest) ≤ length rest)%nat; [|unfold w in *; lia].
      clear. induction rest as [|x l IH]; simpl; [done|]. destruct (is_space x); simpl; lia. }
    destruct w as [|w']; [by destruct rest|].
    change (match_dot_plus_eol []) with (@None pystr).
    rewrite reverse_seq_S, Nat.add_0_l. cbn [first_some].
    assert (chr_newline ∉ drop w' rest) as Hnl'.
    { intros H. apply Hnl. by eapply subseteq_drop. }
    assert (drop w' rest ≠ []) as Hne'.
    { intros H%drop_nil_inv. lia. }
    rewrite (match_dot_plus_eol_all (drop w' rest)) by done.
    eexists. split; [done|].
    unfold strip, strip_by. rewrite Hall.
    assert (drop_while is_space (drop w' rest) = []) as ->; [|done].
    clear -Hall. revert w'. induction rest as [|x l IH]; intros [|n]; simpl in *; try done.
    destruct (is_space x); [|done]. by apply IH.
  - rewrite match_dot_plus_eol_all.
    + eexists. split; [done|]. unfold w in Hd. rewrite drop_take_while in Hd.
      by rewrite <- Hd, strip_drop_while.
    + done.
    + intros H. apply Hnl. rewrite <- Hd in H. by apply subseteq_drop in H.
Qed.

(** [re.search] stops at the first separator that has text after it. *)
Lemma re_search_label_first (pre rest : pystr) (c : char) :
  (∀ x, x ∈ pre → is_label_sep x = false) →
  is_label_sep c = true → rest ≠ [] → chr_newline ∉ rest →
  ∃ g, re_search_label (pre ++ c :: rest) = Some g ∧ strip g = strip rest.
Proof.
  intros Hpre Hc Hne Hnl. induction pre as [|x pre IH]; simpl.
  - rewrite Hc. destruct (match_group_tail_strip rest) as (g & -> & Hg); eauto.
  - rewrite (Hpre x) by left. apply IH. intros y Hy. apply Hpre. by right.
Qed.

Lemma re_search_label_none (s : pystr) :
  (∀ x, x ∈ s → is_label_sep x = false) → re_search_label s = None.
Proof.
  induction s as [|x s IH]; intros H; simpl; [done|].
  rewrite (H x) by left. apply IH. intros y Hy. apply H. by right.
Qed.

End LabelPrefix.

(** C5, as the specification words it, fails: the text is split at the first
    separator, not the last.  With the options [c] and [b - c], the answer
    [x: b - c] is matched to [b - c]; splitting at the last separator would
    leave [c]. *)
Lemma prefix_split_counterexample :
  pick_single_option (R:=ascii_runtime) (py "x: b - c") [py "c"; py "b - c"]
    = Ok (Some (py "b - c")) ∧
  spec_resolveSingle (R:=ascii_runtime) (py "x: b - c") [py "c"; py "b - c"]
    = Ok (Some (py "c")).
Proof. split; reflexivity. Qed.

(** C5, amended: when the normalized text is [pre ++ c :: rest] with [c]
    the first of the separators colon, hyphen, dash U+2013 and [rest] not
    empty, and neither the ordinal nor the exact match returned, the text is
    cut after [c]; the remainder, stripped of whitespace and of quote
    characters, is matched exactly against the normalized options, and when
    that fails it is the text of the containment step. *)
Theorem pick_single_option_prefix_first (R : Runtime) (text : pystr)
    (options : list pystr) (pre rest : pystr) (c : char) :
  options ≠ [] →
  _norm text = pre ++ c :: rest →
  (∀ x, x ∈ pre → is_label_sep x = false) →
  is_label_sep c = true →
  rest ≠ [] →
  ordinal (_norm text) options = Ok None →
  exact_match (_norm text) (_norm <$> options) options = Ok None →
  let ans2 := strip_by is_quote (strip rest) in
  fallback_text (_norm text) = ans2 ∧
  pick_single_option text options =
    (r <- exact_match ans2 (_norm <$> options) options;
     match r with
     | Some o => Ok (Some o)
     | None => containment ans2 (_norm <$> options) options
     end).
Proof.
  intros Hne Hn Hpre Hc Hrest Hord Hex ans2.
  destruct (re_search_label_first pre rest c) as (g & Hg & Hstrip); try done.
  { intros H. apply (norm_no_newline text). rewrite Hn.
    apply elem_of_app. right. by right. }
  split.
  - unfold fallback_text. by rewrite Hn, Hg, Hstrip.
  - unfold pick_single_option. destruct options as [|o l]; [done|].
    rewrite Hord. cbn [bind]. rewrite Hex. cbn [bind].
    by rewrite Hn, Hg, Hstrip.
Qed.

(** The dash of the pattern is U+2013: a label set off by it is cut, one set
    off by U+2014 is not, and the two options contained in the whole text
    leave the answer undecided. *)
Example label_en_dash :
  pick_single_option (R:=ascii_runtime) (py "label" ++ [8211%N] ++ py " B")
    [py "A"; py "B"; py "C"] = Ok (Some (py "B")).
Proof. reflexivity. Qed.

Example label_em_dash :
  pick_single_option (R:=ascii_runtime) (py "label" ++ [8212%N] ++ py " B")
    [py "A"; py "B"; py "C"] = Ok None.
Proof. reflexivity. Qed.

(** The pattern needs text after the separator: a separator that ends the
    text is no match, and one followed only by the next separator takes
    that separator as the remainder. *)
Example re_search_label_cases :
  re_search_label (py "x:") = None ∧
  re_search_label (py "x:-") = Some (py "-") ∧
  re_search_label (py "x:  ") = Some (py " ") ∧
  re_search_label (py "a-b: c") = Some (py "b: c").
Proof. repeat split. Qed.

Lemma pick_single_option_prefix_first_witness :
  pick_single_option (R:=ascii_runtime) (py "x: b - c") [py "c"; py "b - c"]
  = Ok (Some (py "b - c")).
Proof.
  destruct (pick_single_option_prefix_first ascii_runtime
              (py "x: b - c") [py "c"; py "b - c"] (py "x") (py " b - c") 58%N)
    as [_ ->]; try reflexivity; [done| |done].
  intros x Hx. apply list_elem_of_singleton in Hx. by subst.
Defined.

(** ** The reconciler: several options *)

Lemma parts_of_cons (p : pystr) (l : list pystr) :
  parts_of (p :: l) = (if nonblank p then [strip p] else []) ++ parts_of l.
Proof. unfold parts_of. simpl. by destruct (nonblank p). Qed.

Lemma parts_of_app (l k : list pystr) : parts_of (l ++ k) = parts_of l ++ parts_of k.
Proof. unfold parts_of. by rewrite List.filter_app, fmap_app. Qed.

Lemma parts_of_trimmed (l : list pystr) :
  parts_of l = List.filter (λ p, negb (bool_decide (p = []))) (strip <$> l).
Proof.
  induction l as [|p l IH]; [done|]. rewrite parts_of_cons, IH. simpl.
  unfold nonblank. by destruct (strip p).
Qed.

Lemma split_on_nonempty (p : char → bool) (s : pystr) :
  ∃ q qs, split_on p s = q :: qs.
Proof.
  induction s as [|c s (q & qs & IH)]; simpl; [by eexists _, _|].
  destruct (p c); [by eexists _, _|]. rewrite IH. by eexists _, _.
Qed.

Lemma re_split_delims_run (s : pystr) :
  re_split_delims true s = re_split_delims false s ∨
  [] :: re_split_delims true s = re_split_delims false s.
Proof. destruct s as [|c s]; simpl; [by left|]. destruct (is_delim c); auto. Qed.

(** [re.split] on runs of delimiters and the split at every delimiter
    differ in empty pieces only. *)
Lemma re_split_delims_split_on (s : pystr) :
  ∃ h t t', re_split_delims false s = h :: t ∧ split_on is_delim s = h :: t' ∧
            parts_of t = parts_of t'.
Proof.
  induction s as [|c s (h & t & t' & H1 & H2 & H3)]; simpl; [by eexists _, _, _|].
  destruct (is_delim c).
  - eexists _, _, _. split_and!; [done..|].
    destruct (re_split_delims_run s) as [E|E]; rewrite H2.
    + rewrite E, H1, !parts_of_cons. by rewrite H3.
    + rewrite H1 in E. injection E as <- <-. by rewrite parts_of_cons, H3.
  - rewrite H1, H2. by eexists _, _, _.
Qed.

Lemma split_parts_split_on (s : pystr) :
  split_parts s = parts_of (split_on is_delim s).
Proof.
  destruct (re_split_delims_split_on s) as (h & t & t' & H1 & H2 & H3).
  unfold split_parts. by rewrite H1, H2, !parts_of_cons, H3.
Qed.

Lemma strip_cons_space (c : char) (s : pystr) :
  is_space c = true → strip (c :: s) = strip s.
Proof. intros Hc. unfold strip, strip_by. simpl. by rewrite Hc. Qed.

Lemma drop_while_app {A} (p : A → bool) (s t : list A) :
  drop_while p (s ++ t) =
    match drop_while p s with
    | [] => drop_while p t
    | r => r ++ t
    end.
Proof.
  induction s as [|x s IH]; simpl; [by destruct (drop_while p t)|].
  by destruct (p x).
Qed.

Lemma strip_snoc_space (c : char) (s : pystr) :
  is_space c = true → strip (s ++ [c]) = strip s.
Proof.
  intros Hc. unfold strip, strip_by. rewrite drop_while_app.
  destruct (drop_while is_space s) as [|x r] eqn:E.
  - simpl. by rewrite Hc.
  - rewrite reverse_app. simpl. by rewrite Hc.
Qed.

Lemma nonblank_cons_space (c : char) (s : pystr) :
  is_space c = true → nonblank (c :: s) = nonblank s.
Proof. intros Hc. unfold nonblank. by rewrite strip_cons_space. Qed.

Lemma nonblank_snoc_space (c : char) (s : pystr) :
  is_space c = true → nonblank (s ++ [c]) = nonblank s.
Proof. intros Hc. unfold nonblank. by rewrite strip_snoc_space. Qed.

Lemma split_on_snoc_delim (p : char → bool) (s : pystr) (c : char) :
  p c = true → split_on p (s ++ [c]) = split_on p s ++ [[]].
Proof.
  intros Hc. induction s as [|x s IH]; simpl; [by rewrite Hc|].
  rewrite IH. destruct (p x); [done|].
  by destruct (split_on_nonempty p s) as (q & qs & ->).
Qed.

Lemma split_on_snoc_other (p : char → bool) (s : pystr) (c : char) :
  p c = false →
  ∃ init last, split_on p s = init ++ [last] ∧
               split_on p (s ++ [c]) = init ++ [last ++ [c]].
Proof.
  intros Hc. induction s as [|x s (init & last & H1 & H2)]; simpl.
  - rewrite Hc. by exists [], [].
  - rewrite H1, H2. destruct (p x).
    + by exists ([] :: init), last.
    + destruct init as [|q init]; simpl.
      * by exists [], (x :: last).
      * by exists ((x :: q) :: init), last.
Qed.

(** Whitespace around the text changes no piece. *)
Lemma parts_of_split_on_cons_space (c : char) (s : pystr) :
  is_space c = true →
  parts_of (split_on is_delim (c :: s)) = parts_of (split_on is_delim s).
Proof.
  intros Hc. simpl. destruct (is_delim c); [done|].
  destruct (split_on_nonempty is_delim s) as (q & qs & ->).
  by rewrite !parts_of_cons, nonblank_cons_space, strip_cons_space.
Qed.

Lemma parts_of_split_on_snoc_space (c : char) (s : pystr) :
  is_space c = true →
  parts_of (split_on is_delim (s ++ [c])) = parts_of (split_on is_delim s).
Proof.
  intros Hc. destruct (is_delim c) eqn:Hd.
  - rewrite split_on_snoc_delim, parts_of_app by done. apply app_nil_r.
  - destruct (split_on_snoc_other is_delim s c Hd) as (init & last & -> & ->).
    rewrite !parts_of_app, !parts_of_cons.
    by rewrite nonblank_snoc_space, strip_snoc_space.
Qed.

Lemma parts_of_split_on_lstrip (s : pystr) :
  parts_of (split_on is_delim (drop_while is_space s)) = parts_of (split_on is_delim s).
Proof.
  induction s as [|c s IH]; [done|]. cbn [drop_while].
  destruct (is_space c) eqn:Hc; [|done].
  by rewrite parts_of_split_on_cons_space.
Qed.

Lemma parts_of_split_on_app_space (s w : pystr) :
  forallb is_space w = true →
  parts_of (split_on is_delim (s ++ w)) = parts_of (split_on is_delim s).
Proof.
  revert s. induction w as [|c w IH]; intros s Hw; [by rewrite app_nil_r|].
  apply andb_prop in Hw as [Hc Hw].
  rewrite cons_middle, (assoc_L (++) s [c] w), IH by done.
  by apply parts_of_split_on_snoc_space.
Qed.

Lemma take_drop_while {A} (p : A → bool) (l : list A) :
  take_while p l ++ drop_while p l = l.
Proof. induction l as [|x l IH]; simpl; [done|]. destruct (p x); simpl; congruence. Qed.

Lemma take_while_forallb {A} (p : A → bool) (l : list A) :
  forallb p (take_while p l) = true.
Proof. induction l as [|x l IH]; simpl; [done|]. destruct (p x) eqn:E; simpl; [by rewrite E|done]. Qed.

Lemma forallb_reverse {A} (p : A → bool) (l : list A) :
  forallb p l = true → forallb p (reverse l) = true.
Proof.
  apply forallb_subseteq. intros x. by rewrite elem_of_reverse.
Qed.

Lemma parts_of_split_on_strip (s : pystr) :
  parts_of (split_on is_delim (strip s)) = parts_of (split_on is_delim s).
Proof.
  rewrite <- (parts_of_split_on_lstrip s).
  set (t := drop_while is_space s). unfold strip, strip_by. fold t.
  rewrite <- (reverse_involutive t) at 2.
  rewrite <- (take_drop_while is_space (reverse t)) at 2.
  rewrite reverse_app. symmetry. apply parts_of_split_on_app_space.
  apply forallb_reverse, take_while_forallb.
Qed.

(** The parts [pick_multi_options] works on are the trimmed non-blank
    pieces of the text, split at every delimiter. *)
Lemma split_parts_strip (text : pystr) : split_parts (strip text) = spec_pieces text.
Proof.
  rewrite split_parts_split_on, parts_of_split_on_strip. apply parts_of_trimmed.
Qed.

Section MultipleFacts.
Context {R : Runtime}.

Lemma dedup_seen_cons (seen l : list pystr) (x : pystr) :
  dedup_seen seen (x :: l) =
    if bool_decide (x ∈ seen) then dedup_seen seen l
    else x :: dedup_seen (seen ++ [x]) l.
Proof. done. Qed.

(** The loop of [pick_multi_options] resolves every part, keeps the matches
    that are not empty, and lists each once, in the order first seen. *)
Lemma pick_loop_resolve (parts options picked : list pystr) :
  pick_loop parts options picked =
    (rs <- resolve_each parts options;
     Ok (picked ++ dedup_seen picked (omap kept rs))).
Proof.
  revert picked. induction parts as [|p parts IH]; intros picked; simpl.
  - by rewrite app_nil_r.
  - destruct (pick_single_option p options) as [m|e]; [|done]. cbn [bind].
    assert (∀ picked', pick_loop parts options picked' =
              match resolve_each parts options with
              | Ok rs => Ok (picked' ++ dedup_seen picked' (omap kept rs))
              | Raise e => Raise e
              end) as IH' by (intros; apply IH).
    destruct m as [[|c o]|]; rewrite ?IH';
      destruct (resolve_each parts options) as [rs|e]; cbn [bind];
      try done; try (by destruct (bool_decide _)).
    change (omap kept (Some (c :: o) :: rs)) with ((c :: o) :: omap kept rs).
    rewrite dedup_seen_cons. destruct (decide (c :: o ∈ picked)) as [Hin|Hin].
    + by rewrite !bool_decide_eq_true_2 by done.
    + rewrite !bool_decide_eq_false_2 by done. by rewrite <- (assoc_L (++)).
Qed.

Lemma elem_of_dedup_seen (seen l : list pystr) (x : pystr) :
  x ∈ dedup_seen seen l ↔ x ∈ l ∧ x ∉ seen.
Proof.
  revert seen. induction l as [|y l IH]; intros seen; simpl.
  - split; [by intros ?%elem_of_nil|by intros [?%elem_of_nil _]].
  - case_bool_decide as Hy.
    + rewrite IH, elem_of_cons. split; [tauto|].
      intros [[->|?] ?]; done.
    + rewrite !elem_of_cons, IH, elem_of_app, list_elem_of_singleton.
      destruct (decide (x = y)) as [->|Hne]; tauto.
Qed.

Lemma NoDup_dedup_seen (seen l : list pystr) : NoDup (dedup_seen seen l).
Proof.
  revert seen. induction l as [|y l IH]; intros seen; simpl; [constructor|].
  case_bool_decide; [apply IH|]. constructor; [|apply IH].
  rewrite elem_of_dedup_seen, elem_of_app, list_elem_of_singleton. tauto.
Qed.

Lemma list_getitem_elem {A} (l : list A) (i : Z) (x : A) :
  list_getitem l i = Ok x → x ∈ l.
Proof.
  unfold list_getitem. destruct (_ && _); [|done].
  destruct (l !! _) eqn:E; [|done]. intros [= <-]. by eapply list_elem_of_lookup_2.
Qed.

Lemma exact_match_elem (ans : pystr) (norm_opts options : list pystr) (o : pystr) :
  exact_match ans norm_opts options = Ok (Some o) → o ∈ options.
Proof.
  unfold exact_match. destruct (find_index _ _); [|done].
  destruct (list_getitem options _) eqn:E; [|done]. intros [= <-].
  by eapply list_getitem_elem.
Qed.

Lemma containment_elem (ans : pystr) (norm_opts options : list pystr) (o : pystr) :
  containment ans norm_opts options = Ok (Some o) → o ∈ options.
Proof.
  unfold containment. destruct (containment_hits _ _) as [|i [|]]; try done.
  destruct (list_getitem options _) eqn:E; [|done]. intros [= <-].
  by eapply list_getitem_elem.
Qed.

Lemma ordinal_elem (ans : pystr) (options : list pystr) (o : pystr) :
  ordinal ans options = Ok (Some o) → o ∈ options.
Proof.
  unfold ordinal. destruct (isdigit ans); [|done].
  destruct (int_of_str ans) as [k|]; [|done]. cbn [bind].
  destruct (_ && _); [|done].
  destruct (list_getitem options _) eqn:E; [|done]. intros [= <-].
  by eapply list_getitem_elem.
Qed.

(** What [pick_single_option] returns is one of the options. *)
Lemma pick_single_option_elem (text : pystr) (options : list pystr) (o : pystr) :
  pick_single_option text options = Ok (Some o) → o ∈ options.
Proof.
  unfold pick_single_option. destruct options as [|o' l]; [done|].
  destruct (ordinal _ _) as [[x|]|] eqn:E1; cbn [bind]; [|clear E1|done].
  { intros [= <-]. by eapply ordinal_elem. }
  destruct (exact_match (_norm text) _ _) as [[x|]|] eqn:E2; cbn [bind]; [|clear E2|done].
  { intros [= <-]. by eapply exact_match_elem. }
  destruct (re_search_label _) as [g|].
  - destruct (exact_match _ _ _) as [[x|]|] eqn:E3; cbn [bind]; [| |done].
    + intros [= <-]. by eapply exact_match_elem.
    + apply containment_elem.
  - apply containment_elem.
Qed.

Lemma resolve_each_elem (pieces options : list pystr) (rs : list (option pystr)) (o : pystr) :
  resolve_each pieces options = Ok rs → Some o ∈ rs → o ∈ options.
Proof.
  revert rs. induction pieces as [|p ps IH]; intros rs; simpl.
  - intros [= <-]. by intros ?%elem_of_nil.
  - destruct (pick_single_option p options) as [m|] eqn:E; [|done]. cbn [bind].
    destruct (resolve_each ps options) as [rs'|]; [|done]. cbn [bind].
    intros [= <-]. intros [<-|H]%elem_of_cons; [|by eapply IH].
    by eapply pick_single_option_elem.
Qed.

Lemma elem_of_omap_kept (rs : list (option pystr)) (o : pystr) :
  o ∈ omap kept rs → o ≠ [] ∧ Some o ∈ rs.
Proof.
  rewrite list_elem_of_omap. intros ([[|c x]|] & Hin & Hk); by simplify_eq/=.
Qed.

End MultipleFacts.

Section MultipleAgreement.
Context (R : Runtime) {L : RuntimeLaws R}.

Lemma pick_loop_agrees (parts options picked : list pystr) :
  forallb plain_piece parts = true →
  forallb (forallb is_ascii) options = true →
  pick_loop (R:=R) parts options picked = pick_loop (R:=ascii_runtime) parts options picked.
Proof.
  intros Hp Ho. revert picked. induction parts as [|p parts IH]; intros picked; [done|].
  apply andb_prop in Hp as [[Hp1 Hp2%Nat.leb_le]%andb_prop Hps].
  cbn [pick_loop]. rewrite (pick_single_option_agrees R) by done.
  destruct (pick_single_option p options) as [[[|c o]|]|]; cbn [bind]; auto.
  destruct (bool_decide _); auto.
Qed.

Lemma json_loads_not_list (s : pystr) :
  head (drop_while is_json_ws s) ≠ Some 91%N →
  ∀ l, json_loads s ≠ Some (VList l).
Proof.
  intros Hh l Hl. apply json_loads_list in Hl as [rest Hrest].
  by rewrite Hrest in Hh.
Qed.

Lemma pick_multi_options_agrees (text : pystr) (options : list pystr) :
  head (drop_while is_json_ws (strip text)) ≠ Some 91%N →
  forallb plain_piece (split_parts (strip text)) = true →
  forallb (forallb is_ascii) options = true →
  pick_multi_options (R:=R) text options = pick_multi_options (R:=ascii_runtime) text options.
Proof.
  intros Hj Hp Ho. destruct options as [|o l]; [done|].
  pose proof (json_loads_not_list _ Hj) as Hnl.
  assert (pick_multi_options (R:=R) text (o :: l)
          = pick_multi_split (R:=R) (strip text) (o :: l)) as ->.
  { unfold pick_multi_options.
    destruct (json_loads (strip text)) as [[]|] eqn:E; try done. by destruct (Hnl l0). }
  unfold pick_multi_options. cbn [json_loads ascii_runtime]. unfold pick_multi_split.
  destruct (split_parts (strip text)) as [|p ps]; [done|].
  by rewrite pick_loop_agrees.
Qed.

End MultipleAgreement.

(** C7, as the specification words it, fails on an option that is the empty
    string: a piece resolved to it is dropped like an unmatched one.  With
    the options [""] and [A], the text [1, 1] resolves both pieces to the
    first option, and the code returns [None] where the wording gives the
    list of that option. *)
Lemma pick_multi_options_counterexample :
  pick_multi_options (R:=ascii_runtime) (py "1, 1") [py ""; py "A"] = Ok None ∧
  pick_single_option (R:=ascii_runtime) (py "1") [py ""; py "A"] = Ok (Some (py "")) ∧
  spec_resolveMultiple_split (R:=ascii_runtime) (py "1, 1") [py ""; py "A"]
    = Ok (Some [py ""]).
Proof. split_and!; reflexivity. Qed.

(** C7, amended: on text that [json.loads] does not read as a list and
    with options not empty, [pick_multi_options] splits the text at commas,
    semicolons, slashes and newlines, trims the pieces and drops the blank
    ones, resolves each piece with [pick_single_option] (an exception of
    which it passes on), drops the pieces without a match and those matched
    to the empty string, and lists each match once in the order first seen;
    the result is that list, or [None] when it is empty.  A list it returns
    is duplicate-free, not empty, and made of options.  So [A; C] gives A, C
    out of A, B, C, also when a value comes twice. *)
Theorem pick_multi_options_split (R : Runtime) (L : RuntimeLaws R) :
  (∀ text options,
     options ≠ [] →
     (∀ l, json_loads (strip text) ≠ Some (VList l)) →
     pick_multi_options text options = resolveMultiple_split text options) ∧
  (∀ text options picked,
     resolveMultiple_split text options = Ok (Some picked) →
     picked ≠ [] ∧ NoDup picked ∧ ∀ o, o ∈ picked → o ∈ options ∧ o ≠ []) ∧
  pick_multi_options (py "A; C") [py "A"; py "B"; py "C"]
    = Ok (Some [py "A"; py "C"]) ∧
  pick_multi_options (py "A; C, a;c / A") [py "A"; py "B"; py "C"]
    = Ok (Some [py "A"; py "C"]).
Proof.
  split_and!.
  - intros text options Hne Hj. unfold pick_multi_options, resolveMultiple_split.
    destruct options as [|o l]; [done|].
    assert (pick_multi_split (strip text) (o :: l) =
            (rs <- resolve_each (spec_pieces text) (o :: l);
             Ok (or_none (first_seen (omap kept rs))))) as Hsplit.
    { unfold pick_multi_split. rewrite split_parts_strip.
      destruct (spec_pieces text) as [|p ps] eqn:E; [done|].
      rewrite pick_loop_resolve. by destruct (resolve_each _ _). }
    destruct (json_loads (strip text)) as [[]|] eqn:E; try done. by destruct (Hj l0).
  - intros text options picked. unfold resolveMultiple_split.
    destruct options as [|o l]; [done|].
    destruct (resolve_each _ _) as [rs|] eqn:E; [|done]. cbn [bind].
    unfold or_none, first_seen.
    destruct (dedup_seen [] (omap kept rs)) as [|x xs] eqn:Hd; [done|].
    intros [= <-]. split_and!; [done|rewrite <- Hd; apply NoDup_dedup_seen|].
    intros y Hy. rewrite <- Hd in Hy.
    apply elem_of_dedup_seen in Hy as [[Hne Hin]%elem_of_omap_kept _].
    split; [|done]. by eapply resolve_each_elem.
  - rewrite (pick_multi_options_agrees R) by (done || reflexivity). reflexivity.
  - rewrite (pick_multi_options_agrees R) by (done || reflexivity). reflexivity.
Qed.

Lemma pick_multi_options_split_witness :
  pick_multi_options (R:=ascii_runtime) (py "A; C") [py "A"; py "B"; py "C"]
  = Ok (Some [py "A"; py "C"]).
Proof.
  apply (pick_multi_options_split ascii_runtime ascii_runtime_laws).
Defined.

(** ** The answer builder *)

Lemma dict_set_split {V} (d : pydict V) (k : pystr) (v : V) :
  ∃ before after,
    dict_set d k v = before ++ (k, v) :: after ∧
    (k ∉ before.*1) ∧
    ((d = before ++ after ∧ after = []) ∨ (∃ old, d = before ++ (k, old) :: after)).
Proof.
  induction d as [|[k' v'] d (before & after & IH1 & IH2 & IH3)]; simpl.
  - exists [], []. split_and!; [done|apply not_elem_of_nil|by left].
  - case_bool_decide as Hk.
    + subst k'. exists [], d. split_and!; [done|apply not_elem_of_nil|].
      right. by exists v'.
    + exists ((k', v') :: before), after. rewrite IH1. split_and!; [done| |].
      * rewrite fmap_cons. apply not_elem_of_cons. split; [by intros ->|done].
      * destruct IH3 as [[-> ->]|[old ->]]; [by left|right; by exists old].
Qed.

Lemma dict_get_set {V} (d : pydict V) (k : pystr) (v : V) :
  dict_get (dict_set d k v) k = Some v.
Proof.
  induction d as [|[k' v'] d IH]; simpl.
  - by rewrite bool_decide_eq_true_2.
  - case_bool_decide as Hk; simpl.
    + by rewrite bool_decide_eq_true_2.
    + by rewrite bool_decide_eq_false_2.
Qed.

(** Keys stay distinct under [d[k] = v]. *)
Lemma dict_set_keys {V} (d : pydict V) (k : pystr) (v : V) :
  (dict_set d k v).*1 = if bool_decide (k ∈ d.*1) then d.*1 else d.*1 ++ [k].
Proof.
  induction d as [|[k' v'] d IH]; [done|].
  cbn [dict_set]. destruct (decide (k' = k)) as [->|Hne].
  - rewrite bool_decide_eq_true_2 by done. rewrite !fmap_cons. cbn [fst].
    by rewrite bool_decide_eq_true_2 by left.
  - rewrite bool_decide_eq_false_2 by done. rewrite !fmap_cons, IH. cbn [fst].
    destruct (decide (k ∈ d.*1)) as [Hin|Hin].
    + rewrite !bool_decide_eq_true_2; [done|by right|done].
    + rewrite !bool_decide_eq_false_2; [done| |done].
      apply not_elem_of_cons. split; [by intros ->|done].
Qed.

Lemma dict_set_NoDup {V} (d : pydict V) (k : pystr) (v : V) :
  NoDup d.*1 → NoDup (dict_set d k v).*1.
Proof.
  intros Hnd. rewrite dict_set_keys. case_bool_decide; [done|].
  apply NoDup_app. split_and!; [done| |apply NoDup_singleton].
  intros x Hx ->%list_elem_of_singleton. done.
Qed.

Section BuilderFacts.
Context {R : Runtime} {L : RuntimeLaws R}.

Lemma str_lower_literal (s : string) :
  forallb is_ascii (py s) = true → str_lower (py s) = ascii_lower <$> py s.
Proof. apply str_lower_ascii. Qed.

(** The answers of a builder keep distinct keys. *)
Lemma set_answer_NoDup (b : Builder) (eid : pystr) (value : pyval) :
  NoDup (answers b).*1 → NoDup (answers (set_answer b eid value).1).*1.
Proof.
  intros Hnd.
  assert ((set_answer b eid value).1 = b ∨
          ∃ v, (set_answer b eid value).1 = with_answer b eid v) as [->| [v ->]].
  { unfold set_answer. repeat case_match; simpl; eauto. }
  - done.
  - by apply dict_set_NoDup.
Qed.

End BuilderFacts.

Section BuilderProperties.
Context (R : Runtime) (L : RuntimeLaws R).

(** C4: for a multiple_choice or dropdown question without the free answer,
    a string that is not one of the options is not stored: in strict mode
    [set_answer] raises, otherwise it returns; the builder, and with it the
    stored answers, is what it was. *)
Theorem set_answer_undeclared_value (b : Builder) (id v : pystr) (q : Question) :
  q_by_id b !! id = Some q →
  q_type q = py "multiple_choice" ∨ q_type q = py "dropdown" →
  v ∉ choices_of q →
  q_other_allowed q = false →
  set_answer b id (VStr v) =
    (b, if strict b then Raise (ValueError_invalid_option id) else Ok ()) ∧
  answers (set_answer b id (VStr v)).1 = answers b.
Proof.
  intros Hq Ht Hv Ho.
  assert (set_answer b id (VStr v) =
          (b, if strict b then Raise (ValueError_invalid_option id) else Ok ())) as ->;
    [|done].
  unfold set_answer. rewrite Hq, Ho.
  assert (bool_decide (str_lower (q_type q) ∈
            [py "multiple_choice"; py "dropdown"; py "choice"]) = true) as ->.
  { destruct Ht as [-> | ->]; rewrite str_lower_literal by reflexivity; reflexivity. }
  rewrite bool_decide_eq_false_2 by done. by destruct (strict b).
Qed.

(** C2: for a checkboxes question [id] whose options hold A but not X and
    which allows the free answer, [set_answer(id, [A, X])] followed by
    [build_pairs] gives, for that question, the pair of the field key and
    the sentinel, then the pair of the free-answer key and X, then the pair
    of the field key and A; the pairs of the other answers stand before and
    after them. *)
Theorem checkbox_other_round_trip (b : Builder) (id : pystr) (q : Question) :
  NoDup (answers b).*1 →
  q_by_id b !! id = Some q →
  q_type q = py "checkboxes" →
  py "A" ∈ choices_of q →
  py "X" ∉ choices_of q →
  q_other_allowed q = true →
  q_other_value q = None ∨ q_other_value q = Some OTHER_OPTION →
  let key := py "entry." ++ id in
  let other_key :=
    match q_other_response_key q with
    | Some (c :: k) => c :: k
    | _ => key ++ py ".other_option_response"
    end in
  let three := [(key, py "__other_option__"); (other_key, py "X"); (key, py "A")] in
  let b' := (set_answer b id (VList [VStr (py "A"); VStr (py "X")])).1 in
  (set_answer b id (VList [VStr (py "A"); VStr (py "X")])).2 = Ok () ∧
  ∃ stored before after,
    answers b' = before ++ (id, stored) :: after ∧
    (id ∉ before.*1) ∧ (id ∉ after.*1) ∧
    entry_pairs b' id stored = three ∧
    (build_pairs b').2 =
      (match fbzx b with [] => [] | _ => [(py "fbzx", fbzx b)] end) ++
      concat ((λ '(eid, val), entry_pairs b' eid val) <$> before) ++
      three ++
      concat ((λ '(eid, val), entry_pairs b' eid val) <$> after).
Proof.
  intros Hnd Hq Ht HA HX Ho Hov key other_key three.
  set (stored := VDict [(KEY_OTHER, VStr (py "X"));
                        (KEY_SELECTED, VList [VStr (py "A")])]).
  assert (set_answer b id (VList [VStr (py "A"); VStr (py "X")])
          = (with_answer b id stored, Ok ())) as ->.
  { unfold set_answer. rewrite Hq, Ho, Ht.
    rewrite str_lower_literal by reflexivity.
    rewrite bool_decide_eq_false_2 by compute_done.
    rewrite bool_decide_eq_true_2 by compute_done.
    cbn [List.filter fmap list_fmap]. rewrite !py_str_str.
    cbn [List.filter]. rewrite bool_decide_eq_true_2 by done.
    rewrite bool_decide_eq_false_2 by done. reflexivity. }
  cbn [fst snd]. split; [done|].
  destruct (dict_set_split (answers b) id stored) as (before & after & Hset & Hb & Hshape).
  assert (entry_pairs (with_answer b id stored) id stored = three) as Hpairs.
  { unfold entry_pairs. cbn [q_by_id with_answer]. rewrite Hq.
    cbn [mbind option_bind fmap option_fmap option_map default].
    unfold stored. change (dict_get _ KEY_OTHER) with (Some (VStr (py "X"))).
    change (dict_get _ KEY_SELECTED) with (Some (VList [VStr (py "A")])).
    cbn [fmap list_fmap]. rewrite !py_str_str.
    assert (default OTHER_OPTION (q_other_value q) = py "__other_option__") as ->.
    { by destruct Hov as [-> | ->]. }
    done. }
  exists stored, before, after. split_and!; [done|done| |done|].
  - (* the key occurs once *)
    pose proof (dict_set_NoDup (answers b) id stored Hnd) as Hnd'.
    rewrite Hset, fmap_app, fmap_cons in Hnd'.
    apply NoDup_app in Hnd' as (_ & _ & Hnd'). by apply NoDup_cons in Hnd' as [? _].
  - unfold build_pairs. cbn [snd fbzx answers with_answer]. rewrite Hset.
    rewrite fmap_app, fmap_cons, concat_app, concat_cons. by rewrite Hpairs.
Qed.

End BuilderProperties.

Lemma set_answer_undeclared_value_witness :
  set_answer (R:=ascii_runtime) (sample_builder true) (py "777") (VStr (py "Maybe"))
  = (sample_builder true, Raise (ValueError_invalid_option (py "777"))).
Proof.
  apply (set_answer_undeclared_value ascii_runtime ascii_runtime_laws
           (sample_builder true) (py "777") (py "Maybe") sample_dropdown);
    [reflexivity|by right|compute_done|reflexivity].
Defined.

Example set_answer_undeclared_lenient :
  set_answer (R:=ascii_runtime) (sample_builder false) (py "777") (VStr (py "Maybe"))
  = (sample_builder false, Ok ()).
Proof. reflexivity. Qed.

Lemma checkbox_other_round_trip_witness :
  (set_answer (R:=ascii_runtime) (sample_builder true) (py "555")
     (VList [VStr (py "A"); VStr (py "X")])).2 = Ok ().
Proof.
  apply (checkbox_other_round_trip ascii_runtime ascii_runtime_laws
           (sample_builder true) (py "555") sample_checkboxes);
    [constructor|reflexivity|reflexivity|compute_done|compute_done|reflexivity|by right].
Defined.

(** The whole payload of the round trip, after an earlier answer. *)
Example checkbox_other_payload :
  let b1 := (set_answer (R:=ascii_runtime) (sample_builder true) (py "777")
               (VStr (py "No"))).1 in
  let b2 := (set_answer (R:=ascii_runtime) b1 (py "555")
               (VList [VStr (py "A"); VStr (py "X")])).1 in
  build_pairs (R:=ascii_runtime) b2 =
    (py "https://example.org/formResponse",
     [(py "fbzx", py "tok");
      (py "entry.777", py "No");
      (py "entry.555", py "__other_option__");
      (py "entry.555.other_option_response", py "X");
      (py "entry.555", py "A")]).
Proof. vm_compute. reflexivity. Qed.

(** ** The extractor: the items root *)

Section ItemsRoot.

Lemma qualifies_spec (node : list pyval) :
  qualifies node = true ↔ (2 ≤ str_count node ∧ length node / 3 ≤ str_count node)%nat.
Proof. unfold qualifies. rewrite Nat.leb_le. lia. Qed.

Lemma str_count_le (node : list pyval) : (str_count node ≤ length node)%nat.
Proof.
  unfold str_count. induction node as [|v node IH]; simpl; [done|].
  destruct (string_bearing v); simpl; lia.
Qed.

Lemma qualifies_nonempty (node : list pyval) : qualifies node = true → node ≠ [].
Proof. intros [H _]%qualifies_spec ->. cbn in H. lia. Qed.

Lemma better_root_taken (best node : list pyval) :
  qualifies node = true → (length best < length node)%nat →
  better_root best node = node.
Proof.
  intros Hq Hl. unfold better_root. destruct node; [done|].
  rewrite Hq. by apply Nat.ltb_lt in Hl as ->.
Qed.

Lemma better_root_kept (best node : list pyval) :
  qualifies node = false ∨ (length node ≤ length best)%nat →
  better_root best node = best.
Proof.
  intros H. unfold better_root. destruct node; [done|].
  destruct H as [->|H]; [done|]. apply Nat.ltb_ge in H as ->.
  by rewrite andb_false_r.
Qed.

(** The scan keeps the first of the longest qualifying nodes, if one is
    longer than the node it starts from. *)
Lemma fold_better_root (l : list (list pyval)) (best0 : list pyval) :
  let r := fold_left better_root l best0 in
  (r = best0 ∧ ∀ n, n ∈ l → qualifies n = true → (length n ≤ length best0)%nat) ∨
  (∃ before after,
     l = before ++ r :: after ∧ qualifies r = true ∧
     (length best0 < length r)%nat ∧
     (∀ n, n ∈ before → qualifies n = true → (length n < length r)%nat) ∧
     (∀ n, n ∈ after → qualifies n = true → (length n ≤ length r)%nat)).
Proof.
  revert best0. induction l as [|node l IH]; intros best0; cbn zeta.
  - left. split; [done|]. by intros n ?%elem_of_nil.
  - cbn [fold_left].
    destruct (qualifies node) eqn:Hq;
      [destruct (decide (length best0 < length node)%nat) as [Hlt|Hge]|].
    + (* [node] becomes the best *)
      rewrite better_root_taken by done.
      destruct (IH node) as [[Hr Hall]|(before & after & Hl & Hqr & Hlen & Hb & Ha)].
      * right. exists [], l. rewrite Hr. split_and!; try done.
        by intros n ?%elem_of_nil.
      * right. exists (node :: before), after. rewrite Hl at 1.
        split_and!; try done; [lia|].
        intros n [->|Hn]%elem_of_cons; [done|by apply Hb].
    + rewrite better_root_kept by (right; lia).
      destruct (IH best0) as [[Hr Hall]|(before & after & Hl & Hqr & Hlen & Hb & Ha)].
      * left. split; [done|]. intros n [->|Hn]%elem_of_cons ?; [lia|by apply Hall].
      * right. exists (node :: before), after. rewrite Hl at 1.
        split_and!; try done.
        intros n [->|Hn]%elem_of_cons ?; [lia|by apply Hb].
    + rewrite better_root_kept by (by left).
      destruct (IH best0) as [[Hr Hall]|(before & after & Hl & Hqr & Hlen & Hb & Ha)].
      * left. split; [done|]. intros n [->|Hn]%elem_of_cons ?; [congruence|by apply Hall].
      * right. exists (node :: before), after. rewrite Hl at 1.
        split_and!; try done.
        intros n [->|Hn]%elem_of_cons ?; [congruence|by apply Hb].
Qed.

End ItemsRoot.

(** C9, as the specification words it, fails: the threshold of the code
    is the integer quotient [len(node)//3], one third rounded down.  In the
    sample document the node of eight entries has two that hold a string,
    fewer than a third of eight; the code takes it as the items root, where
    the wording takes the node of three entries, the largest with at least
    a third. *)
Lemma guess_items_root_third_counterexample :
  _guess_items_root sample_scan_document = Ok sample_scan_items ∧
  length sample_scan_items = 8%nat ∧ str_count sample_scan_items = 2%nat ∧
  qualifies sample_scan_items = true ∧
  spec_qualifies sample_scan_items = false ∧
  sample_scan_small ∈ _walk_lists sample_scan_document ∧
  spec_qualifies sample_scan_small = true ∧
  (∀ node, node ∈ _walk_lists sample_scan_document → spec_qualifies node = true →
           (length node ≤ length sample_scan_small)%nat).
Proof.
  split_and!; try reflexivity.
  - vm_compute. right. by left.
  - intros node Hin. vm_compute in Hin.
    repeat (apply elem_of_cons in Hin as [->|Hin]; [by vm_compute|]).
    by apply elem_of_nil in Hin.
Qed.

(** C9, amended: when the fixed path [1][1] does not give a non-empty list,
    the extractor scans the nodes of the walk.  A node qualifies when the
    number of its entries that are lists holding a non-blank string is at
    least 2 and at least [len(node)//3], the integer quotient of its length
    by three.  The result is the longest qualifying node, the first of them
    when several are as long; when no node qualifies the call raises
    instead of returning a list. *)
Theorem guess_items_root_scan (data : pyval) :
  (∀ x l, _dig data [1; 1] ≠ Ok (VList (x :: l))) →
  (∀ node, qualifies node = true ↔
           (2 ≤ str_count node ∧ length node / 3 ≤ str_count node)%nat) ∧
  ((∀ node, node ∈ _walk_lists data → qualifies node = false) →
   _guess_items_root data = Raise RuntimeError_no_items_root) ∧
  (∀ node, node ∈ _walk_lists data → qualifies node = true →
     ∃ best before after,
       _guess_items_root data = Ok best ∧
       _walk_lists data = before ++ best :: after ∧
       qualifies best = true ∧
       (∀ n, n ∈ before → qualifies n = true → (length n < length best)%nat) ∧
       (∀ n, n ∈ after → qualifies n = true → (length n ≤ length best)%nat)).
Proof.
  intros Hfixed. split; [apply qualifies_spec|].
  assert (_guess_items_root data =
          match fold_left better_root (_walk_lists data) [] with
          | [] => Raise RuntimeError_no_items_root
          | best => Ok best
          end) as ->.
  { unfold _guess_items_root. destruct (dig_ok data [1; 1]) as [cand Hc].
    rewrite Hc. cbn [bind]. destruct cand as [| | | | |[|x l]|]; try done.
    by destruct (Hfixed x l). }
  pose proof (fold_better_root (_walk_lists data) []) as Hfold. cbn zeta in Hfold.
  split.
  - intros Hnone.
    destruct Hfold as [[-> _]|(before & after & Hl & Hq & _)]; [done|].
    rewrite Hnone in Hq; [done|]. rewrite Hl at 2. apply elem_of_app. right. left.
  - intros node Hin Hq.
    destruct Hfold as [[_ Hall]|(before & after & Hl & Hqr & _ & Hb & Ha)].
    + specialize (Hall node Hin Hq). apply qualifies_nonempty in Hq.
      destruct node; [done|]. cbn in Hall. lia.
    + exists (fold_left better_root (_walk_lists data) []), before, after.
      split_and!; try done.
      destruct (fold_left better_root (_walk_lists data) []) eqn:E; [|done].
      by apply qualifies_nonempty in Hqr.
Qed.

Lemma guess_items_root_scan_witness :
  ∃ best before after,
    _guess_items_root sample_scan_document = Ok best ∧
    _walk_lists sample_scan_document = before ++ best :: after ∧
    qualifies best = true ∧
    (∀ n, n ∈ before → qualifies n = true → (length n < length best)%nat) ∧
    (∀ n, n ∈ after → qualifies n = true → (length n ≤ length best)%nat).
Proof.
  destruct (guess_items_root_scan sample_scan_document) as (_ & _ & H); [done|].
  apply (H sample_scan_items); [|reflexivity].
  vm_compute. repeat constructor.
Defined.

Example guess_items_root_scanned :
  _guess_items_root sample_scan_document = Ok sample_scan_items.
Proof. reflexivity. Qed.

(** The integer quotient at work: two entries with a string out of eight
    qualify, 8 // 3 being 2. *)
Example qualifies_two_of_eight :
  length sample_scan_items = 8%nat ∧ str_count sample_scan_items = 2%nat ∧
  qualifies sample_scan_items = true.
Proof. repeat split. Qed.

Example guess_items_root_fixed_path :
  _guess_items_root sample_document
  = Ok [sample_scale_item; sample_choice_item].
Proof. reflexivity. Qed.

Example guess_items_root_raises :
  _guess_items_root (VList [VStr (py "a"); VList [VStr (py "b")]])
  = Raise RuntimeError_no_items_root.
Proof. reflexivity. Qed.

(** ** The extractor: blank options *)

Lemma bind_ok {A B} (m : result A) (f : A → result B) (b : B) :
  bind m f = Ok b → ∃ a, m = Ok a ∧ f a = Ok b.
Proof. destruct m as [a|e]; [|done]. intros H. by exists a. Qed.

Section BlankOptions.
Context {R : Runtime}.

Lemma filter_nonblank_all (l : list pystr) (c : pystr) :
  c ∈ List.filter (λ c, negb (is_blank_option c)) l → nonblank c = true.
Proof.
  rewrite list_elem_of_In, filter_In. intros [_ H].
  unfold is_blank_option in H. by rewrite negb_involutive in H.
Qed.

Lemma existsb_blank (l : list pystr) :
  existsb is_blank_option l = true ↔ ∃ c, c ∈ l ∧ nonblank c = false.
Proof.
  rewrite existsb_exists. unfold is_blank_option.
  split; intros (c & Hc & Hb); exists c; rewrite ?list_elem_of_In in *;
    (split; [done|]); by destruct (nonblank c).
Qed.

Lemma existsb_blank_false (l : list pystr) (c : pystr) :
  existsb is_blank_option l = false → c ∈ l → nonblank c = true.
Proof.
  intros Hl Hc. destruct (nonblank c) eqn:E; [done|].
  assert (existsb is_blank_option l = true) as Ht; [|congruence].
  apply existsb_blank. by exists c.
Qed.

(** What the block on the free answer does to a question. *)
Lemma mark_other_spec (raw : Question) :
  unmarked raw →
  let q := mark_other raw (q_entry_id raw) in
  let marked := choice_like (q_type raw) && existsb is_blank_option (choices_of raw) in
  q_type q = q_type raw ∧ q_entry_id q = q_entry_id raw ∧
  q_other_allowed q = marked ∧
  (choice_like (q_type q) = true → ∀ c, c ∈ choices_of q → nonblank c = true) ∧
  choices_of q =
    (if marked then List.filter (λ c, negb (is_blank_option c)) (choices_of raw)
     else choices_of raw) ∧
  q_other_value q = (if marked then Some OTHER_OPTION else None) ∧
  q_other_response_key q =
    (if marked && truthy (q_entry_id q)
     then Some (py "entry." ++ default [] (q_entry_id q) ++ py ".other_option_response")
     else None).
Proof.
  intros (Ha & Hv & Hk). cbn zeta. unfold mark_other.
  destruct (choice_like (q_type raw)) eqn:Hc;
    [destruct (existsb is_blank_option (choices_of raw)) eqn:Hb|]; cbn.
  - split_and!; try done.
    + intros _ c. apply filter_nonblank_all.
    + by destruct (truthy (q_entry_id raw)).
  - rewrite Hc. split_and!; try done. intros _ c. by apply existsb_blank_false.
  - rewrite Hc. by split_and!.
Qed.

(** A question that a pass of the loop appends is the question built from
    the item, after the block on the free answer. *)
Lemma parse_item_question (meta : Meta) (idx idx' : nat) (it : pyval) (q : Question) :
  parse_item meta idx it = Ok (idx', Some q) →
  ∃ raw, built_from it raw ∧ q = mark_other raw (q_entry_id raw).
Proof.
  unfold parse_item. destruct (negb (is_list it)); [done|].
  intros (text & _ & H)%bind_ok. destruct text as [[|c text]|]; try done.
  apply bind_ok in H as (qtype & Hty & H).
  apply bind_ok in H as (required & _ & H).
  apply bind_ok in H as ([choices cols] & Hch & H).
  destruct (m_entry_ids meta !! idx) as [e|];
    apply bind_ok in H as (eid & _ & H); injection H as _ <-;
    (eexists {| q_entry_id := eid |}; split; [|done]);
    (split_and!; [done..|by exists cols]).
Qed.

Lemma parse_items_question (meta : Meta) (idx : nat) (items : list pyval)
    (qs : list Question) (q : Question) :
  parse_items meta idx items = Ok qs → q ∈ qs →
  ∃ it raw, it ∈ items ∧ built_from it raw ∧ q = mark_other raw (q_entry_id raw).
Proof.
  revert idx qs. induction items as [|it items IH]; intros idx qs; simpl.
  - intros [= <-]. by intros ?%elem_of_nil.
  - intros ([idx' oq] & Hit & H)%bind_ok.
    apply bind_ok in H as (qs' & Hqs' & H). injection H as <-.
    assert (q ∈ qs' → ∃ it0 raw, it0 ∈ it :: items ∧ built_from it0 raw ∧
                        q = mark_other raw (q_entry_id raw)) as Hrest.
    { intros Hq. destruct (IH _ _ Hqs' Hq) as (it0 & raw & ? & ? & ?).
      exists it0, raw. split_and!; [by right|done..]. }
    destruct oq as [q'|]; [|done].
    intros [->|Hq]%elem_of_cons; [|auto].
    destruct (parse_item_question _ _ _ _ _ Hit) as (raw & ? & ?).
    exists it, raw. split_and!; [left|done..].
Qed.

Lemma parse_questions (meta : Meta) (data : pyval) (fm : FormModel) :
  parse meta data = Ok fm →
  ∃ items, _guess_items_root data = Ok items ∧
           parse_items meta 0 items = Ok (fm_questions fm).
Proof.
  unfold parse. intros (t & _ & H)%bind_ok.
  apply bind_ok in H as (d & _ & H).
  apply bind_ok in H as (items & Hroot & H).
  apply bind_ok in H as (qs & Hqs & H). injection H as <-. by exists items.
Qed.

End BlankOptions.

(** C3, as the specification words it, fails: the blank options are removed
    only from questions of the types multiple_choice, dropdown, checkboxes
    and choice.  The linear scale of the sample document keeps its empty
    option. *)
Lemma parse_blank_option_counterexample :
  ∃ fm,
    parse (R:=ascii_runtime) sample_meta sample_document = Ok fm ∧
    sample_unmarked_question ∈ fm_questions fm ∧
    q_type sample_unmarked_question = py "linear_scale" ∧
    py "" ∈ choices_of sample_unmarked_question ∧
    nonblank (py "") = false.
Proof.
  eexists. split_and!; [reflexivity|left|reflexivity|left|reflexivity].
Qed.

(** C3, amended: every question [parse] returns is the result of the block
    on the free answer applied to the question built from the item.  When
    its type is one of multiple_choice, dropdown, checkboxes and choice, its
    options hold no blank string: the blank ones of the item are filtered
    out, and if there was one, [other_allowed] is set, [other_value] is the
    sentinel, and [other_response_key] is set exactly when the entry id is
    known.  A question of another type keeps the options of the item, and
    none of the three keys is set when no option was removed. *)
Theorem parse_blank_options_marked (R : Runtime) (meta : Meta) (data : pyval)
    (fm : FormModel) (q : Question) :
  parse meta data = Ok fm →
  q ∈ fm_questions fm →
  ∃ items it raw,
    _guess_items_root data = Ok items ∧ it ∈ items ∧ built_from it raw ∧
    q_type q = q_type raw ∧ q_entry_id q = q_entry_id raw ∧
    let marked := choice_like (q_type raw) && existsb is_blank_option (choices_of raw) in
    (marked = true ↔
       choice_like (q_type raw) = true ∧ ∃ c, c ∈ choices_of raw ∧ nonblank c = false) ∧
    q_other_allowed q = marked ∧
    (choice_like (q_type q) = true → ∀ c, c ∈ choices_of q → nonblank c = true) ∧
    choices_of q =
      (if marked then List.filter (λ c, negb (is_blank_option c)) (choices_of raw)
       else choices_of raw) ∧
    q_other_value q = (if marked then Some OTHER_OPTION else None) ∧
    q_other_response_key q =
      (if marked && truthy (q_entry_id q)
       then Some (py "entry." ++ default [] (q_entry_id q) ++ py ".other_option_response")
       else None).
Proof.
  intros (items & Hroot & Hitems)%parse_questions Hq.
  destruct (parse_items_question _ _ _ _ _ Hitems Hq) as (it & raw & Hit & Hraw & ->).
  exists items, it, raw.
  destruct (mark_other_spec raw (proj1 Hraw)) as (H1 & H2 & H3 & H4 & H5 & H6 & H7).
  split_and!; try done. cbn zeta. split_and!; try done.
  by rewrite andb_true_iff, existsb_blank.
Qed.

Lemma parse_blank_options_marked_witness :
  ∃ fm, parse (R:=ascii_runtime) sample_meta sample_document = Ok fm ∧
  ∃ items it raw,
    _guess_items_root sample_document = Ok items ∧ it ∈ items ∧ built_from it raw ∧
    q_type sample_marked_question = q_type raw ∧
    q_entry_id sample_marked_question = q_entry_id raw ∧
    let marked := choice_like (q_type raw) && existsb is_blank_option (choices_of raw) in
    (marked = true ↔
       choice_like (q_type raw) = true ∧ ∃ c, c ∈ choices_of raw ∧ nonblank c = false) ∧
    q_other_allowed sample_marked_question = marked ∧
    (choice_like (q_type sample_marked_question) = true →
     ∀ c, c ∈ choices_of sample_marked_question → nonblank c = true) ∧
    choices_of sample_marked_question =
      (if marked then List.filter (λ c, negb (is_blank_option c)) (choices_of raw)
       else choices_of raw) ∧
    q_other_value sample_marked_question = (if marked then Some OTHER_OPTION else None) ∧
    q_other_response_key sample_marked_question =
      (if marked && truthy (q_entry_id sample_marked_question)
       then Some (py "entry." ++ default [] (q_entry_id sample_marked_question)
                  ++ py ".other_option_response")
       else None).
Proof.
  destruct (parse (R:=ascii_runtime) sample_meta sample_document) as [fm|] eqn:Hfm;
    [|by vm_compute in Hfm].
  exists fm. split; [done|].
  apply (parse_blank_options_marked ascii_runtime sample_meta sample_document fm
           sample_marked_question Hfm).
  vm_compute in Hfm. injection Hfm as <-. right. left.
Defined.

Example parse_sample_questions :
  fm_questions <$> (match parse (R:=ascii_runtime) sample_meta sample_document with
                    | Ok fm => Some fm
                    | Raise _ => None
                    end)
  = Some [sample_unmarked_question; sample_marked_question].
Proof. reflexivity. Qed.

(** ** The concrete runs do not depend on the runtime *)

(** The inputs of the counterexamples are ASCII text that is no JSON
    document and holds no character reference, so the laws settle what the
    code does with them on every runtime. *)
Section EveryRuntime.
Context (R : Runtime) (L : RuntimeLaws R).

Example prefix_split_every_runtime :
  pick_single_option (py "x: b - c") [py "c"; py "b - c"] = Ok (Some (py "b - c")).
Proof.
  rewrite (pick_single_option_agrees R) by (reflexivity || (vm_compute; lia)).
  reflexivity.
Qed.

Example reconciler_examples_every_runtime :
  pick_single_option (py "b") [py "A"; py "B"; py "C"] = Ok (Some (py "B")) ∧
  pick_single_option (py "prefix: B") [py "A"; py "B"; py "C"] = Ok (Some (py "B")) ∧
  pick_single_option (py "xyz") [py "A"; py "B"; py "C"] = Ok None.
Proof.
  split_and!;
    rewrite (pick_single_option_agrees R) by (reflexivity || (vm_compute; lia));
    reflexivity.
Qed.

Example empty_option_every_runtime :
  pick_multi_options (py "1, 1") [py ""; py "A"] = Ok None.
Proof.
  rewrite (pick_multi_options_agrees R) by (done || reflexivity). reflexivity.
Qed.

Example parse_sample_every_runtime :
  fm_questions <$> (match parse sample_meta sample_document with
                    | Ok fm => Some fm
                    | Raise _ => None
                    end)
  = Some [sample_unmarked_question; sample_marked_question].
Proof.
  cbv -[html_unescape].
  rewrite !html_unescape_plain by compute_done. reflexivity.
Qed.

End EveryRuntime.

(* ===================================================================== *)
(** * Further properties of the code *)
(* ===================================================================== *)

(** ** The reconciler *)

Section ReconcilerMore.
Context {R : Runtime}.

Lemma find_index_Some {A} (p : A → bool) (l : list A) (i : nat) :
  find_index p l = Some i →
  (∃ x, l !! i = Some x ∧ p x = true) ∧
  (∀ j y, (j < i)%nat → l !! j = Some y → p y = false).
Proof.
  revert i. induction l as [|x l IH]; intros i; simpl; [done|].
  destruct (p x) eqn:Hx.
  - intros [= <-]. split; [by exists x|]. intros j y Hj. lia.
  - destruct (find_index p l) as [k|]; simpl; [|done].
    intros [= <-]. destruct (IH k eq_refl) as [(y & Hy & Hp) Hmin].
    split; [by exists y|]. intros [|j] z Hj; simpl; [by intros [= <-]|].
    apply Hmin. lia.
Qed.

Lemma find_index_exists {A} (p : A → bool) (l : list A) (x : A) :
  x ∈ l → p x = true → ∃ i, find_index p l = Some i.
Proof.
  induction l as [|y l IH]; [by intros ?%elem_of_nil|].
  intros [->|Hx]%elem_of_cons Hp; simpl.
  - rewrite Hp. by eexists.
  - destruct (p y); [by eexists|]. destruct (IH Hx Hp) as [i ->]. by eexists.
Qed.

(** The exact step returns the first option whose normalized form is the
    text. *)
Lemma exact_match_first (ans : pystr) (options : list pystr) (o : pystr) :
  o ∈ options → _norm o = ans →
  ∃ i o', exact_match ans (_norm <$> options) options = Ok (Some o') ∧
          options !! i = Some o' ∧ _norm o' = ans ∧
          (∀ j y, (j < i)%nat → options !! j = Some y → _norm y ≠ ans).
Proof.
  intros Ho Hn. unfold exact_match.
  destruct (find_index_exists (λ no, bool_decide (ans = no)) (_norm <$> options) (_norm o))
    as [i Hi].
  { by apply list_elem_of_fmap_2. }
  { by apply bool_decide_eq_true_2. }
  rewrite Hi. apply find_index_Some in Hi as [(no & Hno & Heq%bool_decide_eq_true_1) Hmin].
  rewrite list_lookup_fmap in Hno.
  destruct (options !! i) as [o'|] eqn:Ho'; [|done]. simplify_eq/=.
  destruct (list_getitem_in_range options (Z.of_nat i)) as (x & Hx & ->).
  { apply lookup_lt_Some in Ho'. lia. }
  rewrite Nat2Z.id in Hx. simplify_eq. exists i, o'. split_and!; try done.
  intros j y Hj Hy Hny. specialize (Hmin j (_norm y) Hj).
  rewrite list_lookup_fmap, Hy in Hmin. specialize (Hmin eq_refl).
  by apply bool_decide_eq_false_1 in Hmin.
Qed.

Lemma mapM_decimal_None (s : pystr) (c : char) :
  c ∈ s → chr_decimal c = None → mapM chr_decimal s = None.
Proof.
  induction s as [|d s IH]; [by intros ?%elem_of_nil|].
  intros [->|Hc]%elem_of_cons Hn; cbn.
  - by rewrite Hn.
  - destruct (chr_decimal d); [|done]. cbn. by rewrite IH.
Qed.

(** After [_ws.sub], a whitespace character is a space that follows no
    space. *)
Lemma collapse_ws_from_spaces (b : bool) (s : pystr) (c : char) :
  c ∈ collapse_ws_from b s → is_space c = true → c = chr_space.
Proof.
  revert b. induction s as [|d s IH]; intros b; simpl; [by intros ?%elem_of_nil|].
  destruct (is_space d) eqn:Hd.
  - destruct b; [apply IH|]. intros [->|H]%elem_of_cons; [done|by eapply IH].
  - intros [->|H]%elem_of_cons; [congruence|by eapply IH].
Qed.

Lemma collapse_ws_from_head (s : pystr) :
  head (collapse_ws_from true s) ≠ Some chr_space.
Proof.
  induction s as [|d s IH]; simpl; [done|].
  destruct (is_space d) eqn:Hd; [done|]. simpl. intros [= ->]. done.
Qed.

Lemma collapse_ws_from_no_pair (b : bool) (s : pystr) (i : nat) :
  collapse_ws_from b s !! i = Some chr_space →
  collapse_ws_from b s !! S i ≠ Some chr_space.
Proof.
  revert b i. induction s as [|d s IH]; intros b i; simpl; [done|].
  destruct (is_space d) eqn:Hd.
  - destruct b; [apply IH|]. destruct i as [|i]; simpl; [|apply IH].
    intros _. pose proof (collapse_ws_from_head s) as Hh.
    by destruct (collapse_ws_from true s).
  - destruct i as [|i]; simpl; [|apply IH]. intros [= ->]. done.
Qed.

End ReconcilerMore.

(** X1: what [pick_single_option] returns is one of the options it was
    given, as an element of the list; it makes up no text of its own. *)
Theorem pick_single_option_among_options (R : Runtime) (text : pystr)
    (options : list pystr) (o : pystr) :
  pick_single_option text options = Ok (Some o) →
  ∃ i, options !! i = Some o.
Proof. intros H%pick_single_option_elem. by apply list_elem_of_lookup_1. Qed.

Lemma pick_single_option_among_options_witness :
  ∃ i, [py "Apple pie"; py "Banana"] !! i = Some (py "Apple pie").
Proof.
  apply (pick_single_option_among_options ascii_runtime (py "app")
           [py "Apple pie"; py "Banana"] (py "Apple pie")).
  reflexivity.
Defined.

(** X2: a text that is not a string of digits and whose normalized form is
    that of one of the options is answered with the first option of that
    normalized form; when the options are distinct after normalization this
    is the option itself, so every such option is found by its own text,
    whatever its case and spacing. *)
Theorem pick_single_option_exact (R : Runtime) (text : pystr)
    (options : list pystr) (o : pystr) :
  o ∈ options →
  _norm text = _norm o →
  isdigit (_norm text) = false →
  ∃ i o',
    pick_single_option text options = Ok (Some o') ∧
    options !! i = Some o' ∧ _norm o' = _norm text ∧
    (∀ j y, (j < i)%nat → options !! j = Some y → _norm y ≠ _norm text) ∧
    (NoDup (_norm <$> options) → o' = o).
Proof.
  intros Ho Hn Hd.
  destruct (exact_match_first (_norm text) options o Ho (eq_sym Hn))
    as (i & o' & Hex & Hi & Hn' & Hmin).
  exists i, o'. split_and!; try done.
  - unfold pick_single_option. destruct options as [|x l]; [by apply elem_of_nil in Ho|].
    unfold ordinal. rewrite Hd. cbn [bind]. by rewrite Hex.
  - intros Hnd. apply list_elem_of_lookup_1 in Ho as [k Hk].
    assert (i = k) as ->; [|congruence].
    eapply NoDup_lookup; [done|..]; rewrite list_lookup_fmap.
    + by rewrite Hi.
    + rewrite Hk. simpl. congruence.
Qed.

Lemma pick_single_option_exact_witness :
  ∃ i o',
    pick_single_option (R:=ascii_runtime) (py "  new   YORK ")
      [py "Boston"; py "New York"; py "Newark"] = Ok (Some o') ∧
    [py "Boston"; py "New York"; py "Newark"] !! i = Some o' ∧
    _norm (R:=ascii_runtime) o' = _norm (R:=ascii_runtime) (py "  new   YORK ") ∧
    (∀ j y, (j < i)%nat → [py "Boston"; py "New York"; py "Newark"] !! j = Some y →
            _norm (R:=ascii_runtime) y ≠ _norm (R:=ascii_runtime) (py "  new   YORK ")) ∧
    (NoDup (_norm (R:=ascii_runtime) <$> [py "Boston"; py "New York"; py "Newark"]) →
     o' = py "New York").
Proof.
  apply (pick_single_option_exact ascii_runtime (py "  new   YORK ")
           [py "Boston"; py "New York"; py "Newark"] (py "New York"));
    [right; left|reflexivity|reflexivity].
Defined.

(** X3: [pick_single_option] raises [ValueError], instead of returning
    [None], when the normalized text passes [isdigit] and [int] refuses it:
    one of its characters is no decimal digit, or it has more digits than
    the interpreter converts. *)
Theorem pick_single_option_raises (R : Runtime) (text : pystr) (options : list pystr) :
  options ≠ [] →
  isdigit (_norm text) = true →
  (∃ c, c ∈ _norm text ∧ chr_decimal c = None) ∨
  (int_max_str_digits ≠ 0%nat ∧ (int_max_str_digits < length (_norm text))%nat) →
  pick_single_option text options = Raise ValueError_int_literal.
Proof.
  intros Hne Hd Hbad.
  assert (int_of_str (_norm text) = Raise ValueError_int_literal) as Hint.
  { unfold int_of_str. case_bool_decide; [done|].
    destruct Hbad as [(c & Hc & Hn)|[Hz Hlen]].
    - destruct (_ && _); [done|]. by rewrite (mapM_decimal_None _ c).
    - apply Nat.eqb_neq in Hz as ->. by apply Nat.ltb_lt in Hlen as ->. }
  unfold pick_single_option, ordinal. destruct options; [done|].
  by rewrite Hd, Hint.
Qed.

Lemma pick_single_option_raises_witness :
  pick_single_option (R:=superscript_runtime) [178%N] [py "A"; py "B"]
  = Raise ValueError_int_literal.
Proof.
  apply (pick_single_option_raises superscript_runtime [178%N] [py "A"; py "B"]);
    [done|reflexivity|].
  left. exists 178%N. split; [vm_compute; left|reflexivity].
Defined.

Example pick_single_option_raises_too_long :
  pick_single_option (R:=ascii_runtime) (replicate 4301 49%N) [py "A"; py "B"]
  = Raise ValueError_int_literal.
Proof. vm_compute. reflexivity. Qed.

(** X4: in a normalized text every whitespace character is a space, and no
    two spaces stand side by side: tabs, newlines and no-break spaces are
    gone and every run of whitespace is one space. *)
Theorem norm_single_spaced (R : Runtime) (s : pystr) :
  (∀ c, c ∈ _norm s → is_space c = true → c = chr_space) ∧
  (∀ i, _norm s !! i = Some chr_space → _norm s !! S i ≠ Some chr_space).
Proof.
  split.
  - intros c. apply collapse_ws_from_spaces.
  - intros i. apply collapse_ws_from_no_pair.
Qed.

Section ReconcilerExceptions.
Context {R : Runtime}.

Lemma list_getitem_nat_ok {A} (l : list A) (i : nat) :
  (i < length l)%nat → ∃ x, list_getitem l (Z.of_nat i) = Ok x.
Proof.
  intros Hi. destruct (list_getitem_in_range l (Z.of_nat i)) as (x & _ & ->); [lia|].
  by exists x.
Qed.

Lemma indices_from_bound {A} (p : A → bool) (k : nat) (l : list A) (i : nat) :
  i ∈ indices_from p k l → (k ≤ i < k + length l)%nat.
Proof.
  revert k. induction l as [|x l IH]; intros k; simpl; [by intros ?%elem_of_nil|].
  destruct (p x).
  - intros [->|H%IH]%elem_of_cons; lia.
  - intros H%IH. lia.
Qed.

Lemma exact_match_no_raise (ans : pystr) (options : list pystr) :
  ∃ r, exact_match ans (_norm <$> options) options = Ok r.
Proof.
  unfold exact_match. destruct (find_index _ _) as [i|] eqn:E; [|by eexists].
  apply find_index_Some in E as [(x & Hx%lookup_lt_Some & _) _].
  rewrite length_fmap in Hx.
  destruct (list_getitem_nat_ok options i Hx) as [o ->]. by eexists.
Qed.

Lemma containment_no_raise (ans : pystr) (options : list pystr) :
  ∃ r, containment ans (_norm <$> options) options = Ok r.
Proof.
  unfold containment. destruct (containment_hits _ _) as [|i [|]] eqn:E; try by eexists.
  assert (i ∈ containment_hits ans (_norm <$> options)) as Hi by (rewrite E; left).
  apply indices_from_bound in Hi. rewrite length_fmap in Hi.
  destruct (list_getitem_nat_ok options i) as [o ->]; [lia|]. by eexists.
Qed.

Lemma ordinal_raise (ans : pystr) (options : list pystr) (e : exn) :
  ordinal ans options = Raise e → e = ValueError_int_literal ∧ isdigit ans = true.
Proof.
  unfold ordinal. destruct (isdigit ans); [|done].
  unfold int_of_str.
  assert (∀ k, (k' <- Ok k;
                if (1 <=? k') && (k' <=? Z.of_nat (length options))
                then o <- list_getitem options (k' - 1); Ok (Some o)
                else Ok None) ≠ Raise e) as Hk.
  { intros k. cbn [bind]. destruct (_ && _) eqn:Hr; [|done].
    apply andb_true_iff in Hr as [?%Z.leb_le ?%Z.leb_le].
    destruct (list_getitem_in_range options (k - 1)) as (x & _ & ->); [lia|done]. }
  case_bool_decide; [by intros [= <-]|].
  destruct (_ && _); [by intros [= <-]|].
  destruct (mapM _ _); [|by intros [= <-]].
  intros Hr. by apply Hk in Hr.
Qed.

Lemma pick_single_option_raise (text : pystr) (options : list pystr) (e : exn) :
  pick_single_option text options = Raise e →
  e = ValueError_int_literal ∧ isdigit (_norm text) = true.
Proof.
  unfold pick_single_option. destruct options as [|o' l]; [done|].
  destruct (ordinal _ _) as [[x|]|] eqn:E1; cbn [bind]; [done| |].
  2:{ intros [= <-]. by apply ordinal_raise in E1. }
  destruct (exact_match_no_raise (_norm text) (o' :: l)) as [r ->]. cbn [bind].
  destruct r; [done|].
  destruct (re_search_label _) as [g|].
  - destruct (exact_match_no_raise (strip_by is_quote (strip g)) (o' :: l)) as [r ->].
    cbn [bind]. destruct r; [done|].
    destruct (containment_no_raise (strip_by is_quote (strip g)) (o' :: l)) as [r ->]. done.
  - destruct (containment_no_raise (_norm text) (o' :: l)) as [r ->]. done.
Qed.

Lemma resolve_each_raise (parts options : list pystr) (e : exn) :
  resolve_each parts options = Raise e →
  e = ValueError_int_literal ∧ ∃ p, p ∈ parts ∧ isdigit (_norm p) = true.
Proof.
  induction parts as [|p parts IH]; simpl; [done|].
  destruct (pick_single_option p options) as [r|e'] eqn:E; cbn [bind].
  - destruct (resolve_each parts options) as [rs|e'] eqn:E'; cbn [bind]; [done|].
    intros [= <-]. destruct (IH eq_refl) as [-> (q & Hq & Hd)].
    split; [done|]. exists q. split; [by right|done].
  - intros [= <-]. apply pick_single_option_raise in E as [-> Hd].
    split; [done|]. exists p. split; [by left|done].
Qed.

Lemma pick_loop_sound (parts options picked : list pystr) :
  pick_loop parts options [] = Ok picked →
  NoDup picked ∧ ∀ o, o ∈ picked → o ∈ options ∧ o ≠ [].
Proof.
  rewrite pick_loop_resolve.
  destruct (resolve_each parts options) as [rs|] eqn:E; [|done]. cbn [bind].
  intros [= <-]. split; [apply NoDup_dedup_seen|].
  intros o [Ho _]%elem_of_dedup_seen.
  apply list_elem_of_omap in Ho as (r & Hr & Hk).
  destruct r as [[|c x]|]; simplify_eq/=. split; [|done].
  by eapply resolve_each_elem.
Qed.

Lemma or_none_Some (picked l : list pystr) :
  or_none picked = Some l → l = picked ∧ picked ≠ [].
Proof. destruct picked; [done|]. by intros [= <-]. Qed.

Lemma pick_multi_split_sound (ans : pystr) (options picked : list pystr) :
  pick_multi_split ans options = Ok (Some picked) →
  picked ≠ [] ∧ NoDup picked ∧ ∀ o, o ∈ picked → o ∈ options ∧ o ≠ [].
Proof.
  unfold pick_multi_split. destruct (split_parts ans) as [|p ps]; [done|].
  destruct (pick_loop _ _ _) as [l|] eqn:E; [|done]. cbn [bind].
  intros [= [-> Hne]%or_none_Some]. split; [done|]. by eapply pick_loop_sound.
Qed.

Lemma pick_multi_split_raise (ans : pystr) (options : list pystr) (e : exn) :
  pick_multi_split ans options = Raise e →
  e = ValueError_int_literal ∧ ∃ p, p ∈ split_parts ans ∧ isdigit (_norm p) = true.
Proof.
  unfold pick_multi_split. destruct (split_parts ans) as [|p ps]; [done|].
  rewrite pick_loop_resolve.
  destruct (resolve_each _ _) as [rs|e'] eqn:E; [done|]. cbn [bind].
  intros [= <-]. by apply resolve_each_raise in E.
Qed.

Lemma pick_multi_options_picked (text : pystr) (options picked : list pystr) (o : pystr) :
  pick_multi_options text options = Ok (Some picked) →
  o ∈ picked → o ∈ options ∧ o ≠ [].
Proof.
  unfold pick_multi_options. destruct options as [|o0 l]; [done|].
  assert (∀ ans, pick_multi_split ans (o0 :: l) = Ok (Some picked) →
                 o ∈ picked → o ∈ o0 :: l ∧ o ≠ []) as Hsplit.
  { intros ans (_ & _ & H)%pick_multi_split_sound. apply H. }
  destruct (json_loads _) as [[| | | | |val|]|]; try apply Hsplit.
  destruct (pick_loop _ _ _) as [p|] eqn:E; [|apply Hsplit].
  intros [= [-> Hne]%or_none_Some]. by eapply pick_loop_sound.
Qed.

End ReconcilerExceptions.

(** X5: whatever [pick_multi_options] returns as a list, on the JSON path
    or the split path, is not empty, names no option twice, and is made of
    options of the question that are not the empty string. *)
Theorem pick_multi_options_sound (R : Runtime) (text : pystr)
    (options picked : list pystr) :
  pick_multi_options text options = Ok (Some picked) →
  picked ≠ [] ∧ NoDup picked ∧ ∀ o, o ∈ picked → o ∈ options ∧ o ≠ [].
Proof.
  unfold pick_multi_options. destruct options as [|o0 l]; [done|].
  destruct (json_loads _) as [[| | | | |val|]|]; try apply pick_multi_split_sound.
  destruct (pick_loop _ _ _) as [p|] eqn:E; [|apply pick_multi_split_sound].
  intros [= [-> Hne]%or_none_Some]. split; [done|]. by eapply pick_loop_sound.
Qed.

Lemma pick_multi_options_sound_witness :
  [py "C"; py "A"] ≠ [] ∧ NoDup [py "C"; py "A"] ∧
  ∀ o, o ∈ [py "C"; py "A"] → o ∈ [py "A"; py "B"; py "C"] ∧ o ≠ [].
Proof.
  apply (pick_multi_options_sound ascii_runtime (py "c / a; C")
           [py "A"; py "B"; py "C"] [py "C"; py "A"]).
  reflexivity.
Defined.

(** X6: the only exception the two resolvers let out is the [ValueError]
    of [int]: every index they use on the options is in range.  A single
    answer raises only when its normalized text passes [isdigit]; a multiple
    answer only when one of the split parts does, and never because of an
    item of a JSON array. *)
Theorem resolvers_raise_only_int (R : Runtime) (text : pystr)
    (options : list pystr) (e : exn) :
  (pick_single_option text options = Raise e →
     e = ValueError_int_literal ∧ isdigit (_norm text) = true) ∧
  (pick_multi_options text options = Raise e →
     e = ValueError_int_literal ∧
     ∃ p, p ∈ split_parts (strip text) ∧ isdigit (_norm p) = true).
Proof.
  split; [apply pick_single_option_raise|].
  unfold pick_multi_options. destruct options as [|o0 l]; [done|].
  destruct (json_loads _) as [[| | | | |val|]|]; try apply pick_multi_split_raise.
  destruct (pick_loop _ _ _) as [p|]; [done|apply pick_multi_split_raise].
Qed.

(** X7: an answer that [json.loads] reads as an array is resolved item by
    item, each through [str]: when no item raises, the result is the
    non-empty matches in the order first seen, and [None] when there is
    none, without the text being split; when an item raises, the exception
    is dropped and the text is split instead. *)
Theorem pick_multi_options_json (R : Runtime) (text : pystr)
    (options : list pystr) (val : list pyval) :
  options ≠ [] →
  json_loads (strip text) = Some (VList val) →
  (∀ rs, resolve_each (py_str <$> val) options = Ok rs →
     pick_multi_options text options = Ok (or_none (first_seen (omap kept rs)))) ∧
  (∀ e, resolve_each (py_str <$> val) options = Raise e →
     pick_multi_options text options = pick_multi_split (strip text) options).
Proof.
  intros Hne Hj. unfold pick_multi_options. destruct options as [|o0 l]; [done|].
  rewrite Hj, pick_loop_resolve. split.
  - by intros rs ->.
  - by intros e ->.
Qed.

Lemma pick_multi_options_json_witness :
  (∀ rs, resolve_each (R:=sample_json_runtime)
           (py_str (Runtime:=sample_json_runtime) <$>
              [VStr (py "C"); VStr (py "x"); VStr (py "A"); VStr (py "C")])
           [py "A"; py "B"; py "C"] = Ok rs →
     pick_multi_options (R:=sample_json_runtime) sample_json_text [py "A"; py "B"; py "C"]
     = Ok (or_none (first_seen (omap kept rs)))) ∧
  (∀ e, resolve_each (R:=sample_json_runtime)
          (py_str (Runtime:=sample_json_runtime) <$>
             [VStr (py "C"); VStr (py "x"); VStr (py "A"); VStr (py "C")])
          [py "A"; py "B"; py "C"] = Raise e →
     pick_multi_options (R:=sample_json_runtime) sample_json_text [py "A"; py "B"; py "C"]
     = pick_multi_split (R:=sample_json_runtime) (strip sample_json_text)
         [py "A"; py "B"; py "C"]).
Proof.
  apply (pick_multi_options_json sample_json_runtime sample_json_text
           [py "A"; py "B"; py "C"]
           [VStr (py "C"); VStr (py "x"); VStr (py "A"); VStr (py "C")]);
    [done|reflexivity].
Defined.

Example pick_multi_options_json_run :
  pick_multi_options (R:=sample_json_runtime) sample_json_text [py "A"; py "B"; py "C"]
  = Ok (Some [py "C"; py "A"]).
Proof. reflexivity. Qed.

Lemma resolvers_raise_only_int_witness :
  ValueError_int_literal = ValueError_int_literal ∧
  isdigit (R:=superscript_runtime) (_norm (R:=superscript_runtime) [178%N]) = true.
Proof.
  apply (proj1 (resolvers_raise_only_int superscript_runtime [178%N] [py "A"; py "B"]
                  ValueError_int_literal)).
  reflexivity.
Defined.

(** ** The answer builder, further *)

Lemma index_questions_fold (qs : list Question) (m : gmap pystr Question) (eid : pystr) :
  eid ≠ [] →
  fold_left (λ m q,
    match q_entry_id q with
    | Some (c :: e) => <[c :: e := q]> m
    | _ => m
    end) qs m !! eid =
  match last (filter (λ q, q_entry_id q = Some eid) qs) with
  | Some q => Some q
  | None => m !! eid
  end.
Proof.
  intros Hne. revert m. induction qs as [|q qs IH]; intros m; [done|].
  cbn [fold_left]. rewrite IH, filter_cons. clear IH.
  destruct (decide (q_entry_id q = Some eid)) as [Hq|Hq].
  - rewrite Hq. destruct eid as [|c e]; [done|].
    rewrite last_cons. destruct (last _); [done|]. by rewrite lookup_insert_eq.
  - destruct (last _); [done|].
    destruct (q_entry_id q) as [[|c e]|]; try done.
    rewrite lookup_insert_ne; [done|congruence].
Qed.

Lemma index_questions_empty_id (qs : list Question) (m : gmap pystr Question) :
  m !! ([] : pystr) = None →
  fold_left (λ m q,
    match q_entry_id q with
    | Some (c :: e) => <[c :: e := q]> m
    | _ => m
    end) qs m !! ([] : pystr) = None.
Proof.
  revert m. induction qs as [|q qs IH]; intros m Hm; [done|].
  cbn [fold_left]. apply IH. destruct (q_entry_id q) as [[|c e]|]; try done.
  by rewrite lookup_insert_ne.
Qed.

(** X8: the index [__init__] builds maps an entry id to the last question
    that carries it; a question without an id, or with the empty one, is
    not indexed. *)
Theorem index_questions_lookup (qs : list Question) (eid : pystr) :
  index_questions qs !! eid =
    if bool_decide (eid = []) then None
    else last (filter (λ q, q_entry_id q = Some eid) qs).
Proof.
  unfold index_questions. case_bool_decide as He.
  - subst eid. by apply index_questions_empty_id.
  - rewrite index_questions_fold by done. by destruct (last _).
Qed.

Lemma dict_get_set_ne {V} (d : pydict V) (k k' : pystr) (v : V) :
  k' ≠ k → dict_get (dict_set d k v) k' = dict_get d k'.
Proof.
  intros Hne. induction d as [|[k0 v0] d IH]; simpl.
  - by rewrite bool_decide_eq_false_2 by done.
  - destruct (decide (k0 = k)) as [->|Hk].
    + rewrite bool_decide_eq_true_2 by done. simpl.
      by rewrite !bool_decide_eq_false_2 by done.
    + rewrite (bool_decide_eq_false_2 (k0 = k)) by done. simpl. by rewrite IH.
Qed.

Lemma dict_set_values {V} (P : V → Prop) (d : pydict V) (k : pystr) (v : V) :
  Forall P d.*2 → P v → Forall P (dict_set d k v).*2.
Proof.
  intros Hd Hv. induction d as [|[k0 v0] d IH]; simpl.
  - by constructor.
  - apply Forall_cons in Hd as [H0 Hd]. case_bool_decide; simpl.
    + by constructor.
    + constructor; [done|by apply IH].
Qed.

Section BuilderMore.
Context {R : Runtime}.

Lemma stored_other_selected_str (s : pystr) (sel : list pyval) :
  stored_answer (VDict [(KEY_OTHER, VStr s);
                        (KEY_SELECTED, VList ((λ x, VStr (py_str x)) <$> sel))]).
Proof.
  replace ((λ x, VStr (py_str x)) <$> sel) with (VStr <$> (py_str <$> sel)).
  - constructor.
  - by rewrite <- list_fmap_compose.
Qed.

(** The four ways a call of [set_answer] ends. *)
Lemma set_answer_cases (b : Builder) (eid : pystr) (v : pyval) :
  (set_answer b eid v = (b, Raise (ValueError_unknown_entry eid)) ∧
     strict b = true ∧ q_by_id b !! eid = None) ∨
  (set_answer b eid v = (b, Raise (ValueError_invalid_option eid)) ∧
     strict b = true ∧ is_Some (q_by_id b !! eid)) ∨
  (set_answer b eid v = (b, Ok ()) ∧ strict b = false) ∨
  (∃ v', set_answer b eid v = (with_answer b eid v', Ok ()) ∧
         stored_answer v' ∧ is_Some (q_by_id b !! eid)).
Proof.
  unfold set_answer. destruct (q_by_id b !! eid) as [q|] eqn:Hq.
  2:{ destruct (strict b); [left|right; right; left]; done. }
  assert (is_Some (Some q)) as HS by done. revert HS. generalize (Some q). intros oq HS.
  assert (∀ v', stored_answer v' →
            ∃ v'', (with_answer b eid v', Ok ()) = (with_answer b eid v'', Ok ()) ∧
                   stored_answer v'' ∧ is_Some oq) as Hst by eauto.
  assert (strict b = true →
            (b, Raise (ValueError_invalid_option eid)) =
            (b, @Raise unit (ValueError_invalid_option eid)) ∧
            strict b = true ∧ is_Some oq) as Hrej by eauto.
  repeat case_match; simplify_eq;
    first [ right; right; right; apply Hst;
            first [ apply stored_other_selected_str
                  | constructor
                  | cbn [app]; constructor ]
          | right; left; by apply Hrej
          | right; right; left; done ].
Qed.

End BuilderMore.

(** X9: [set_answer] raises in strict mode only, and a call that raises
    leaves the builder as it was; the exception is the [ValueError] on an
    unknown entry id when the id is not indexed, and the one on an invalid
    option otherwise. *)
Theorem set_answer_raise_atomic (R : Runtime) (b b' : Builder) (eid : pystr)
    (v : pyval) (e : exn) :
  set_answer b eid v = (b', Raise e) →
  b' = b ∧ strict b = true ∧
  ((q_by_id b !! eid = None ∧ e = ValueError_unknown_entry eid) ∨
   (is_Some (q_by_id b !! eid) ∧ e = ValueError_invalid_option eid)).
Proof.
  destruct (set_answer_cases b eid v) as [(-> & Hs & Hq)|[(-> & Hs & Hq)|[(-> & Hs)|(v' & -> & _)]]];
    intros [= <- <-] || intros [=]; split_and!; auto.
Qed.

Lemma set_answer_raise_atomic_witness :
  sample_builder true = sample_builder true ∧ strict (sample_builder true) = true ∧
  ((q_by_id (sample_builder true) !! py "999" = None ∧
    ValueError_unknown_entry (py "999") = ValueError_unknown_entry (py "999")) ∨
   (is_Some (q_by_id (sample_builder true) !! py "999") ∧
    ValueError_unknown_entry (py "999") = ValueError_invalid_option (py "999"))).
Proof.
  apply (set_answer_raise_atomic ascii_runtime (sample_builder true) (sample_builder true)
           (py "999") (VStr (py "Yes")) (ValueError_unknown_entry (py "999"))).
  reflexivity.
Defined.

(** X10: a call of [set_answer] touches the answer of its own entry id
    only: mode, action, token and index stay, the answer of every other id
    stays, and the order of the answered ids stays, with the id of the call
    added last when it was not answered before. *)
Theorem set_answer_frame (R : Runtime) (b : Builder) (eid : pystr) (v : pyval) :
  let b' := (set_answer b eid v).1 in
  strict b' = strict b ∧ action b' = action b ∧ fbzx b' = fbzx b ∧
  q_by_id b' = q_by_id b ∧
  (∀ k, k ≠ eid → dict_get (answers b') k = dict_get (answers b) k) ∧
  ((answers b').*1 = (answers b).*1 ∨
   ((eid ∉ (answers b).*1) ∧ (answers b').*1 = (answers b).*1 ++ [eid])).
Proof.
  destruct (set_answer_cases b eid v) as [(-> & _)|[(-> & _)|[(-> & _)|(v' & -> & _)]]];
    cbn [fst]; split_and!; auto.
  - intros k Hk. cbn [answers with_answer]. by apply dict_get_set_ne.
  - cbn [answers with_answer]. rewrite dict_set_keys. case_bool_decide; auto.
Qed.

(** X11: every builder a program can hold keeps to the shapes the comment
    in [__init__] lists: each answered id is an id of the index, no id is
    answered twice, and each stored value is a string, a list of strings,
    or the record of a free answer, alone or with a list of strings. *)
Theorem reachable_answers (R : Runtime) (qs : list Question) (b : Builder) :
  reachable qs b →
  q_by_id b = index_questions qs ∧
  NoDup (answers b).*1 ∧
  Forall stored_answer (answers b).*2 ∧
  (∀ k, k ∈ (answers b).*1 → is_Some (index_questions qs !! k)).
Proof.
  induction 1 as [a f s|b eid v Hr (Hidx & Hnd & Hst & Hk)].
  - split_and!; [done|constructor|constructor|]. by intros k ?%elem_of_nil.
  - destruct (set_answer_cases b eid v)
      as [(-> & _)|[(-> & _)|[(-> & _)|(v' & -> & Hv & Hq)]]]; cbn [fst]; try done.
    cbn [answers with_answer q_by_id]. split_and!; [done| | |].
    + by apply dict_set_NoDup.
    + by apply dict_set_values.
    + intros k. rewrite dict_set_keys. case_bool_decide; [apply Hk|].
      intros [?| ->%list_elem_of_singleton]%elem_of_app; [by apply Hk|].
      by rewrite <- Hidx.
Qed.

Lemma reachable_answers_witness :
  let b := (set_answer (R:=ascii_runtime) (sample_builder true) (py "555")
              (VList [VStr (py "A"); VStr (py "X")])).1 in
  q_by_id b = index_questions [sample_checkboxes; sample_dropdown] ∧
  NoDup (answers b).*1 ∧
  Forall stored_answer (answers b).*2 ∧
  (∀ k, k ∈ (answers b).*1 →
        is_Some (index_questions [sample_checkboxes; sample_dropdown] !! k)).
Proof.
  apply (reachable_answers ascii_runtime [sample_checkboxes; sample_dropdown]).
  apply reachable_set. apply reachable_new.
Defined.

Section CheckboxValidation.
Context {R : Runtime} {L : RuntimeLaws R}.

Lemma checkbox_vals (vs : list pystr) :
  py_str <$> List.filter (λ v, match v with VNone => false | _ => true end) (VStr <$> vs)
  = vs.
Proof.
  induction vs as [|v vs IH]; [done|].
  rewrite fmap_cons. cbn [List.filter]. rewrite fmap_cons, py_str_str. by rewrite IH.
Qed.

Lemma filter_declared_all (choices vs : list pystr) :
  Forall (λ v, v ∈ choices) vs →
  List.filter (λ v, bool_decide (v ∈ choices)) vs = vs ∧
  List.filter (λ v, negb (bool_decide (v ∈ choices))) vs = [].
Proof.
  induction 1 as [|v vs Hv Hvs [IH1 IH2]]; [done|].
  cbn [List.filter]. rewrite bool_decide_eq_true_2 by done. cbn [negb].
  by rewrite IH1, IH2.
Qed.

Lemma filter_undeclared_some (choices vs : list pystr) :
  ¬ Forall (λ v, v ∈ choices) vs →
  List.filter (λ v, negb (bool_decide (v ∈ choices))) vs ≠ [].
Proof.
  induction vs as [|v vs IH]; intros Hn; [by destruct Hn|].
  cbn [List.filter]. destruct (decide (v ∈ choices)) as [Hv|Hv].
  - rewrite bool_decide_eq_true_2 by done. cbn [negb]. apply IH.
    intros Hvs. apply Hn. by constructor.
  - by rewrite bool_decide_eq_false_2 by done.
Qed.

(** The checkboxes branch of [set_answer] on a list of strings. *)
Lemma set_answer_checkboxes_list (b : Builder) (id : pystr) (q : Question)
    (vs : list pystr) :
  q_by_id b !! id = Some q →
  str_lower (q_type q) = py "checkboxes" →
  set_answer b id (VList (VStr <$> vs)) =
    let selected := List.filter (λ v, bool_decide (v ∈ choices_of q)) vs in
    let others := List.filter (λ v, negb (bool_decide (v ∈ choices_of q))) vs in
    match others with
    | [] => (with_answer b id (VList (VStr <$> selected)), Ok ())
    | _ =>
        if q_other_allowed q then
          (with_answer b id
             (VDict ([(KEY_OTHER, VStr (str_join (py "; ") others))] ++
                     match selected with
                     | [] => []
                     | _ => [(KEY_SELECTED, VList (VStr <$> selected))]
                     end)), Ok ())
        else if strict b then (b, Raise (ValueError_invalid_option id))
        else (with_answer b id (VList (VStr <$> selected)), Ok ())
    end.
Proof.
  intros Hq Ht. unfold set_answer. rewrite Hq, Ht.
  rewrite bool_decide_eq_false_2 by compute_done.
  rewrite bool_decide_eq_true_2 by done.
  rewrite checkbox_vals. cbn zeta.
  destruct (List.filter (λ v, negb _) vs); [done|].
  destruct (q_other_allowed q); [|done].
  by destruct (List.filter _ vs).
Qed.

End CheckboxValidation.

(** X12: for a checkboxes question without the free answer, a list of
    strings that are all options is stored as it is; a list with a string
    that is no option makes [set_answer] raise in strict mode and is stored
    without those strings otherwise.  The stored list gives one pair of the
    field key per string, so the empty list gives none. *)
Theorem set_answer_checkboxes (R : Runtime) (L : RuntimeLaws R) (b : Builder)
    (id : pystr) (q : Question) (vs : list pystr) :
  q_by_id b !! id = Some q →
  str_lower (q_type q) = py "checkboxes" →
  q_other_allowed q = false →
  let declared := List.filter (λ v, bool_decide (v ∈ choices_of q)) vs in
  set_answer b id (VList (VStr <$> vs)) =
    (if bool_decide (Forall (λ v, v ∈ choices_of q) vs)
     then (with_answer b id (VList (VStr <$> vs)), Ok ())
     else if strict b then (b, Raise (ValueError_invalid_option id))
     else (with_answer b id (VList (VStr <$> declared)), Ok ())) ∧
  entry_pairs (with_answer b id (VList (VStr <$> declared))) id
              (VList (VStr <$> declared))
    = (λ s, (py "entry." ++ id, s)) <$> declared.
Proof.
  intros Hq Ht Ho declared. split.
  - rewrite (set_answer_checkboxes_list b id q vs Hq Ht). cbn zeta. rewrite Ho.
    case_bool_decide as Hall.
    + destruct (filter_declared_all _ _ Hall) as [-> ->]. done.
    + pose proof (filter_undeclared_some _ _ Hall).
      by destruct (List.filter (λ v, negb _) vs).
  - unfold entry_pairs. cbn [q_by_id with_answer]. rewrite Hq.
    change (default [] (q_type <$> Some q)) with (q_type q). rewrite Ht.
    rewrite bool_decide_eq_true_2 by done.
    rewrite <- list_fmap_compose. apply list_fmap_ext. intros i s _. cbn.
    by rewrite py_str_str.
Qed.

Lemma set_answer_checkboxes_witness :
  let q := {| q_text := py "Pick"; q_type := py "Checkboxes"; q_required := None;
              q_choices_or_rows := Some [py "A"; py "B"]; q_columns := None;
              q_entry_id := Some (py "5"); q_other_allowed := false;
              q_other_value := None; q_other_response_key := None |} in
  let b := new_builder (py "act") (py "tok") [q] false in
  let declared := List.filter (λ v, bool_decide (v ∈ choices_of q)) [py "B"; py "Z"] in
  set_answer (R:=ascii_runtime) b (py "5") (VList (VStr <$> [py "B"; py "Z"])) =
    (if bool_decide (Forall (λ v, v ∈ choices_of q) [py "B"; py "Z"])
     then (with_answer b (py "5") (VList (VStr <$> [py "B"; py "Z"])), Ok ())
     else if strict b then (b, Raise (ValueError_invalid_option (py "5")))
     else (with_answer b (py "5") (VList (VStr <$> declared)), Ok ())) ∧
  entry_pairs (R:=ascii_runtime) (with_answer b (py "5") (VList (VStr <$> declared)))
              (py "5") (VList (VStr <$> declared))
    = (λ s, (py "entry." ++ py "5", s)) <$> declared.
Proof.
  intros q b.
  apply (set_answer_checkboxes ascii_runtime ascii_runtime_laws b (py "5") q
           [py "B"; py "Z"]); reflexivity.
Defined.

(** ** The driver: from the reply of the model to the stored answer *)

Section DriverFacts.
Context {R : Runtime}.

(** What a question with options gets as its value. *)
Lemma derive_value_shape (q : Question) (ans v : pyval) :
  choices_of q ≠ [] →
  derive_value q ans = Ok v →
  (str_lower (q_type q) = py "checkboxes" ∧
     (v = VNone ∨
      ∃ l, v = VList (VStr <$> l) ∧ ∀ o, o ∈ l → o ∈ choices_of q ∧ o ≠ [])) ∨
  (str_lower (q_type q) ∈ [py "multiple_choice"; py "dropdown"] ∧
     (v = VNone ∨ ∃ o, v = VStr o ∧ o ∈ choices_of q)) ∨
  (str_lower (q_type q) ≠ py "checkboxes" ∧
   (str_lower (q_type q) ∉ [py "multiple_choice"; py "dropdown"]) ∧
   v = VStr (py_str ans)).
Proof.
  intros Hne. unfold derive_value. rewrite (bool_decide_eq_false_2 _ Hne). cbn [negb].
  rewrite !andb_true_r.
  case_bool_decide as Hc; [|case_bool_decide as Hm].
  - intros Hv. left. split; [done|].
    assert ((∃ s r, pick_multi_options s (choices_of q) = Ok r ∧ v = opt_list r) ∨
            (∃ items rs, resolve_each (py_str <$> items) (choices_of q) = Ok rs ∧
                         v = VList (VStr <$> omap kept rs))) as [(s & r & Hr & ->)|(items & rs & Hr & ->)].
    { destruct ans as [| | | |s|l|];
        first [ left; destruct (pick_multi_options s (choices_of q)) as [r|] eqn:E;
                [|done]; cbn [bind] in Hv; simplify_eq; by eauto
              | right; match type of Hv with
                       | context [resolve_each ?x ?y] =>
                           destruct (resolve_each x y) as [rs|] eqn:E; [|done]
                       end; cbn [bind] in Hv; simplify_eq; by eauto ]. }
    + destruct r as [l|]; [|by left]. right. exists l. split; [done|].
      intros o Ho. by eapply pick_multi_options_picked.
    + right. eexists. split; [done|]. intros o Ho.
      apply list_elem_of_omap in Ho as (r & Hr' & Hk).
      destruct r as [[|c x]|]; simplify_eq/=. split; [|done].
      by eapply resolve_each_elem.
  - intros Hv. right. left. split; [done|].
    assert (∃ t r, pick_single_option t (choices_of q) = Ok r ∧ v = opt_str r)
      as (t & r & Hr & ->).
    { destruct ans as [| | | |s|[|x l]|];
        match type of Hv with
        | context [pick_single_option ?x ?y] =>
            destruct (pick_single_option x y) as [r|] eqn:E; [|done]
        end; cbn [bind] in Hv; simplify_eq; by eauto. }
    destruct r as [o|]; [|by left]. right. exists o. split; [done|].
    by eapply pick_single_option_elem.
  - intros [= <-]. right. right. done.
Qed.

(** What the block on the free answer makes of a value. *)
Lemma other_fallback_shape (q : Question) (ans v : pyval) :
  other_fallback q ans v = v ∨
  (value_falsy v = true ∧ q_other_allowed q = true ∧
   ∃ c t, other_fallback q ans v = VDict [(KEY_OTHER, VStr (c :: t))]).
Proof.
  unfold other_fallback. destruct (value_falsy v); [|by left].
  destruct (q_other_allowed q); [|by left]. cbn [andb].
  destruct ans as [| | | |s|[|x l]|]; try (by left).
  - destruct (strip s) as [|c t]; [by left|]. right. eauto.
  - destruct (strip (py_str x)) as [|c t]; [by left|]. right. eauto.
Qed.

End DriverFacts.

Section DriverValidation.
Context {R : Runtime} {L : RuntimeLaws R}.

Lemma set_answer_other_record (b : Builder) (eid : pystr) (q : Question) (t : pystr) :
  q_by_id b !! eid = Some q →
  set_answer b eid (VDict [(KEY_OTHER, VStr t)])
  = (with_answer b eid (VDict [(KEY_OTHER, VStr t)]), Ok ()).
Proof.
  intros Hq. unfold set_answer. rewrite Hq.
  change (dict_get [(KEY_OTHER, VStr t)] KEY_OTHER) with (Some (VStr t)).
  change (dict_get [(KEY_OTHER, VStr t)] KEY_SELECTED) with (@None pyval).
  cbv beta iota zeta. by rewrite py_str_str.
Qed.

(** The value the loop hands to [set_answer], for a question with options
    that the builder has under its id: what its shape is, and that the
    builder stores it as it is. *)
Lemma derived_value_stored (b : Builder) (q : Question) (eid : pystr) (ans v : pyval) :
  q_by_id b !! eid = Some q →
  choices_of q ≠ [] →
  str_lower (q_type q) ≠ py "choice" →
  derive_value q ans = Ok v →
  value_falsy (other_fallback q ans v) = false →
  set_answer b eid (other_fallback q ans v)
    = (with_answer b eid (other_fallback q ans v), Ok ()) ∧
  ((∃ t, other_fallback q ans v = VDict [(KEY_OTHER, VStr t)] ∧ t ≠ [] ∧
         q_other_allowed q = true) ∨
   (str_lower (q_type q) = py "checkboxes" ∧
      ∃ l, other_fallback q ans v = VList (VStr <$> l) ∧ l ≠ [] ∧
           ∀ o, o ∈ l → o ∈ choices_of q) ∨
   (str_lower (q_type q) ∈ [py "multiple_choice"; py "dropdown"] ∧
      ∃ o, other_fallback q ans v = VStr o ∧ o ∈ choices_of q) ∨
   (str_lower (q_type q) ≠ py "checkboxes" ∧
    (str_lower (q_type q) ∉ [py "multiple_choice"; py "dropdown"]) ∧
    other_fallback q ans v = VStr (py_str ans))).
Proof.
  intros Hq Hne Hch Hv Hf.
  destruct (other_fallback_shape q ans v) as [Hsame|(_ & Ho & c & t & Hrec)].
  2:{ rewrite Hrec. split; [by apply (set_answer_other_record b _ q)|].
      left. by exists (c :: t). }
  rewrite Hsame in *.
  destruct (derive_value_shape q ans v Hne Hv)
    as [(Ht & [->|(l & -> & Hl)])|[(Ht & [->|(o & -> & Ho)])|(Ht1 & Ht2 & ->)]];
    try done.
  - (* checkboxes *)
    assert (Forall (λ o, o ∈ choices_of q) l) as Hall.
    { apply Forall_forall. intros o Ho. by apply Hl. }
    split.
    + rewrite (set_answer_checkboxes_list b eid q l Hq Ht). cbn zeta.
      by destruct (filter_declared_all _ _ Hall) as [-> ->].
    + right. left. split; [done|]. exists l. split_and!; [done| |intros; by apply Hl].
      intros ->. done.
  - (* multiple_choice, dropdown *)
    split.
    + unfold set_answer. rewrite Hq. cbn match.
      rewrite bool_decide_eq_true_2.
      * by rewrite bool_decide_eq_true_2.
      * apply elem_of_cons in Ht as [->|Ht]; [by left|].
        apply list_elem_of_singleton in Ht as ->. right. by left.
    + right. right. left. split; [done|]. by exists o.
  - (* the other types *)
    split.
    + unfold set_answer. rewrite Hq. cbn match.
      rewrite bool_decide_eq_false_2.
      * rewrite bool_decide_eq_false_2 by done. by rewrite py_str_str.
      * intros Hin. apply elem_of_cons in Hin as [Hin|Hin];
          [apply Ht2; rewrite Hin; by left|].
        apply elem_of_cons in Hin as [Hin|Hin];
          [apply Ht2; rewrite Hin; right; by left|].
        by apply list_elem_of_singleton in Hin.
    + right. right. right. done.
Qed.

End DriverValidation.

Ltac skipped_absurd :=
  let Hin := fresh "Hin" in
  intros Hin; repeat (apply elem_of_cons in Hin as [?|Hin]; [done|]);
  by apply elem_of_nil in Hin.

(** X13: in the loop of [answer_form_with_groq], the validator of the
    builder never rejects the value of a question that has options, that
    the builder has under its entry id and whose type is not the bare
    [choice]: a pass that gets as far as [set_answer] stores the value as
    the loop computed it, and every other pass leaves the builder as it
    was. *)
Theorem groq_step_never_rejected (R : Runtime) (L : RuntimeLaws R) (b b' : Builder)
    (c c' : QACache.t) (q : Question) (eid : pystr) (reply : option pystr)
    (r : result outcome) :
  q_entry_id q = Some eid →
  q_by_id b !! eid = Some q →
  choices_of q ≠ [] →
  str_lower (q_type q) ≠ py "choice" →
  groq_step b c q reply = (b', c', r) →
  (∀ e, r ≠ Ok (Rejected e)) ∧
  (∀ value, r = Ok (Stored value) →
     value_falsy value = false ∧ b' = with_answer b eid value) ∧
  (r ∈ [Ok NoEntryId; Ok NoReply; Ok NoAnswer; Ok Unmapped] → b' = b).
Proof.
  intros He Hq Hne Hch. unfold groq_step. rewrite He.
  destruct eid as [|e0 e]; [intros [= <- <- <-]; split_and!; try done|].
  destruct reply as [content|]; [|intros [= <- <- <-]; split_and!; done].
  cbn zeta.
  assert (∀ ans, ans ≠ VNone →
    match derive_value q ans with
    | Ok value =>
        if value_falsy (other_fallback q ans value)
        then (b, if re_section_match (q_text q) then QACache.clear c else c, Ok Unmapped)
        else
          match set_answer b (e0 :: e) (other_fallback q ans value) with
          | (b'0, Ok _) =>
              match
                QACache.add (if re_section_match (q_text q) then QACache.clear c else c)
                  (q_text q) (other_fallback q ans value)
              with
              | (c'0, Ok _) =>
                  match q_text q with
                  | [] => (b'0, c'0, Raise IndexError)
                  | _ :: _ => (b'0, c'0, Ok (Stored (other_fallback q ans value)))
                  end
              | (c'0, Raise e1) => (b'0, c'0, Raise e1)
              end
          | (b'0, Raise e1) =>
              (b'0, if re_section_match (q_text q) then QACache.clear c else c,
               Ok (Rejected e1))
          end
    | Raise e1 => (b, if re_section_match (q_text q) then QACache.clear c else c, Raise e1)
    end = (b', c', r) →
    (∀ e, r ≠ Ok (Rejected e)) ∧
    (∀ value, r = Ok (Stored value) →
       value_falsy value = false ∧ b' = with_answer b (e0 :: e) value) ∧
    (r ∈ [Ok NoEntryId; Ok NoReply; Ok NoAnswer; Ok Unmapped] → b' = b)) as Hmain.
  { intros ans _.
    destruct (derive_value q ans) as [v|e1] eqn:Hv.
    2:{ intros [= <- <- <-]. split_and!; try done; try skipped_absurd. }
    destruct (value_falsy (other_fallback q ans v)) eqn:Hf.
    { intros [= <- <- <-]. split_and!; done. }
    destruct (derived_value_stored b q (e0 :: e) ans v Hq Hne Hch Hv Hf) as [-> _].
    destruct (QACache.add _ _ _) as [c1 [[]|e1]].
    2:{ intros [= <- <- <-]. split_and!; try done; try skipped_absurd. }
    destruct (q_text q); intros [= <- <- <-]; split_and!; try done;
      try skipped_absurd.
    by intros value [= <-]. }
  destruct (extract_answer_from_llm content) eqn:Ha;
    first [ intros [= <- <- <-]; split_and!; done
          | apply Hmain; done ].
Qed.

Lemma sample_json_runtime_laws : RuntimeLaws sample_json_runtime.
Proof.
  split; simpl; try done.
  - right. lia.
  - intros s l. case_bool_decide as Hs; [subst s; by eexists|].
    by case_bool_decide.
Qed.

Lemma groq_step_never_rejected_witness :
  let c := {| QACache.max_pairs := 5; QACache.max_chars := 900; QACache.pairs := [] |} in
  let b := sample_builder true in
  let res := groq_step (R:=sample_json_runtime) b c sample_checkboxes (Some sample_reply) in
  (∀ e, res.2 ≠ Ok (Rejected e)) ∧
  (∀ value, res.2 = Ok (Stored value) →
     value_falsy value = false ∧ res.1.1 = with_answer b (py "555") value) ∧
  (res.2 ∈ [Ok NoEntryId; Ok NoReply; Ok NoAnswer; Ok Unmapped] → res.1.1 = b).
Proof.
  intros c b res.
  apply (groq_step_never_rejected sample_json_runtime sample_json_runtime_laws
           b res.1.1 c res.1.2 sample_checkboxes (py "555") (Some sample_reply) res.2);
    [reflexivity|reflexivity|done|done|].
  subst res. by destruct (groq_step _ _ _ _) as [[? ?] ?].
Defined.

(** Such a pass, run: the fenced reply with the answer B is
    read, resolved to the option B and stored, and the cache gets the
    pair. *)
Example groq_step_run :
  groq_step (R:=sample_json_runtime) (sample_builder true)
    {| QACache.max_pairs := 5; QACache.max_chars := 900; QACache.pairs := [] |}
    sample_checkboxes (Some sample_reply)
  = (with_answer (sample_builder true) (py "555") (VList [VStr (py "B")]),
     {| QACache.max_pairs := 5; QACache.max_chars := 900;
        QACache.pairs := [(py "Pick some", py "B")] |},
     Ok (Stored (VList [VStr (py "B")]))).
Proof. vm_compute. reflexivity. Qed.

Section DriverInversion.
Context {R : Runtime}.

(** A pass that ends with [Stored]: what it went through. *)
Lemma groq_step_stored (b b' : Builder) (c c' : QACache.t) (q : Question)
    (reply : option pystr) (value : pyval) :
  groq_step b c q reply = (b', c', Ok (Stored value)) →
  ∃ eid content v,
    q_entry_id q = Some eid ∧ eid ≠ [] ∧ reply = Some content ∧
    extract_answer_from_llm content ≠ VNone ∧
    derive_value q (extract_answer_from_llm content) = Ok v ∧
    value = other_fallback q (extract_answer_from_llm content) v ∧
    value_falsy value = false ∧
    set_answer b eid value = (b', Ok ()) ∧
    q_text q ≠ [].
Proof.
  unfold groq_step. destruct (q_entry_id q) as [[|e0 e]|]; try done.
  destruct reply as [content|]; [|done]. cbn zeta.
  set (ans := extract_answer_from_llm content).
  assert (ans ≠ VNone →
    match derive_value q ans with
    | Ok value0 =>
        if value_falsy (other_fallback q ans value0)
        then (b, if re_section_match (q_text q) then QACache.clear c else c, Ok Unmapped)
        else
          match set_answer b (e0 :: e) (other_fallback q ans value0) with
          | (b'0, Ok _) =>
              match
                QACache.add (if re_section_match (q_text q) then QACache.clear c else c)
                  (q_text q) (other_fallback q ans value0)
              with
              | (c'0, Ok _) =>
                  match q_text q with
                  | [] => (b'0, c'0, Raise IndexError)
                  | _ :: _ => (b'0, c'0, Ok (Stored (other_fallback q ans value0)))
                  end
              | (c'0, Raise e1) => (b'0, c'0, Raise e1)
              end
          | (b'0, Raise e1) =>
              (b'0, if re_section_match (q_text q) then QACache.clear c else c,
               Ok (Rejected e1))
          end
    | Raise e1 => (b, if re_section_match (q_text q) then QACache.clear c else c, Raise e1)
    end = (b', c', Ok (Stored value)) →
    ∃ eid content0 v,
      Some (e0 :: e) = Some eid ∧ eid ≠ [] ∧ Some content = Some content0 ∧
      extract_answer_from_llm content0 ≠ VNone ∧
      derive_value q (extract_answer_from_llm content0) = Ok v ∧
      value = other_fallback q (extract_answer_from_llm content0) v ∧
      value_falsy value = false ∧
      set_answer b eid value = (b', Ok ()) ∧
      q_text q ≠ []) as Hmain.
  { intros Hans. destruct (derive_value q ans) as [v|] eqn:Hv; [|done].
    destruct (value_falsy _) eqn:Hf; [done|].
    destruct (set_answer _ _ _) as [b1 [[]|]] eqn:Hset; [|done].
    destruct (QACache.add _ _ _) as [c1 [[]|]]; [|done].
    destruct (q_text q) eqn:Ht; [done|]. intros [= <- <- <-].
    exists (e0 :: e), content, v. split_and!; done. }
  destruct ans eqn:Ha; first [done | by apply Hmain].
Qed.

End DriverInversion.

(** X14: for a checkboxes, multiple_choice or dropdown question with
    options that the builder has under the question's own entry id, what
    the loop of [answer_form_with_groq] stores is made of the question's
    own options: one option for a single choice, a list of options that is
    not empty for checkboxes.  The one exception is the record of a free
    answer with a text that is not empty, and only for a question that
    allows the free answer.  (When two questions share an entry id the
    builder has the later one under it, and the value of the earlier one
    is validated against the later: see [groq_step_shared_id].) *)
Theorem groq_step_stores_options (R : Runtime) (L : RuntimeLaws R) (b b' : Builder)
    (c c' : QACache.t) (q : Question) (eid : pystr) (reply : option pystr)
    (value : pyval) :
  q_entry_id q = Some eid →
  q_by_id b !! eid = Some q →
  choices_of q ≠ [] →
  str_lower (q_type q) ∈ [py "checkboxes"; py "multiple_choice"; py "dropdown"] →
  groq_step b c q reply = (b', c', Ok (Stored value)) →
  dict_get (answers b') eid = Some value ∧
  ((∃ t, value = VDict [(KEY_OTHER, VStr t)] ∧ t ≠ [] ∧ q_other_allowed q = true) ∨
   (str_lower (q_type q) = py "checkboxes" ∧
      ∃ l, value = VList (VStr <$> l) ∧ l ≠ [] ∧ ∀ o, o ∈ l → o ∈ choices_of q) ∨
   (str_lower (q_type q) ≠ py "checkboxes" ∧
      ∃ o, value = VStr o ∧ o ∈ choices_of q)).
Proof.
  intros He Hq Hne Ht Hstep.
  apply groq_step_stored in Hstep
    as (eid' & content & v & He' & _ & _ & _ & Hv & -> & Hf & Hset & _).
  assert (eid' = eid) as -> by congruence.
  assert (str_lower (q_type q) ≠ py "choice") as Hch.
  { intros Hc. rewrite Hc in Ht. revert Ht. compute_done. }
  destruct (derived_value_stored b q eid _ v Hq Hne Hch Hv Hf) as [Hst Hshape].
  rewrite Hst in Hset. injection Hset as <-. split.
  { cbn [answers with_answer]. apply dict_get_set. }
  destruct Hshape as [H|[H|[(Hm & o & Ho)|(H1 & H2 & _)]]]; [by left|right; by left| |].
  - right. right. split; [|by exists o].
    intros Hc. rewrite Hc in Hm. revert Hm. compute_done.
  - exfalso. apply elem_of_cons in Ht as [Ht|Ht]; [done|]. done.
Qed.

Lemma groq_step_stores_options_witness :
  let c := {| QACache.max_pairs := 5; QACache.max_chars := 900; QACache.pairs := [] |} in
  let b := sample_builder true in
  let b' := with_answer b (py "555") (VList [VStr (py "B")]) in
  let value := VList [VStr (py "B")] in
  dict_get (answers b') (py "555") = Some value ∧
  ((∃ t, value = VDict [(KEY_OTHER, VStr t)] ∧ t ≠ [] ∧
         q_other_allowed sample_checkboxes = true) ∨
   (str_lower (Runtime:=sample_json_runtime) (q_type sample_checkboxes) = py "checkboxes" ∧
      ∃ l, value = VList (VStr <$> l) ∧ l ≠ [] ∧
           ∀ o, o ∈ l → o ∈ choices_of sample_checkboxes) ∨
   (str_lower (Runtime:=sample_json_runtime) (q_type sample_checkboxes) ≠ py "checkboxes" ∧
      ∃ o, value = VStr o ∧ o ∈ choices_of sample_checkboxes)).
Proof.
  intros c b b' value.
  apply (groq_step_stores_options sample_json_runtime sample_json_runtime_laws
           b b' c
           {| QACache.max_pairs := 5; QACache.max_chars := 900;
              QACache.pairs := [(py "Pick some", py "B")] |}
           sample_checkboxes (py "555") (Some sample_reply) value);
    [reflexivity|reflexivity|done|vm_compute; left|vm_compute; reflexivity].
Defined.

(** Two questions with one entry id: the builder has the second under the
    id, a short answer, so the list the pass computes for the first, a
    checkboxes question, is stored as the text of the list. *)
Example groq_step_shared_id :
  groq_step (R:=sample_json_runtime)
    (new_builder (py "act") (py "tok") [sample_checkboxes; sample_same_id_text] true)
    {| QACache.max_pairs := 5; QACache.max_chars := 900; QACache.pairs := [] |}
    sample_checkboxes (Some sample_reply)
  = (with_answer
       (new_builder (py "act") (py "tok") [sample_checkboxes; sample_same_id_text] true)
       (py "555") (VStr (py "['B']")),
     {| QACache.max_pairs := 5; QACache.max_chars := 900;
        QACache.pairs := [(py "Pick some", py "B")] |},
     Ok (Stored (VList [VStr (py "B")]))).
Proof. vm_compute. reflexivity. Qed.

(** ** Reading the reply of the model *)

Lemma upto_last_snoc (p : char → bool) (body post : pystr) (c : char) :
  p c = true → forallb (λ d, negb (p d)) post = true →
  upto_last p (body ++ c :: post) = Some (body ++ [c]).
Proof.
  intros Hc Hpost.
  assert (upto_last p post = None) as Hnone.
  { induction post as [|d post IH]; [done|]. simpl in *.
    apply andb_true_iff in Hpost as [Hd Hpost]. rewrite (IH Hpost).
    by destruct (p d). }
  induction body as [|b body IH]; simpl.
  - by rewrite Hnone, Hc.
  - by rewrite IH.
Qed.

Lemma re_search_braces_span (pre body post : pystr) :
  123%N ∉ pre → 125%N ∉ post →
  re_search_braces (pre ++ 123%N :: body ++ 125%N :: post)
  = Some (123%N :: body ++ [125%N]).
Proof.
  intros Hpre Hpost. induction pre as [|c pre IH]; simpl.
  - rewrite (upto_last_snoc _ body post 125%N); [done|done|].
    apply forallb_forall. intros d Hd%list_elem_of_In.
    apply negb_true_iff, N.eqb_neq. by intros ->.
  - apply not_elem_of_cons in Hpre as [Hc Hpre].
    destruct (c =? 123)%N eqn:E; [by apply N.eqb_eq in E|]. by apply IH.
Qed.

(** X15: a reply that is not itself a JSON object with readable keys, but
    holds one between its first opening brace and its last closing brace
    (a code fence or a sentence around the object), is read through that
    object: [extract_answer_from_llm] returns the object's [answer], and
    [None] when the part between the braces is no JSON object. *)
Theorem extract_answer_around_object (R : Runtime) (pre body post : pystr) :
  123%N ∉ pre → 125%N ∉ post →
  json_loads (pre ++ 123%N :: body ++ 125%N :: post) ≫= get_answer = None →
  extract_answer_from_llm (pre ++ 123%N :: body ++ 125%N :: post)
  = match json_loads (123%N :: body ++ [125%N]) with
    | Some (VDict d) => default VNone (dict_get d (py "answer"))
    | _ => VNone
    end.
Proof.
  intros Hpre Hpost Hraw. unfold extract_answer_from_llm.
  rewrite Hraw, re_search_braces_span by done.
  by destruct (json_loads (123%N :: body ++ [125%N])) as [[| | | | | |d]|].
Qed.

Lemma extract_answer_around_object_witness :
  extract_answer_from_llm (R:=sample_json_runtime) sample_reply = VStr (py "B").
Proof.
  apply (extract_answer_around_object sample_json_runtime
           (py "```json" ++ [10%N])
           ([34%N] ++ py "answer" ++ [34%N] ++ py ": " ++ [34%N] ++ py "B" ++ [34%N])
           ([10%N] ++ py "```")); [compute_done|compute_done|reflexivity].
Defined.

(** ** The cache of earlier questions and answers *)

Lemma trim_pairs_nonneg (limit : Z) (ps : list (pystr * pystr)) :
  0 ≤ limit →
  QACache.trim_pairs limit ps = (drop (length ps - Z.to_nat limit) ps, Ok ()).
Proof.
  intros Hl. induction ps as [|p ps IH].
  - cbn [QACache.trim_pairs length]. destruct (_ >? limit) eqn:E; [|done].
    apply Z.gtb_lt in E. lia.
  - cbn [QACache.trim_pairs]. destruct (_ >? limit) eqn:E.
    + rewrite IH. apply Z.gtb_lt in E. rewrite length_cons in *.
      replace (S (length ps) - Z.to_nat limit)%nat
        with (S (length ps - Z.to_nat limit))%nat by lia.
      done.
    + assert (¬ limit < Z.of_nat (length (p :: ps))) as Hn.
      { intros Hlt%Z.gtb_lt. congruence. }
      rewrite length_cons in *.
      replace (S (length ps) - Z.to_nat limit)%nat with 0%nat by lia. done.
Qed.

Lemma trim_pairs_negative (limit : Z) (ps : list (pystr * pystr)) :
  limit < 0 → QACache.trim_pairs limit ps = ([], Raise IndexError).
Proof.
  intros Hl. induction ps as [|p ps IH].
  - cbn [QACache.trim_pairs length]. destruct (_ >? limit) eqn:E; [done|].
    assert (¬ limit < Z.of_nat 0) as Hn; [|lia].
    intros Hlt%Z.gtb_lt. congruence.
  - cbn [QACache.trim_pairs]. destruct (_ >? limit) eqn:E; [done|].
    assert (¬ limit < Z.of_nat (length (p :: ps))) as Hn; [|lia].
    intros Hlt%Z.gtb_lt. congruence.
Qed.

Lemma len_chars_cons (p : pystr * pystr) (ps : list (pystr * pystr)) :
  QACache._len_chars (p :: ps) =
  Z.of_nat (length p.1) + Z.of_nat (length p.2) + 6 + QACache._len_chars ps.
Proof. done. Qed.

Lemma len_chars_nonneg (ps : list (pystr * pystr)) : 0 ≤ QACache._len_chars ps.
Proof. induction ps as [|p ps IH]; [done|]. rewrite len_chars_cons. lia. Qed.

Lemma len_chars_app (ps qs : list (pystr * pystr)) :
  QACache._len_chars (ps ++ qs) = QACache._len_chars ps + QACache._len_chars qs.
Proof.
  induction ps as [|p ps IH]; [done|].
  rewrite <- app_comm_cons, !len_chars_cons, IH. lia.
Qed.

Lemma len_chars_suffix (s ps : list (pystr * pystr)) :
  s `suffix_of` ps → QACache._len_chars s ≤ QACache._len_chars ps.
Proof.
  intros [k ->]. rewrite len_chars_app. pose proof (len_chars_nonneg k). lia.
Qed.

Lemma trim_chars_spec (limit : Z) (ps : list (pystr * pystr)) :
  QACache.trim_chars limit ps `suffix_of` ps ∧
  (QACache.trim_chars limit ps = [] ∨
   QACache._len_chars (QACache.trim_chars limit ps) ≤ limit) ∧
  (∀ s, s `suffix_of` ps → QACache._len_chars s ≤ limit →
        s `suffix_of` QACache.trim_chars limit ps).
Proof.
  induction ps as [|p ps (IH1 & IH2 & IH3)].
  - cbn. split_and!; [done|by left|done].
  - cbn [QACache.trim_chars]. destruct (_ >? limit) eqn:E.
    + apply Z.gtb_lt in E. split_and!; [by apply suffix_cons_r|done|].
      intros s Hs Hlen. apply IH3; [|done].
      destruct s as [|x s]; [apply suffix_nil|].
      apply suffix_cons_inv in Hs as [Heq|Hs]; [|done].
      rewrite Heq in Hlen. lia.
    + assert (¬ limit < QACache._len_chars (p :: ps)) as Hn.
      { intros Hlt%Z.gtb_lt. congruence. }
      split_and!; [done|right; lia|done].
Qed.

Lemma suffix_drop_length {A} (s ps : list A) :
  s `suffix_of` ps → s = drop (length ps - length s) ps.
Proof.
  intros [k ->]. rewrite length_app.
  replace (length k + length s - length s)%nat with (length k) by lia.
  by rewrite drop_app_length.
Qed.

Lemma drop_suffix_mono {A} (n m : nat) (l : list A) :
  (n ≤ m)%nat → drop m l `suffix_of` drop n l.
Proof.
  intros Hnm. replace m with (n + (m - n))%nat by lia. rewrite <- drop_drop.
  exists (take (m - n) (drop n l)). by rewrite take_drop.
Qed.

Section CacheFacts.
Context {R : Runtime}.

Lemma cache_add_negative_limit_helper (c : QACache.t) (q_text : pystr) (answer : pyval) :
  QACache.max_pairs c < 0 →
  QACache.add c q_text answer = (QACache.with_pairs c [], Raise IndexError).
Proof. intros Hl. unfold QACache.add. by rewrite trim_pairs_negative. Qed.

Lemma cache_add_ok (c : QACache.t) (q_text : pystr) (answer : pyval) :
  0 ≤ QACache.max_pairs c → (QACache.add c q_text answer).2 = Ok ().
Proof. intros Hl. unfold QACache.add. by rewrite trim_pairs_nonneg. Qed.

End CacheFacts.

(** X16: with a limit on the pairs that is not negative, [add] returns and
    keeps the most recent pairs that fit both limits: the new pair is put
    last (question and answer stripped, newlines replaced, cut at 200
    characters), and what stays is the longest end of that list with at
    most [max_pairs] pairs and at most [max_chars] characters by
    [_len_chars]; the oldest pairs go first, and the limits stay. *)
Theorem cache_add_keeps_recent (R : Runtime) (c : QACache.t) (q_text : pystr)
    (answer : pyval) :
  0 ≤ QACache.max_pairs c →
  let new := (take 200 (QACache.replace_newline (strip q_text)),
              take 200 (QACache.answer_text answer)) in
  let c' := (QACache.add c q_text answer).1 in
  (QACache.add c q_text answer).2 = Ok () ∧
  QACache.max_pairs c' = QACache.max_pairs c ∧
  QACache.max_chars c' = QACache.max_chars c ∧
  QACache.pairs c' `suffix_of` QACache.pairs c ++ [new] ∧
  Z.of_nat (length (QACache.pairs c')) ≤ QACache.max_pairs c ∧
  (QACache.pairs c' = [] ∨ QACache._len_chars (QACache.pairs c') ≤ QACache.max_chars c) ∧
  (∀ s, s `suffix_of` QACache.pairs c ++ [new] →
        Z.of_nat (length s) ≤ QACache.max_pairs c →
        QACache._len_chars s ≤ QACache.max_chars c →
        s `suffix_of` QACache.pairs c').
Proof.
  intros Hl new c'. subst c'. unfold QACache.add. fold new.
  rewrite trim_pairs_nonneg by done. cbn [fst snd QACache.with_pairs
    QACache.max_pairs QACache.max_chars QACache.pairs].
  set (ps := QACache.pairs c ++ [new]).
  set (kept := drop (length ps - Z.to_nat (QACache.max_pairs c)) ps).
  destruct (trim_chars_spec (QACache.max_chars c) kept) as (H1 & H2 & H3).
  assert (kept `suffix_of` ps) as Hk.
  { subst kept. apply (drop_suffix_mono 0). lia. }
  split_and!; try done.
  - by etrans.
  - apply suffix_length in H1. subst kept. rewrite length_drop in H1. lia.
  - intros s Hs Hlen Hch. apply H3; [|done].
    rewrite (suffix_drop_length s ps Hs). subst kept. apply drop_suffix_mono. lia.
Qed.

Lemma cache_add_keeps_recent_witness :
  let c := {| QACache.max_pairs := 2; QACache.max_chars := 900;
              QACache.pairs := [(py "Q1", py "A1"); (py "Q2", py "A2")] |} in
  (QACache.add (R:=ascii_runtime) c (py " Q3 ") (VStr (py "A3"))).2 = Ok () ∧
  QACache.pairs (QACache.add (R:=ascii_runtime) c (py " Q3 ") (VStr (py "A3"))).1
    = [(py "Q2", py "A2"); (py "Q3", py "A3")].
Proof.
  intros c. split.
  - apply (cache_add_keeps_recent ascii_runtime c (py " Q3 ") (VStr (py "A3"))).
    vm_compute. discriminate.
  - reflexivity.
Defined.

(** X17: with a negative limit on the pairs, [add] raises [IndexError]
    (the loop pops from the list it has emptied) and leaves the cache
    without pairs. *)
Theorem cache_add_negative_limit (R : Runtime) (c : QACache.t) (q_text : pystr)
    (answer : pyval) :
  QACache.max_pairs c < 0 →
  QACache.add c q_text answer = (QACache.with_pairs c [], Raise IndexError).
Proof. intros Hl. unfold QACache.add. by rewrite trim_pairs_negative. Qed.

Lemma cache_add_negative_limit_witness :
  QACache.add (R:=ascii_runtime)
    {| QACache.max_pairs := -1; QACache.max_chars := 900;
       QACache.pairs := [(py "Q1", py "A1")] |} (py "Q2") (VStr (py "A2"))
  = ({| QACache.max_pairs := -1; QACache.max_chars := 900; QACache.pairs := [] |},
     Raise IndexError).
Proof.
  apply (cache_add_negative_limit ascii_runtime
           {| QACache.max_pairs := -1; QACache.max_chars := 900;
              QACache.pairs := [(py "Q1", py "A1")] |}).
  reflexivity.
Defined.

(** ** The loop of the driver *)

Ltac in_list := repeat first [by left | right].

Section DriverLoop.
Context {R : Runtime}.

Lemma pick_multi_options_raise (text : pystr) (options : list pystr) (e : exn) :
  pick_multi_options text options = Raise e → e = ValueError_int_literal.
Proof.
  unfold pick_multi_options. destruct options as [|o0 l]; [done|].
  assert (∀ ans, pick_multi_split ans (o0 :: l) = Raise e → e = ValueError_int_literal)
    as Hsplit.
  { by intros ans [? _]%pick_multi_split_raise. }
  destruct (json_loads _) as [[| | | | |val|]|]; try apply Hsplit.
  destruct (pick_loop _ _ _) as [p|]; [done|apply Hsplit].
Qed.

Lemma derive_value_raise (q : Question) (ans : pyval) (e : exn) :
  derive_value q ans = Raise e → e = ValueError_int_literal.
Proof.
  unfold derive_value.
  assert (∀ t, (r <- pick_single_option t (choices_of q); Ok (opt_str r)) = Raise e →
               e = ValueError_int_literal) as Hs.
  { intros t. destruct (pick_single_option t _) eqn:E; [done|]. cbn [bind].
    intros [= <-]. by apply pick_single_option_raise in E as [? _]. }
  assert (∀ t, (r <- pick_multi_options t (choices_of q); Ok (opt_list r)) = Raise e →
               e = ValueError_int_literal) as Hm.
  { intros t. destruct (pick_multi_options t _) eqn:E; [done|]. cbn [bind].
    intros [= <-]. by apply pick_multi_options_raise in E. }
  assert (∀ items, (rs <- resolve_each items (choices_of q);
                    Ok (VList (VStr <$> omap kept rs))) = Raise e →
               e = ValueError_int_literal) as Hl.
  { intros t. destruct (resolve_each t _) eqn:E; [done|]. cbn [bind].
    intros [= <-]. by apply resolve_each_raise in E as [? _]. }
  destruct (_ && _).
  - destruct ans; first [apply Hm | apply Hl].
  - destruct (_ && _); [|done]. destruct ans as [| | | | |[|x l]|]; apply Hs.
Qed.

(** What a pass of the loop does to the builder, and how it can end. *)
Lemma groq_step_cases (b b' : Builder) (c c' : QACache.t) (q : Question)
    (reply : option pystr) (r : result outcome) :
  groq_step b c q reply = (b', c', r) →
  (b' = b ∧
   (r = Raise ValueError_int_literal ∨
    r ∈ [Ok NoEntryId; Ok NoReply; Ok NoAnswer; Ok Unmapped] ∨
    ∃ e, r = Ok (Rejected e))) ∨
  (∃ eid ans v,
     q_entry_id q = Some eid ∧ eid ≠ [] ∧
     derive_value q ans = Ok v ∧
     value_falsy (other_fallback q ans v) = false ∧
     set_answer b eid (other_fallback q ans v) = (b', Ok ()) ∧
     (r = Ok (Stored (other_fallback q ans v)) ∨
      (r = Raise IndexError ∧
       (QACache.max_pairs c < 0 ∨ q_text q = [])))).
Proof.
  unfold groq_step. destruct (q_entry_id q) as [[|e0 e]|]; cbn zeta.
  1,3: intros [= <- <- <-]; left; split; [done|]; right; left; in_list.
  destruct reply as [content|];
    [|intros [= <- <- <-]; left; split; [done|]; right; left; in_list].
  set (ans := extract_answer_from_llm content).
  set (c0 := if re_section_match (q_text q) then QACache.clear c else c).
  assert (QACache.max_pairs c0 = QACache.max_pairs c) as Hmp.
  { subst c0. by destruct (re_section_match _). }
  assert (
    match derive_value q ans with
    | Ok value =>
        if value_falsy (other_fallback q ans value) then (b, c0, Ok Unmapped)
        else
          match set_answer b (e0 :: e) (other_fallback q ans value) with
          | (b'0, Ok _) =>
              match QACache.add c0 (q_text q) (other_fallback q ans value) with
              | (c'0, Ok _) =>
                  match q_text q with
                  | [] => (b'0, c'0, Raise IndexError)
                  | _ :: _ => (b'0, c'0, Ok (Stored (other_fallback q ans value)))
                  end
              | (c'0, Raise e1) => (b'0, c'0, Raise e1)
              end
          | (b'0, Raise e1) => (b'0, c0, Ok (Rejected e1))
          end
    | Raise e1 => (b, c0, Raise e1)
    end = (b', c', r) →
    (b' = b ∧
     (r = Raise ValueError_int_literal ∨
      r ∈ [Ok NoEntryId; Ok NoReply; Ok NoAnswer; Ok Unmapped] ∨
      ∃ e, r = Ok (Rejected e))) ∨
    (∃ eid ans v,
       Some (e0 :: e) = Some eid ∧ eid ≠ [] ∧
       derive_value q ans = Ok v ∧
       value_falsy (other_fallback q ans v) = false ∧
       set_answer b eid (other_fallback q ans v) = (b', Ok ()) ∧
       (r = Ok (Stored (other_fallback q ans v)) ∨
        (r = Raise IndexError ∧
         (QACache.max_pairs c < 0 ∨ q_text q = []))))) as Hmain.
  { destruct (derive_value q ans) as [v|e1] eqn:Hv.
    2:{ intros [= <- <- <-]. apply derive_value_raise in Hv as ->. left. auto. }
    destruct (value_falsy _) eqn:Hf.
    { intros [= <- <- <-]. left. split; [done|]. right. left. in_list. }
    destruct (set_answer _ _ _) as [b1 [[]|e1]] eqn:Hset.
    2:{ intros [= <- <- <-]. left.
        destruct (set_answer_cases b (e0 :: e) (other_fallback q ans v))
          as [(Hc & _)|[(Hc & _)|[(Hc & _)|(v' & Hc & _)]]];
          rewrite Hc in Hset; simplify_eq; eauto. }
    destruct (QACache.add _ _ _) as [c1 [[]|e1]] eqn:Hadd.
    2:{ intros [= <- <- <-]. right. exists (e0 :: e), ans, v.
        split_and!; try done. right.
        destruct (decide (QACache.max_pairs c0 < 0)) as [Hneg|Hpos].
        - rewrite (cache_add_negative_limit_helper c0) in Hadd by done.
          simplify_eq. split; [done|]. left. lia.
        - pose proof (cache_add_ok c0 (q_text q) (other_fallback q ans v)) as Hok.
          rewrite Hadd in Hok. cbn in Hok. discriminate Hok. lia. }
    destruct (q_text q) eqn:Ht; intros [= <- <- <-]; right;
      exists (e0 :: e), ans, v; split_and!; auto. }
  destruct ans eqn:Ha; try apply Hmain.
  intros [= <- <- <-]. left. split; [done|]. right. left. in_list.
Qed.

End DriverLoop.

(** X18: a pass of the loop of [answer_form_with_groq] leaves the loop
    with an exception in two ways only.  The [ValueError] of [int] comes
    from the resolvers, before anything is stored.  An [IndexError] comes
    after [set_answer] has returned: from the cache when its limit on the
    pairs is negative, or from the first line of the question's text when
    that text is empty.  With a strict builder, as the driver makes it, the
    answer is then in the builder; a lenient builder may have returned
    without storing. *)
Theorem groq_step_raises (R : Runtime) (b b' : Builder) (c c' : QACache.t)
    (q : Question) (reply : option pystr) (e : exn) :
  groq_step b c q reply = (b', c', Raise e) →
  (e = ValueError_int_literal ∧ b' = b) ∨
  (e = IndexError ∧ (QACache.max_pairs c < 0 ∨ q_text q = []) ∧
   ∃ eid value, q_entry_id q = Some eid ∧ value_falsy value = false ∧
                set_answer b eid value = (b', Ok ()) ∧
                (strict b = true →
                 ∃ stored, b' = with_answer b eid stored ∧ stored_answer stored ∧
                           dict_get (answers b') eid = Some stored)).
Proof.
  intros [(-> & [Hr|[Hr|(e' & Hr)]])|(eid & ans & v & He & _ & _ & Hf & Hset & [Hr|(Hr & Hw)])]%groq_step_cases;
    try done.
  - left. by injection Hr as ->.
  - exfalso. repeat (apply elem_of_cons in Hr as [?|Hr]; [done|]).
    by apply elem_of_nil in Hr.
  - right. injection Hr as ->. split_and!; [done|done|].
    exists eid, (other_fallback q ans v). split_and!; [done..|].
    intros Hs.
    destruct (set_answer_cases b eid (other_fallback q ans v))
      as [(Hc & _)|[(Hc & _)|[(Hc & Hl)|(stored & Hc & Hst & _)]]];
      rewrite Hc in Hset; [done|done|congruence|].
    injection Hset as <-.
    exists stored. split_and!; [done..|]. cbn [answers with_answer]. apply dict_get_set.
Qed.

Lemma groq_step_raises_witness :
  (IndexError = ValueError_int_literal ∧
   with_answer (sample_builder true) (py "555") (VList [VStr (py "B")]) = sample_builder true) ∨
  (IndexError = IndexError ∧
   (QACache.max_pairs
      {| QACache.max_pairs := -1; QACache.max_chars := 900; QACache.pairs := [] |} < 0 ∨
    q_text sample_checkboxes = []) ∧
   ∃ eid value, q_entry_id sample_checkboxes = Some eid ∧ value_falsy value = false ∧
                set_answer (R:=sample_json_runtime) (sample_builder true) eid value
                = (with_answer (sample_builder true) (py "555") (VList [VStr (py "B")]),
                   Ok ()) ∧
                (strict (sample_builder true) = true →
                 ∃ stored,
                   with_answer (sample_builder true) (py "555") (VList [VStr (py "B")])
                   = with_answer (sample_builder true) eid stored ∧
                   stored_answer stored ∧
                   dict_get (answers (with_answer (sample_builder true) (py "555")
                                        (VList [VStr (py "B")]))) eid = Some stored)).
Proof.
  apply (groq_step_raises sample_json_runtime (sample_builder true)
           (with_answer (sample_builder true) (py "555") (VList [VStr (py "B")]))
           {| QACache.max_pairs := -1; QACache.max_chars := 900; QACache.pairs := [] |}
           {| QACache.max_pairs := -1; QACache.max_chars := 900; QACache.pairs := [] |}
           sample_checkboxes (Some sample_reply) IndexError).
  vm_compute. reflexivity.
Defined.

(** A lenient builder that lacks the id: the pass is left by the
    [IndexError] of the cache, and nothing was stored. *)
Example groq_step_raises_lenient :
  groq_step (R:=sample_json_runtime)
    (new_builder (py "act") (py "tok") [] false)
    {| QACache.max_pairs := -1; QACache.max_chars := 900; QACache.pairs := [] |}
    sample_checkboxes (Some sample_reply)
  = (new_builder (py "act") (py "tok") [] false,
     {| QACache.max_pairs := -1; QACache.max_chars := 900; QACache.pairs := [] |},
     Raise IndexError).
Proof. vm_compute. reflexivity. Qed.

Lemma indexed_ids_elem (qs : list Question) (q : Question) (eid : pystr) :
  q ∈ qs → q_entry_id q = Some eid → eid ≠ [] → eid ∈ indexed_ids qs.
Proof.
  intros Hq He Hne. apply list_elem_of_omap. exists q. split; [done|].
  rewrite He. by destruct eid.
Qed.

Lemma filter_none {A} (P : A → Prop) `{∀ x, Decision (P x)} (l : list A) :
  (∀ y, y ∈ l → ¬ P y) → filter P l = [].
Proof.
  induction l as [|x l IH]; intros Hl; [done|].
  rewrite filter_cons. destruct (decide (P x)) as [Hx|Hx].
  - exfalso. apply (Hl x); [by left|done].
  - apply IH. intros y Hy. apply Hl. by right.
Qed.

Lemma filter_entry_id_unique (qs : list Question) (q : Question) (eid : pystr) :
  NoDup (indexed_ids qs) → q ∈ qs → q_entry_id q = Some eid → eid ≠ [] →
  filter (λ q, q_entry_id q = Some eid) qs = [q].
Proof.
  intros Hnd Hq He Hne. induction qs as [|x qs IH]; [by apply elem_of_nil in Hq|].
  assert (∀ y, y ∈ qs → q_entry_id y = Some eid → eid ∈ indexed_ids qs) as Hin.
  { intros y Hy Hye. by eapply indexed_ids_elem. }
  rewrite filter_cons. destruct (decide (q_entry_id x = Some eid)) as [Hx|Hx].
  - assert (indexed_ids (x :: qs) = eid :: indexed_ids qs) as Hids.
    { unfold indexed_ids. cbn [omap list_omap]. rewrite Hx. by destruct eid. }
    rewrite Hids in Hnd. apply NoDup_cons in Hnd as [Hnot Hnd].
    apply elem_of_cons in Hq as [->|Hq]; [|exfalso; apply Hnot; by eapply Hin].
    f_equal. apply filter_none. intros y Hy Hye.
    apply Hnot. by eapply Hin.
  - apply elem_of_cons in Hq as [->|Hq]; [done|]. apply IH; [|done].
    unfold indexed_ids in *. cbn [omap list_omap] in Hnd.
    destruct (q_entry_id x) as [[|c0 e0]|]; try done.
    by apply NoDup_cons in Hnd as [_ Hnd].
Qed.

Lemma index_questions_unique (qs : list Question) (q : Question) (eid : pystr) :
  NoDup (indexed_ids qs) → q ∈ qs → q_entry_id q = Some eid → eid ≠ [] →
  index_questions qs !! eid = Some q.
Proof.
  intros Hnd Hq He Hne. unfold index_questions.
  rewrite index_questions_fold by done.
  by rewrite (filter_entry_id_unique qs q eid).
Qed.

Section LoopInvariant.
Context {R : Runtime} {L : RuntimeLaws R}.

Lemma groq_step_invariant (qs : list Question) (b b' : Builder) (c c' : QACache.t)
    (q : Question) (reply : option pystr) (r : result outcome) :
  NoDup (indexed_ids qs) → q ∈ qs →
  loop_invariant qs b →
  groq_step b c q reply = (b', c', r) →
  loop_invariant qs b'.
Proof.
  intros Hnd Hq [Hidx Hans] Hstep.
  apply groq_step_cases in Hstep
    as [(-> & _)|(eid & ans & v & He & Hne & Hv & Hf & Hset & _)]; [done|].
  assert (q_by_id b !! eid = Some q) as Hlook.
  { rewrite Hidx. by apply index_questions_unique. }
  set (value := other_fallback q ans v) in *.
  assert (b' = b ∨ ∃ v', b' = with_answer b eid v' ∧
            (choices_of q ≠ [] →
             str_lower (q_type q) ∈ [py "checkboxes"; py "multiple_choice"; py "dropdown"] →
             declared_value q v')) as [->|(v' & -> & Hdecl)]; [|done|].
  { destruct (decide (choices_of q ≠ [] ∧
        str_lower (q_type q) ∈ [py "checkboxes"; py "multiple_choice"; py "dropdown"]))
      as [[Hopts Ht]|Hno].
    - assert (str_lower (q_type q) ≠ py "choice") as Hch.
      { intros Hc. rewrite Hc in Ht. revert Ht. compute_done. }
      destruct (derived_value_stored b q eid ans v Hlook Hopts Hch Hv Hf) as [Hst Hshape].
      fold value in Hst, Hshape. rewrite Hst in Hset. injection Hset as <-.
      right. exists value. split; [done|]. intros _ _.
      destruct Hshape as [H|[(_ & H)|[(_ & H)|(H1 & H2 & _)]]].
      + by left.
      + right. by left.
      + right. by right.
      + exfalso. apply elem_of_cons in Ht as [Ht|Ht]; done.
    - destruct (set_answer_cases b eid value)
        as [(Hc & _)|[(Hc & _)|[(Hc & _)|(v' & Hc & _)]]];
        rewrite Hc in Hset; simplify_eq; [by left|].
      right. exists v'. split; [done|]. intros H1 H2. destruct Hno. done. }
  split; [done|]. cbn [answers with_answer]. intros k value' Hk.
  destruct (decide (k = eid)) as [->|Hke].
  - rewrite dict_get_set in Hk. injection Hk as <-. by exists q.
  - rewrite dict_get_set_ne in Hk by done. by apply Hans.
Qed.

Lemma groq_loop_invariant (qs : list Question) (work : list (Question * option pystr))
    (b b' : Builder) (c c' : QACache.t) (r : result (list outcome)) :
  NoDup (indexed_ids qs) →
  (∀ q reply, (q, reply) ∈ work → q ∈ qs) →
  loop_invariant qs b →
  groq_loop b c work = (b', c', r) →
  loop_invariant qs b'.
Proof.
  intros Hnd. revert b b' c c' r.
  induction work as [|[q reply] work IH]; intros b b' c c' r Hw Hinv.
  - by intros [= <- <- <-].
  - cbn [groq_loop].
    destruct (groq_step b c q reply) as [[b1 c1] [o|e]] eqn:Hstep.
    + assert (loop_invariant qs b1) as Hinv1.
      { eapply groq_step_invariant; [done| |done|done]. eapply Hw. by left. }
      destruct (groq_loop b1 c1 work) as [[b2 c2] [os|e]] eqn:Hloop;
        intros [= <- <- <-];
        (eapply (IH b1 _ c1); [intros q' reply' Hin; eapply Hw; by right|done|exact Hloop]).
    + intros [= <- <- <-]. eapply groq_step_invariant; [done| |done|done].
      eapply Hw. by left.
Qed.

End LoopInvariant.

(** X19: the whole loop of [answer_form_with_groq], from a new builder
    over questions with distinct entry ids, whatever the replies and
    whether the loop ends or is left by an exception: every answer the
    builder then holds belongs to one of the questions, and for a
    checkboxes, multiple_choice or dropdown question with options it is
    made of that question's options, or is the record of a free answer
    with a text, for a question that allows it. *)
Theorem groq_loop_declared (R : Runtime) (L : RuntimeLaws R) (qs : list Question)
    (work : list (Question * option pystr)) (meta_action meta_fbzx : pystr)
    (strict_mode : bool) (b' : Builder) (c c' : QACache.t) (r : result (list outcome))
    (eid : pystr) (value : pyval) :
  NoDup (indexed_ids qs) →
  (∀ q reply, (q, reply) ∈ work → q ∈ qs) →
  groq_loop (new_builder meta_action meta_fbzx qs strict_mode) c work = (b', c', r) →
  dict_get (answers b') eid = Some value →
  ∃ q, q ∈ qs ∧ q_entry_id q = Some eid ∧
       (choices_of q ≠ [] →
        str_lower (q_type q) ∈ [py "checkboxes"; py "multiple_choice"; py "dropdown"] →
        declared_value q value).
Proof.
  intros Hnd Hw Hloop Hget.
  assert (loop_invariant qs b') as [_ Hans]; [|by apply Hans].
  eapply groq_loop_invariant; [done|done| |done].
  split; [done|]. intros k v. done.
Qed.

Lemma groq_loop_declared_witness :
  ∃ q, q ∈ [sample_checkboxes; sample_dropdown] ∧ q_entry_id q = Some (py "555") ∧
       (choices_of q ≠ [] →
        str_lower (Runtime:=sample_json_runtime) (q_type q)
          ∈ [py "checkboxes"; py "multiple_choice"; py "dropdown"] →
        declared_value q (VList [VStr (py "B")])).
Proof.
  apply (groq_loop_declared sample_json_runtime sample_json_runtime_laws
           [sample_checkboxes; sample_dropdown]
           [(sample_checkboxes, Some sample_reply); (sample_dropdown, None)]
           (py "https://example.org/formResponse") (py "tok") true
           (with_answer (sample_builder true) (py "555") (VList [VStr (py "B")]))
           {| QACache.max_pairs := 5; QACache.max_chars := 900; QACache.pairs := [] |}
           {| QACache.max_pairs := 5; QACache.max_chars := 900;
              QACache.pairs := [(py "Pick some", py "B")] |}
           (Ok [Stored (VList [VStr (py "B")]); NoReply])).
  - vm_compute. repeat constructor; by intros ?%elem_of_nil || compute_done.
  - intros q reply Hin. apply elem_of_cons in Hin as [[= -> _]|Hin]; [by left|].
    apply list_elem_of_singleton in Hin as [= -> _]. right. by left.
  - vm_compute. reflexivity.
  - reflexivity.
Defined.

(** ** The extractor, further *)

Ltac dig_step :=
  match goal with
  | |- context [_dig ?x ?path] =>
      let v := fresh "v" in
      let Hv := fresh "Hv" in
      destruct (dig_ok x path) as [v Hv]; rewrite Hv; clear Hv; cbn [bind]
  end.

Section ParserTotal.
Context {R : Runtime}.

Lemma extract_choices_ok (item : pyval) : ∃ r, _extract_choices item = Ok r.
Proof.
  unfold _extract_choices. dig_step.
  destruct (list_of_lists _); [dig_step; by eexists|].
  destruct (fold_left _ _ _); by eexists.
Qed.

Lemma question_type_ok (item : pyval) : ∃ t, _question_type item = Ok t.
Proof.
  unfold _question_type. dig_step. destruct (_ ≫= _); [by eexists|].
  destruct (extract_choices_ok item) as [[choices cols] ->]. cbn [bind].
  destruct choices; [destruct cols as [[|? ?]|]|]; by eexists.
Qed.

Lemma is_required_ok (item : pyval) : ∃ r, _is_required item = Ok r.
Proof.
  unfold _is_required. dig_step.
  match goal with |- context [match ?s with Some b => Ok (Some b) | None => _ end] =>
    destruct s end; by eexists.
Qed.

Lemma entry_id_at_paths_ok (item : pyval) (paths : list (list Z)) :
  ∃ r, entry_id_at_paths item paths = Ok r.
Proof.
  induction paths as [|path paths IH]; cbn [entry_id_at_paths]; [by eexists|].
  dig_step. destruct (as_entry_id _); [by eexists|].
  match goal with |- context [match ?s with Some b => Ok (Some b) | None => _ end] =>
    destruct s end; [by eexists|done].
Qed.

Lemma extract_entry_id_ok (item : pyval) :
  ∃ r, _extract_entry_id_from_item_fb item = Ok r.
Proof.
  unfold _extract_entry_id_from_item_fb.
  destruct (entry_id_at_paths_ok item [[4; 0; 0]; [4; 0; 3; 0]; [4; 0; 0; 0]; [0]])
    as [r ->]. cbn [bind]. destruct r; by eexists.
Qed.

Lemma item_text_ok (it : pyval) : ∃ r, item_text it = Ok r.
Proof.
  unfold item_text. dig_step. destruct (nonblank_str _); [by eexists|].
  dig_step. destruct (nonblank_str _); by eexists.
Qed.

(** One pass of the loop of [parse] returns; the index into the entry ids
    moves by one when the pass appends a question and an id was left, and
    stays otherwise. *)
Lemma parse_item_ok (meta : Meta) (idx : nat) (it : pyval) :
  ∃ idx' oq, parse_item meta idx it = Ok (idx', oq) ∧
    (idx' = if bool_decide (is_Some oq ∧ is_Some (m_entry_ids meta !! idx))
            then S idx else idx).
Proof.
  unfold parse_item. destruct (negb (is_list it)).
  { eexists _, None. split; [done|]. rewrite bool_decide_eq_false_2; [done|].
    by intros [[? [=]] _]. }
  destruct (item_text_ok it) as [text ->]. cbn [bind].
  destruct text as [[|c text]|].
  1,3: eexists _, None; (split; [done|]); rewrite bool_decide_eq_false_2; [done|];
       by intros [[? [=]] _].
  destruct (question_type_ok it) as [qtype ->]. cbn [bind].
  destruct (is_required_ok it) as [required ->]. cbn [bind].
  destruct (extract_choices_ok it) as [[choices cols] ->]. cbn [bind].
  assert (∀ eid0 : option pystr, ∃ eid,
            (if truthy eid0 then Ok eid0 else _extract_entry_id_from_item_fb it) = Ok eid)
    as Hm.
  { intros eid0. destruct (truthy eid0); [by eexists|apply extract_entry_id_ok]. }
  destruct (m_entry_ids meta !! idx) as [e|] eqn:He; cbn zeta;
    match goal with
    | |- context [bind (if truthy ?x then _ else _) _] =>
        destruct (Hm x) as [eid ->]; cbn [bind]
    end; eexists _, (Some _); (split; [done|]).
  - by rewrite bool_decide_eq_true_2.
  - rewrite bool_decide_eq_false_2; [done|]. by intros [_ [? [=]]].
Qed.

Lemma parse_items_ok (meta : Meta) (idx : nat) (items : list pyval) :
  ∃ qs, parse_items meta idx items = Ok qs ∧ (length qs ≤ length items)%nat.
Proof.
  revert idx. induction items as [|it items IH]; intros idx; cbn [parse_items].
  - by exists [].
  - destruct (parse_item_ok meta idx it) as (idx' & oq & -> & _). cbn [bind].
    destruct (IH idx') as (qs & -> & Hlen). cbn [bind].
    eexists. split; [done|]. destruct oq; cbn [length]; lia.
Qed.

End ParserTotal.

(** X20: [parse] raises in one case only, the [RuntimeError] of
    [_guess_items_root] when no items root is found: no index and no type
    stands in the way of reading the title, the description or an item.
    When the root is found [parse] returns, with at most one question per
    element of the root. *)
Theorem parse_raises_only_no_items_root (R : Runtime) (meta : Meta) (data : pyval) :
  (∀ e, parse meta data = Raise e →
        e = RuntimeError_no_items_root ∧
        _guess_items_root data = Raise RuntimeError_no_items_root) ∧
  (∀ items, _guess_items_root data = Ok items →
        ∃ fm, parse meta data = Ok fm ∧
              (length (fm_questions fm) ≤ length items)%nat).
Proof.
  unfold parse. do 2 dig_step.
  destruct (_guess_items_root data) as [items|e0] eqn:Hroot; cbn [bind].
  - destruct (parse_items_ok meta 0 items) as (qs & -> & Hlen). cbn [bind].
    split; [done|]. intros ? [= <-]. by eexists.
  - assert (e0 = RuntimeError_no_items_root) as ->.
    { unfold _guess_items_root in Hroot. revert Hroot. dig_step.
      destruct v1 as [| | | | |[|x l]|]; try done;
        destruct (fold_left _ _ _); try done; by intros [= <-]. }
    split; [by intros e [= <-]|done].
Qed.

Section ParserFacts.
Context {R : Runtime}.

Lemma question_type_tags (item : pyval) (t : pystr) :
  _question_type item = Ok t →
  t ∈ [py "short_answer"; py "paragraph"; py "multiple_choice"; py "dropdown";
       py "checkboxes"; py "linear_scale"; py "date"; py "time";
       py "grid"; py "choice"; py "text"] ∧
  ∃ choices cols, _extract_choices item = Ok (choices, cols) ∧
    (t = py "text" → choices = None) ∧
    (t = py "grid" → choices ≠ None).
Proof.
  unfold _question_type. destruct (extract_choices_ok item) as [[choices cols] Hc].
  rewrite Hc. dig_step. destruct (as_int v ≫= TYPE_MAP) as [name|] eqn:Hn.
  - intros [= <-]. destruct (as_int v) as [z|]; [|done]. cbn in Hn.
    split; [|exists choices, cols; split; [done|]].
    + unfold TYPE_MAP in Hn. repeat case_match; simplify_eq; in_list.
    + unfold TYPE_MAP in Hn. repeat case_match; simplify_eq; by split.
  - cbn [bind]. destruct choices as [ch|]; [destruct cols as [[|? ?]|]|];
      intros [= <-]; (split; [in_list|]); do 2 eexists; (split; [done|]); by split.
Qed.

Lemma mark_other_type_id (q : Question) (eid : option pystr) :
  q_type (mark_other q eid) = q_type q ∧ q_entry_id (mark_other q eid) = q_entry_id q ∧
  (choice_like (q_type q) = false → mark_other q eid = q).
Proof.
  unfold mark_other. destruct (choice_like (q_type q)); [|done].
  by destruct (existsb _ _).
Qed.

(** The question a pass appends when an entry id is left at the index:
    that id, if it is not empty. *)
Lemma parse_item_entry_id (meta : Meta) (idx idx' : nat) (it : pyval) (q : Question)
    (e : pystr) :
  parse_item meta idx it = Ok (idx', Some q) →
  m_entry_ids meta !! idx = Some e → e ≠ [] →
  q_entry_id q = Some e.
Proof.
  unfold parse_item. destruct (negb (is_list it)); [done|].
  intros (text & _ & H)%bind_ok He Hne. destruct text as [[|c text]|]; try done.
  apply bind_ok in H as (qtype & _ & H).
  apply bind_ok in H as (required & _ & H).
  apply bind_ok in H as ([choices cols] & _ & H).
  rewrite He in H. cbn zeta in H.
  assert (truthy (Some e) = true) as Ht by (by destruct e).
  rewrite Ht in H. cbv beta iota in H. rewrite Ht in H. cbn [bind] in H.
  injection H as _ <-.
  match goal with
  | |- q_entry_id (mark_other ?raw ?eid) = _ =>
      by destruct (mark_other_type_id raw eid) as (_ & -> & _)
  end.
Qed.

Lemma parse_items_entry_id (meta : Meta) (idx : nat) (items : list pyval)
    (qs : list Question) (k : nat) (q : Question) (e : pystr) :
  parse_items meta idx items = Ok qs →
  qs !! k = Some q →
  m_entry_ids meta !! (idx + k)%nat = Some e → e ≠ [] →
  q_entry_id q = Some e.
Proof.
  revert idx qs k. induction items as [|it items IH]; intros idx qs k; cbn [parse_items].
  - by intros [= <-].
  - destruct (parse_item_ok meta idx it) as (idx' & oq & Hit & Hidx). rewrite Hit.
    cbn [bind]. intros (qs' & Hqs' & [= <-])%bind_ok Hk He Hne.
    destruct oq as [q0|].
    + destruct k as [|k]; cbn in Hk.
      * injection Hk as ->. rewrite Nat.add_0_r in He.
        by eapply parse_item_entry_id.
      * assert (is_Some (m_entry_ids meta !! idx)) as Hsome.
        { apply lookup_lt_is_Some. apply lookup_lt_Some in He. lia. }
        rewrite bool_decide_eq_true_2 in Hidx by done. subst idx'.
        eapply (IH (S idx) qs' k); try done.
        by replace (S idx + k)%nat with (idx + S k)%nat by lia.
    + rewrite bool_decide_eq_false_2 in Hidx by (by intros [[? [=]] _]). subst idx'.
      by eapply (IH idx qs' k).
Qed.

End ParserFacts.

(** X21: the type of every question [parse] returns is one of eleven tags,
    the eight of [TYPE_MAP] and the three of the fallback, [grid], [choice]
    and [text]; a question tagged [text] has no options, and one tagged
    [grid] has rows. *)
Theorem parse_question_types (R : Runtime) (meta : Meta) (data : pyval)
    (fm : FormModel) (q : Question) :
  parse meta data = Ok fm →
  q ∈ fm_questions fm →
  q_type q ∈ [py "short_answer"; py "paragraph"; py "multiple_choice"; py "dropdown";
              py "checkboxes"; py "linear_scale"; py "date"; py "time";
              py "grid"; py "choice"; py "text"] ∧
  (q_type q = py "text" → q_choices_or_rows q = None) ∧
  (q_type q = py "grid" → ∃ c l, q_choices_or_rows q = Some (c :: l)).
Proof.
  intros (items & _ & Hitems)%parse_questions Hq.
  destruct (parse_items_question _ _ _ _ _ Hitems Hq)
    as (it & raw & _ & (_ & Hty & cols & Hch) & ->).
  destruct (mark_other_type_id raw (q_entry_id raw)) as (-> & _ & Hsame).
  destruct (question_type_tags it _ Hty) as (Htag & ch & cols' & Hch' & Htext & Hgrid).
  rewrite Hch in Hch'. injection Hch' as <- <-.
  split_and!; [done| |].
  - intros Ht. rewrite Hsame by (by rewrite Ht). by apply Htext.
  - intros Ht. rewrite Hsame by (by rewrite Ht). specialize (Hgrid Ht).
    revert Hch. unfold _extract_choices. dig_step.
    destruct (list_of_lists _).
    + dig_step. intros [= Hc _]. rewrite <- Hc in *.
      destruct (option_texts l) as [|c l']; [done|]. by exists c, l'.
    + destruct (fold_left _ _ _) as [best|]; intros [= Hc]; rewrite <- Hc in *; [|done].
      destruct (option_texts best) as [|c l']; [done|]. by exists c, l'.
Qed.

Lemma parse_question_types_witness :
  q_type sample_marked_question ∈
    [py "short_answer"; py "paragraph"; py "multiple_choice"; py "dropdown";
     py "checkboxes"; py "linear_scale"; py "date"; py "time";
     py "grid"; py "choice"; py "text"] ∧
  (q_type sample_marked_question = py "text" →
   q_choices_or_rows sample_marked_question = None) ∧
  (q_type sample_marked_question = py "grid" →
   ∃ c l, q_choices_or_rows sample_marked_question = Some (c :: l)).
Proof.
  destruct (parse (R:=ascii_runtime) sample_meta sample_document) as [fm|] eqn:Hfm;
    [|by vm_compute in Hfm].
  apply (parse_question_types ascii_runtime sample_meta sample_document fm
           sample_marked_question Hfm).
  vm_compute in Hfm. injection Hfm as <-. right. left.
Defined.

(** X22: the entry ids read from the page go to the questions in order:
    the question at index [k] of the result has the id at index [k] of
    [entry_ids], when there is one and it is not empty; items that give no
    question use up no id. *)
Theorem parse_entry_ids_in_order (R : Runtime) (meta : Meta) (data : pyval)
    (fm : FormModel) (k : nat) (q : Question) (e : pystr) :
  parse meta data = Ok fm →
  fm_questions fm !! k = Some q →
  m_entry_ids meta !! k = Some e →
  e ≠ [] →
  q_entry_id q = Some e.
Proof.
  intros (items & _ & Hitems)%parse_questions Hk He Hne.
  by eapply (parse_items_entry_id meta 0 items).
Qed.

Lemma parse_entry_ids_in_order_witness :
  q_entry_id sample_unmarked_question = Some (py "555").
Proof.
  destruct (parse (R:=ascii_runtime) sample_meta sample_document) as [fm|] eqn:Hfm;
    [|by vm_compute in Hfm].
  apply (parse_entry_ids_in_order ascii_runtime sample_meta sample_document fm 0
           sample_unmarked_question (py "555") Hfm); [|reflexivity|done].
  vm_compute in Hfm. by injection Hfm as <-.
Defined.

Lemma elem_of_concat {A} (x : A) (ls : list (list A)) :
  x ∈ concat ls ↔ ∃ l, l ∈ ls ∧ x ∈ l.
Proof.
  induction ls as [|a ls IH]; simpl.
  - split; [by intros ?%elem_of_nil|by intros (l & ?%elem_of_nil & _)].
  - rewrite elem_of_app, IH. split.
    + intros [H|(l & H1 & H2)]; [exists a; split; [by left|done]|].
      exists l. split; [by right|done].
    + intros (l & [->|H1]%elem_of_cons & H2); [by left|]. right. by exists l.
Qed.

(** Induction on a value through the elements of its lists. *)
Lemma pyval_list_ind (P : pyval → Prop) :
  (∀ l, Forall P l → P (VList l)) →
  (∀ v, is_list v = false → P v) →
  ∀ v, P v.
Proof.
  intros Hl Ho. fix IH 1. intros v.
  destruct v as [| | | | |l|d]; try (by apply Ho).
  apply Hl. induction l as [|x l IHl]; constructor; [apply IH|apply IHl].
Qed.

Lemma dig_cons_list (l : list pyval) (i : nat) (v : pyval) (path : list Z) :
  l !! i = Some v → _dig (VList l) (Z.of_nat i :: path) = _dig v path.
Proof.
  intros Hi. cbn [_dig]. pose proof (lookup_lt_Some _ _ _ Hi) as Hlt.
  destruct (_ || _) eqn:E.
  { apply orb_true_iff in E as [E%Z.ltb_lt|E%Z.leb_le]; lia. }
  destruct (list_getitem_in_range l (Z.of_nat i)) as (x & Hx & ->); [lia|].
  rewrite Nat2Z.id in Hx. by simplify_eq.
Qed.

Lemma dig_cons_inv (x : pyval) (p : Z) (path : list Z) (node : list pyval) :
  _dig x (p :: path) = Ok (VList node) →
  ∃ l v, x = VList l ∧ l !! Z.to_nat p = Some v ∧ _dig v path = Ok (VList node).
Proof.
  cbn [_dig]. destruct x as [| | | | |l|]; try done.
  destruct (_ || _) eqn:E; [done|].
  apply orb_false_iff in E as [E1%Z.ltb_ge E2%Z.leb_gt].
  destruct (list_getitem_in_range l p) as (v & Hv & ->); [lia|]. cbn [bind].
  intros Hd. by exists l, v.
Qed.

(** X23: [_walk_lists] yields exactly the lists that [_dig] reaches: a list
    is among the nodes of the walk of a value if and only if some path of
    indices leads from the value to it. *)
Theorem walk_lists_dig (x : pyval) (node : list pyval) :
  node ∈ _walk_lists x ↔ ∃ path, _dig x path = Ok (VList node).
Proof.
  split.
  - revert node. induction x as [l IH|v Hv] using pyval_list_ind; intros node.
    + cbn [_walk_lists]. intros [->|Hin]%elem_of_cons; [by exists []|].
      apply elem_of_concat in Hin as (w & Hw & Hnode).
      apply list_elem_of_fmap in Hw as (v & -> & Hv).
      apply list_elem_of_lookup_1 in Hv as [i Hi].
      rewrite Forall_forall in IH.
      destruct (IH v (list_elem_of_lookup_2 _ _ _ Hi) node Hnode) as [path Hpath].
      exists (Z.of_nat i :: path). by rewrite (dig_cons_list l i v).
    + destruct v; try done; by intros ?%elem_of_nil.
  - intros [path Hpath]. revert x Hpath.
    induction path as [|p path IH]; intros x.
    + intros [= ->]. cbn [_walk_lists]. by left.
    + intros (l & v & -> & Hv & Hd)%dig_cons_inv. cbn [_walk_lists]. right.
      apply elem_of_concat. exists (_walk_lists v). split; [|by apply IH].
      apply list_elem_of_fmap. exists v. split; [done|].
      by eapply list_elem_of_lookup_2.
Qed.

Section ParsedKeys.
Context {R : Runtime} {L : RuntimeLaws R}.

(** The two keys of the free answer, for a question [parse] returned. *)
Lemma parsed_other_keys (meta : Meta) (data : pyval) (fm : FormModel) (q : Question)
    (eid : pystr) :
  parse meta data = Ok fm → q ∈ fm_questions fm → q_entry_id q = Some eid →
  (q_other_value q = None ∨ q_other_value q = Some OTHER_OPTION) ∧
  (q_other_response_key q = None ∨
   q_other_response_key q = Some (py "entry." ++ eid ++ py ".other_option_response")).
Proof.
  intros (items & _ & Hitems)%parse_questions Hq He.
  destruct (parse_items_question _ _ _ _ _ Hitems Hq) as (it & raw & _ & Hraw & ->).
  destruct (mark_other_spec raw (proj1 Hraw)) as (_ & _ & _ & _ & _ & H6 & H7).
  cbn zeta in H6, H7. rewrite H6, H7, He. cbn [default].
  destruct (choice_like (q_type raw) && existsb is_blank_option (choices_of raw));
    destruct (truthy (Some eid)); cbn [andb id]; auto.
Qed.

End ParsedKeys.

(** X24: what the extractor writes and what the builder posts agree on the
    free answer: for a question that [parse] returned and that the builder
    has under its entry id, the record of a free answer is posted as the
    sentinel [__other_option__] under the field key and the text under the
    field key followed by [.other_option_response], whether or not the
    extractor marked the question. *)
Theorem parsed_free_answer_pairs (R : Runtime) (L : RuntimeLaws R) (meta : Meta)
    (data : pyval) (fm : FormModel) (q : Question) (eid t : pystr) (b : Builder) :
  parse meta data = Ok fm →
  q ∈ fm_questions fm →
  q_entry_id q = Some eid →
  q_by_id b !! eid = Some q →
  entry_pairs b eid (VDict [(KEY_OTHER, VStr t)]) =
    [(py "entry." ++ eid, py "__other_option__");
     (py "entry." ++ eid ++ py ".other_option_response", t)].
Proof.
  intros Hfm Hq He Hb.
  destruct (parsed_other_keys meta data fm q eid Hfm Hq He) as [Hv Hk].
  unfold entry_pairs. rewrite Hb. cbn [mbind option_bind].
  change (dict_get [(KEY_OTHER, VStr t)] KEY_OTHER) with (Some (VStr t)).
  change (dict_get [(KEY_OTHER, VStr t)] KEY_SELECTED) with (@None pyval).
  cbv beta iota zeta. rewrite py_str_str.
  assert (default OTHER_OPTION (q_other_value q) = py "__other_option__") as ->.
  { by destruct Hv as [-> | ->]. }
  destruct Hk as [-> | ->].
  - by rewrite <- (assoc_L (++)).
  - done.
Qed.

Lemma parsed_free_answer_pairs_witness :
  entry_pairs (R:=ascii_runtime)
    (new_builder (py "act") (py "tok") [sample_unmarked_question; sample_marked_question] true)
    (py "67890") (VDict [(KEY_OTHER, VStr (py "Blue"))]) =
    [(py "entry." ++ py "67890", py "__other_option__");
     (py "entry." ++ py "67890" ++ py ".other_option_response", py "Blue")].
Proof.
  destruct (parse (R:=ascii_runtime) sample_meta sample_document) as [fm|] eqn:Hfm;
    [|by vm_compute in Hfm].
  apply (parsed_free_answer_pairs ascii_runtime ascii_runtime_laws sample_meta
           sample_document fm sample_marked_question (py "67890") (py "Blue") _ Hfm);
    [|reflexivity|reflexivity].
  vm_compute in Hfm. injection Hfm as <-. right. left.
Defined.

(** ** What the builder posts *)


Section BuilderPosts.
Context {R : Runtime} {L : RuntimeLaws R}.



End BuilderPosts.



(** ** The context of a section *)

Example make_section_context_map_run :
  make_section_context_map (R:=ascii_runtime) two_ranges_letter sample_section_questions
  = [(py "12", py "1. Read the text."); (py "13", py "1. Read the text.")].
Proof. vm_compute. reflexivity. Qed.

Lemma drop_while_head {A} (p : A → bool) (l l' : list A) (x : A) :
  drop_while p l = x :: l' → p x = false.
Proof.
  induction l as [|y l IH]; simpl; [done|].
  destruct (p y) eqn:E; [done|]. by intros [= <- _].
Qed.

(** A stripped text that is not empty starts with a character that is no
    whitespace. *)
Lemma strip_head (s t : pystr) (c : char) : strip s = c :: t → is_space c = false.
Proof.
  unfold strip, strip_by. set (d := drop_while is_space s).
  intros Hs.
  assert (∃ k, d = (c :: t) ++ k) as [k Hd].
  { exists (reverse (take_while is_space (reverse d))).
    rewrite <- Hs, <- reverse_app, take_drop_while. by rewrite reverse_involutive. }
  by eapply (drop_while_head is_space s).
Qed.

Lemma find_snoc {A} (f : A → bool) (l : list A) (x : A) :
  List.find f (l ++ [x]) =
  match List.find f l with
  | Some y => Some y
  | None => if f x then Some x else None
  end.
Proof.
  induction l as [|y l IH]; simpl; [done|]. by destruct (f y).
Qed.

Section SectionContextFacts.
Context {R : Runtime}.
Variable letter_ci : char → bool.
Hypothesis digit_no_letter : ∀ c, is_Some (chr_decimal c) → letter_ci c = false.

Lemma section_not_subpart (t : pystr) (c : char) (t' : pystr) :
  t = c :: t' → is_space c = false →
  re_section_match t = true → re_subpart_match letter_ci t = false.
Proof.
  intros -> Hc. unfold re_section_match, re_subpart_match. cbn [re_ws_star].
  rewrite Hc. cbn [andb orb re_digits_plus].
  intros [Hd%bool_decide_eq_true_1 _]%andb_true_iff.
  destruct t' as [|d t']; [done|]. by rewrite (digit_no_letter c Hd).
Qed.

Lemma current_section_snoc (pre : list Question) (q : Question) :
  current_section letter_ci (pre ++ [q]) =
    if opens_section q then section_stem letter_ci (strip (q_text q))
    else current_section letter_ci pre.
Proof.
  unfold current_section. rewrite reverse_app. cbn [reverse app List.find].
  change (reverse [q]) with [q]. cbn [app List.find]. by destruct (opens_section q).
Qed.

(** What a pass of the loop does, by the kind of the question. *)
Lemma section_step_cases (ctx : pydict pystr) (cur : pystr) (q : Question) :
  section_step letter_ci (ctx, cur) q =
    if opens_section q then (ctx, section_stem letter_ci (strip (q_text q)))
    else if re_subpart_match letter_ci (strip (q_text q))
            && negb (bool_decide (cur = [])) && truthy (q_entry_id q)
    then (dict_set ctx (default [] (q_entry_id q)) cur, cur)
    else (ctx, cur).
Proof.
  unfold section_step, opens_section.
  destruct (strip (q_text q)) as [|c t] eqn:Ht; [done|].
  destruct (re_section_match (c :: t)) eqn:Hs; [|done].
  rewrite (section_not_subpart (c :: t) c t eq_refl); [|by eapply strip_head|done].
  by rewrite andb_false_r.
Qed.

Lemma section_step_invariant (pre : list Question) (st : pydict pystr * pystr)
    (q : Question) :
  section_invariant letter_ci pre st →
  section_invariant letter_ci (pre ++ [q]) (section_step letter_ci st q).
Proof.
  destruct st as [ctx cur]. intros [Hcur Hctx]. cbn [fst snd] in *.
  assert (∀ eid v, dict_get ctx eid = Some v →
            v ≠ [] ∧ eid ≠ [] ∧
            ∃ i q0, (pre ++ [q]) !! i = Some q0 ∧ q_entry_id q0 = Some eid ∧
                    opens_section q0 = false ∧
                    re_subpart_match letter_ci (strip (q_text q0)) = true ∧
                    v = current_section letter_ci (take i (pre ++ [q]))) as Hold.
  { intros eid v Hv. destruct (Hctx eid v Hv) as (H1 & H2 & i & q0 & Hi & H3 & H4 & H5 & H6).
    split_and!; [done..|]. exists i, q0.
    pose proof (lookup_lt_Some _ _ _ Hi) as Hlt.
    split_and!; [by rewrite lookup_app_l|done..|].
    rewrite take_app_le by lia. done. }
  unfold section_invariant. rewrite section_step_cases, current_section_snoc.
  destruct (opens_section q) eqn:Ho; [by split|].
  destruct (_ && _) eqn:Hc; [|by split].
  apply andb_true_iff in Hc as [[Hsub Hne%negb_true_iff%bool_decide_eq_false_1]%andb_true_iff Hid].
  split; [done|]. cbn [fst]. intros eid v.
  destruct (q_entry_id q) as [[|e0 e]|] eqn:He; try done. cbn [default].
  destruct (decide (eid = e0 :: e)) as [->|Hk].
  - rewrite dict_get_set. intros [= <-]. split_and!; [done..|].
    exists (length pre), q. split_and!; try done.
    + by rewrite lookup_app_r, Nat.sub_diag by lia.
    + by rewrite take_app_length.
  - rewrite dict_get_set_ne by done. apply Hold.
Qed.

Lemma section_fold_invariant (qs pre : list Question) (st : pydict pystr * pystr) :
  section_invariant letter_ci pre st →
  section_invariant letter_ci (pre ++ qs) (fold_left (section_step letter_ci) qs st).
Proof.
  revert pre st. induction qs as [|q qs IH]; intros pre st Hinv.
  - by rewrite app_nil_r.
  - cbn [fold_left]. rewrite cons_middle, (assoc_L (++)).
    apply IH. by apply section_step_invariant.
Qed.

End SectionContextFacts.

Lemma indexed_ids_snoc (pre : list Question) (q : Question) :
  indexed_ids (pre ++ [q]) =
  indexed_ids pre ++ match q_entry_id q with
                     | Some (c :: e) => [c :: e]
                     | _ => []
                     end.
Proof.
  unfold indexed_ids. rewrite omap_app. f_equal. cbn.
  by destruct (q_entry_id q) as [[|c e]|].
Qed.

Section SectionContextComplete.
Context {R : Runtime}.
Variable letter_ci : char → bool.
Hypothesis digit_no_letter : ∀ c, is_Some (chr_decimal c) → letter_ci c = false.

Lemma section_fold_snoc (pre : list Question) (q : Question) :
  fold_left (section_step letter_ci) (pre ++ [q]) ([], []) =
  section_step letter_ci (fold_left (section_step letter_ci) pre ([], [])) q.
Proof. by rewrite fold_left_app. Qed.

Lemma section_fold_complete (pre : list Question) (i : nat) (q : Question) (eid : pystr) :
  NoDup (indexed_ids pre) →
  pre !! i = Some q → q_entry_id q = Some eid → eid ≠ [] →
  opens_section q = false →
  re_subpart_match letter_ci (strip (q_text q)) = true →
  current_section letter_ci (take i pre) ≠ [] →
  dict_get (fold_left (section_step letter_ci) pre ([], [])).1 eid
  = Some (current_section letter_ci (take i pre)).
Proof.
  revert i q eid. induction pre as [|q0 pre IH] using rev_ind; intros i q eid; [done|].
  intros Hnd Hi He Hne Ho Hsub Hcur.
  rewrite indexed_ids_snoc in Hnd. apply NoDup_app in Hnd as (Hnd & Hfresh & _).
  rewrite section_fold_snoc.
  pose proof (section_fold_invariant letter_ci digit_no_letter pre [] ([], [])) as Hinv.
  destruct (fold_left (section_step letter_ci) pre ([], [])) as [ctx cur] eqn:Hfold.
  destruct Hinv as [Hc _]; [by split|]. cbn [snd app] in Hc.
  rewrite section_step_cases by done.
  destruct (decide (i < length pre)%nat) as [Hlt|Hge].
  - rewrite lookup_app_l in Hi by done. rewrite take_app_le in * by lia.
    specialize (IH i q eid Hnd Hi He Hne Ho Hsub Hcur). cbn [fst] in IH.
    assert (eid ∈ indexed_ids pre) as Hin.
    { eapply indexed_ids_elem; [|done..]. by eapply list_elem_of_lookup_2. }
    destruct (opens_section q0); [done|]. destruct (_ && _) eqn:Hc0; [|done].
    cbn [fst]. rewrite dict_get_set_ne; [done|].
    intros ->. apply andb_true_iff in Hc0 as [_ Hid].
    destruct (q_entry_id q0) as [[|c e]|]; try done. cbn [default] in Hin.
    apply (Hfresh (c :: e)); [done|by left].
  - assert (i = length pre) as ->.
    { apply lookup_lt_Some in Hi. rewrite length_app in Hi. cbn in Hi. lia. }
    rewrite lookup_app_r, Nat.sub_diag in Hi by lia. injection Hi as ->.
    rewrite take_app_length in *. rewrite Ho, Hsub, He, <- Hc.
    rewrite bool_decide_eq_false_2 by (by rewrite Hc).
    assert (truthy (Some eid) = true) as -> by (by destruct eid).
    cbn [andb negb default fst]. apply dict_get_set.
Qed.

End SectionContextComplete.

Lemma two_ranges_no_digit (c : char) :
  is_Some (chr_decimal (Runtime:=ascii_runtime) c) → two_ranges_letter c = false.
Proof.
  cbn. unfold ascii_decimal, ascii_isdigit. destruct (_ && _) eqn:E; [|by intros [? [=]]].
  intros _. apply andb_true_iff in E as [E1%N.leb_le E2%N.leb_le].
  unfold two_ranges_letter.
  assert ((65 <=? c) = false)%N as -> by (apply N.leb_gt; lia).
  assert ((97 <=? c) = false)%N as -> by (apply N.leb_gt; lia).
  assert ((304 <=? c) = false)%N as -> by (apply N.leb_gt; lia).
  assert ((1040 <=? c) = false)%N as -> by (apply N.leb_gt; lia).
  assert ((7296 <=? c) = false)%N as -> by (apply N.leb_gt; lia).
  assert ((c =? 383) = false)%N as -> by (apply N.eqb_neq; lia).
  assert ((c =? 8490) = false)%N as -> by (apply N.eqb_neq; lia).
  done.
Qed.

(** X26: every entry of the map [make_section_context_map] returns is the
    stem in force at a sub-part: its key is the entry id, not empty, of a
    question whose stripped text starts with a letter marker and not with
    a number marker, and its value, not empty, is the stem of the last
    question before it that opens a section.  A question that opens a
    section gets no entry of its own, a character being never both a
    decimal digit and a letter. *)
Theorem section_context_sound (R : Runtime) (letter_ci : char → bool)
    (qs : list Question) (eid ctx : pystr) :
  (∀ c, is_Some (chr_decimal c) → letter_ci c = false) →
  dict_get (make_section_context_map letter_ci qs) eid = Some ctx →
  ctx ≠ [] ∧ eid ≠ [] ∧
  ∃ i q, qs !! i = Some q ∧ q_entry_id q = Some eid ∧
         opens_section q = false ∧
         re_subpart_match letter_ci (strip (q_text q)) = true ∧
         ctx = current_section letter_ci (take i qs).
Proof.
  intros Hdl Hget.
  destruct (section_fold_invariant letter_ci Hdl qs [] ([], [])) as [_ Hctx]; [by split|].
  by apply Hctx.
Qed.

Lemma section_context_sound_witness :
  py "1. Read the text." ≠ [] ∧ py "12" ≠ [] ∧
  ∃ i q, sample_section_questions !! i = Some q ∧ q_entry_id q = Some (py "12") ∧
         opens_section (R:=ascii_runtime) q = false ∧
         re_subpart_match two_ranges_letter (strip (q_text q)) = true ∧
         py "1. Read the text."
         = current_section (R:=ascii_runtime) two_ranges_letter
             (take i sample_section_questions).
Proof.
  apply (section_context_sound ascii_runtime two_ranges_letter sample_section_questions
           (py "12") (py "1. Read the text.")).
  - apply two_ranges_no_digit.
  - reflexivity.
Defined.

(** X27: for questions with distinct entry ids the map is complete: every
    question with an entry id whose stripped text starts with a letter
    marker, and not with a number marker, has as its context the stem of
    the last question before it that opens a section, if there is one. *)
Theorem section_context_complete (R : Runtime) (letter_ci : char → bool)
    (qs : list Question) (i : nat) (q : Question) (eid : pystr) :
  (∀ c, is_Some (chr_decimal c) → letter_ci c = false) →
  NoDup (indexed_ids qs) →
  qs !! i = Some q → q_entry_id q = Some eid → eid ≠ [] →
  opens_section q = false →
  re_subpart_match letter_ci (strip (q_text q)) = true →
  current_section letter_ci (take i qs) ≠ [] →
  dict_get (make_section_context_map letter_ci qs) eid
  = Some (current_section letter_ci (take i qs)).
Proof. intros Hdl. by apply section_fold_complete. Qed.

Lemma section_context_complete_witness :
  dict_get (make_section_context_map (R:=ascii_runtime) two_ranges_letter
              sample_section_questions) (py "13")
  = Some (current_section (R:=ascii_runtime) two_ranges_letter
            (take 2 sample_section_questions)).
Proof.
  apply (section_context_complete ascii_runtime two_ranges_letter
           sample_section_questions 2 sample_third_subpart (py "13"));
    [apply two_ranges_no_digit| |reflexivity|reflexivity|done|reflexivity|reflexivity|done].
  vm_compute. repeat constructor; compute_done.
Defined.

(** ** The entry ids of the questions *)

Lemma indexed_ids_prefix (qs : list Question) (ids : list pystr) :
  (∀ k q, qs !! k = Some q →
          ∃ e, ids !! k = Some e ∧ e ≠ [] ∧ q_entry_id q = Some e) →
  indexed_ids qs = take (length qs) ids.
Proof.
  revert ids. induction qs as [|q qs IH]; intros ids Hk; [done|].
  destruct (Hk 0%nat q eq_refl) as (e & He & Hne & Hq).
  destruct ids as [|e' ids]; [done|]. injection He as ->.
  unfold indexed_ids. cbn [omap list_omap length take]. rewrite Hq.
  destruct e as [|c e]; [done|]. cbn. f_equal.
  apply IH. intros k q' Hq'. apply (Hk (S k) q' Hq').
Qed.

(** X28: when the page gave an entry id for every question and none is
    empty, the questions [parse] returns carry exactly the first entry ids
    of the page, in order; the ids of the page being the matches without
    repetition, as [_extract_form_meta] lists them, no two questions share
    an id, which is what the index of the builder needs to tell them
    apart. *)
Theorem parse_ids_are_page_ids (R : Runtime) (meta : Meta) (data : pyval)
    (fm : FormModel) (entries : list pystr) :
  parse meta data = Ok fm →
  m_entry_ids meta = first_seen entries →
  Forall (λ e, e ≠ []) entries →
  (length (fm_questions fm) ≤ length (m_entry_ids meta))%nat →
  indexed_ids (fm_questions fm) = take (length (fm_questions fm)) (m_entry_ids meta) ∧
  NoDup (indexed_ids (fm_questions fm)).
Proof.
  intros Hfm Hids Hne Hlen.
  assert (indexed_ids (fm_questions fm)
          = take (length (fm_questions fm)) (m_entry_ids meta)) as Heq.
  { apply indexed_ids_prefix. intros k q Hk.
    destruct (lookup_lt_is_Some_2 (m_entry_ids meta) k) as [e He].
    { apply lookup_lt_Some in Hk. lia. }
    assert (e ≠ []) as Hnz.
    { rewrite Forall_forall in Hne. apply Hne.
      apply list_elem_of_lookup_2 in He. rewrite Hids in He.
      by apply elem_of_dedup_seen in He as [? _]. }
    exists e. split_and!; [done|done|].
    apply parse_questions in Hfm as (items & _ & Hitems).
    by eapply (parse_items_entry_id meta 0 items). }
  split; [done|]. rewrite Heq, Hids.
  apply (sublist_NoDup _ (first_seen entries)); [|apply sublist_take].
  apply NoDup_dedup_seen.
Qed.

Lemma parse_ids_are_page_ids_witness :
  ∃ fm, parse (R:=ascii_runtime) sample_meta_two_ids sample_document = Ok fm ∧
        indexed_ids (fm_questions fm)
        = take (length (fm_questions fm)) (m_entry_ids sample_meta_two_ids) ∧
        NoDup (indexed_ids (fm_questions fm)).
Proof.
  destruct (parse (R:=ascii_runtime) sample_meta_two_ids sample_document)
    as [fm|] eqn:Hfm; [|by vm_compute in Hfm].
  exists fm. split; [done|].
  apply (parse_ids_are_page_ids ascii_runtime sample_meta_two_ids sample_document fm
           [py "555"; py "67890"; py "555"] Hfm).
  - reflexivity.
  - repeat constructor; done.
  - vm_compute in Hfm. injection Hfm as <-. cbn. lia.
Defined.

Lemma as_entry_id_Some (v : pyval) (s : pystr) :
  as_entry_id v = Some s → ∃ z, v = VInt z ∧ 10000 ≤ z ∧ s = str_of_int z.
Proof.
  unfold as_entry_id. destruct v as [|[|]|z| | | |]; try done. cbn [as_int].
  destruct (10000 <=? z) eqn:E; [|done]. intros [= <-].
  exists z. split_and!; [done| |done]. by apply Z.leb_le.
Qed.

Lemma first_some_elem {A B} (f : A → option B) (l : list A) (y : B) :
  first_some f l = Some y → ∃ x, x ∈ l ∧ f x = Some y.
Proof.
  induction l as [|x l IH]; [done|]. cbn [first_some].
  destruct (f x) as [y'|] eqn:E.
  - intros [= <-]. exists x. split; [by left|done].
  - intros (x' & Hx' & Hf)%IH. exists x'. split; [by right|done].
Qed.

Lemma dig_list_in_walk (x : pyval) (path : list Z) (node : list pyval) :
  _dig x path = Ok (VList node) → node ∈ _walk_lists x.
Proof.
  revert x. induction path as [|p path IH]; intros x.
  - intros [= ->]. cbn [_walk_lists]. by left.
  - intros (l & v & -> & Hv & Hd)%dig_cons_inv. cbn [_walk_lists]. right.
    apply elem_of_concat. exists (_walk_lists v). split; [|by apply IH].
    apply list_elem_of_fmap. exists v. split; [done|].
    by eapply list_elem_of_lookup_2.
Qed.

(** An integer that [_dig] finds at a path that is not empty is an element
    of a list of the walk. *)
Lemma dig_int_in_walk (x : pyval) (path : list Z) (z : Z) :
  path ≠ [] → _dig x path = Ok (VInt z) →
  ∃ node, node ∈ _walk_lists x ∧ VInt z ∈ node.
Proof.
  revert x. induction path as [|p path IH]; intros x Hne; [done|].
  cbn [_dig]. destruct x as [| | | | |l|]; try done.
  destruct (_ || _) eqn:E; [done|].
  apply orb_false_iff in E as [E1%Z.ltb_ge E2%Z.leb_gt].
  destruct (list_getitem_in_range l p) as (v & Hv & ->); [lia|]. cbn [bind].
  assert (v ∈ l) as Hin by (by eapply list_elem_of_lookup_2).
  destruct path as [|p' path].
  - intros [= ->]. exists l. split; [|done]. cbn [_walk_lists]. by left.
  - intros Hd. destruct (IH v) as (node & Hnode & Hz); [done|done|].
    exists node. split; [|done]. cbn [_walk_lists]. right.
    apply elem_of_concat. exists (_walk_lists v). split; [|done].
    apply list_elem_of_fmap. by exists v.
Qed.

Lemma entry_id_at_paths_elem (item : pyval) (paths : list (list Z)) (s : pystr) :
  Forall (λ path, path ≠ []) paths →
  entry_id_at_paths item paths = Ok (Some s) →
  ∃ z node, node ∈ _walk_lists item ∧ VInt z ∈ node ∧ 10000 ≤ z ∧ s = str_of_int z.
Proof.
  induction 1 as [|path paths Hne Hall IH]; [done|]. cbn [entry_id_at_paths].
  destruct (dig_ok item path) as [v Hv]. rewrite Hv. cbn [bind].
  destruct (as_entry_id v) as [s'|] eqn:Hid.
  - intros [= <-]. apply as_entry_id_Some in Hid as (z & -> & Hz & ->).
    destruct (dig_int_in_walk item path z Hne Hv) as (node & ? & ?). by exists z, node.
  - destruct v as [| | | | |l|]; try apply IH.
    destruct (first_some as_entry_id l) as [s'|] eqn:Hf; [|apply IH].
    intros [= <-]. apply first_some_elem in Hf as (x & Hx & Hid').
    apply as_entry_id_Some in Hid' as (z & -> & Hz & ->).
    exists z, l. split_and!; [|done..]. by eapply dig_list_in_walk.
Qed.

Lemma fold_longer_id_elem (l : list pyval) (best : option pystr) (s : pystr) :
  fold_left longer_id l best = Some s →
  best = Some s ∨ ∃ val, val ∈ l ∧ as_entry_id val = Some s.
Proof.
  revert best. induction l as [|val l IH]; intros best; cbn [fold_left]; [by left|].
  intros [Hb|(val' & Hin & Hid)]%IH.
  - unfold longer_id in Hb. destruct (as_entry_id val) as [s'|] eqn:Hid; [|by left].
    destruct best as [b|].
    + destruct (_ <? _)%nat; [|by left]. injection Hb as ->.
      right. exists val. split; [by left|done].
    + injection Hb as ->. right. exists val. split; [by left|done].
  - right. exists val'. split; [by right|done].
Qed.

(** X29: an entry id that [_extract_entry_id_from_item_fb] reads from an
    item is the decimal text of an integer of that item that is at least
    10000: an element of one of the lists of the item, whether it was found
    at one of the four fixed places or by the scan. *)
Theorem extract_entry_id_is_item_integer (item : pyval) (s : pystr) :
  _extract_entry_id_from_item_fb item = Ok (Some s) →
  ∃ z node, node ∈ _walk_lists item ∧ VInt z ∈ node ∧ 10000 ≤ z ∧ s = str_of_int z.
Proof.
  unfold _extract_entry_id_from_item_fb.
  destruct (entry_id_at_paths _ _) as [[s'|]|] eqn:Hp; cbn [bind]; [| |done].
  - intros [= <-]. eapply entry_id_at_paths_elem; [|done].
    repeat constructor; done.
  - intros [= Hf]. apply fold_longer_id_elem in Hf as [?|(val & Hin & Hid)]; [done|].
    apply as_entry_id_Some in Hid as (z & -> & Hz & ->).
    apply elem_of_concat in Hin as (node & Hnode & Hval). by exists z, node.
Qed.

Lemma extract_entry_id_is_item_integer_witness :
  ∃ z node, node ∈ _walk_lists sample_choice_item ∧ VInt z ∈ node ∧ 10000 ≤ z ∧
            py "67890" = str_of_int z.
Proof.
  apply (extract_entry_id_is_item_integer sample_choice_item (py "67890")).
  reflexivity.
Defined.
